(** * Banana sales manager: the real-time synchronisation engine

    A shallow embedding of [backend/server.js] (rate limiter and its
    middleware, request metrics, WebSocket registry, heartbeat and
    broadcast, REST mutation handlers, polling of pending changes, sync
    audit logger) and of the PL/pgSQL triggers, views and functions of
    [database/schema.sql], with the properties of the synchronisation
    engine stated over them.

    Conventions of the embedding:
    - [Date.now()], [NOW()] and [CURRENT_TIMESTAMP] are integers (an
      instant in milliseconds), passed to every operation that reads the
      clock; [uuid_generate_v4()] is passed in the same way;
    - DECIMAL(10,2) columns are integers counting hundredths; the CHECK
      constraints of the tables are tested, the limits of the column
      types (VARCHAR lengths, DECIMAL precision, INTEGER range) are not:
      values are taken to fit their columns;
    - the fields of a request body have the JSON type the handler
      expects, or are absent; identifiers are ASCII strings, and a row of
      [sales] is stored under the text of its UUID;
    - a JavaScript [Map] keyed by strings is a [gmap string _]; the
      [clients] map, whose iteration order decides the batches of a
      broadcast, is an association list in insertion order;
    - every [await] on the store is one atomic step on the store value;
      a handler that awaits several times is as many steps, with the
      state threaded between them;
    - the rows a SELECT returns from a view are given as a finite map,
      their order put aside; the timers of the heartbeat are functions
      on the registry, applied when the timer fires;
    - a [timestamptz] is an instant; the session has a time zone, given
      as the offset from UTC in force at each instant, and
      [row_to_json] writes an instant with that offset, which the
      conflict row keeps beside each snapshot: the cast [::timestamp]
      of such a text is the instant plus the offset;
    - a handler that raises while it answers has the response
      [Response None rejected]; what the client then receives depends
      on whether the framework forwards a rejected handler to the error
      middleware (Express 5) or not (Express 4), see [received]. *)

From Stdlib Require Import ZArith Lia Bool Ascii.
From stdpp Require Import gmap strings list.

Open Scope Z_scope.

(** ** RateLimiter (server.js, class RateLimiter) *)

Module RateLimiter.

(** One entry of [this.clients]. *)
Record client := Client {
  requests : list Z;
  lastReset : Z;
  violations : nat
}.

(** The object returned by [isAllowed].  The branch for an unknown key
    returns neither [resetTime] nor [violations]; an accepted request
    returns no [resetTime]. *)
Record decision := Decision {
  allowed : bool;
  remaining : Z;
  resetTime : option Z;
  violations_reported : option nat
}.

Definition maxRequestsPerMinute : Z := 60.
Definition maxRequestsPerSecond : Z := 10.

(** [`${clientId}_${endpoint}`] *)
Definition clientKey (clientId endpoint : string) : string :=
  clientId +:+ "_" +:+ endpoint.

(** [requests.filter(time => time > bound)] *)
Definition newer_than (bound : Z) (l : list Z) : list Z :=
  filter (λ time, bound < time) l.

Definition isAllowed (clients : gmap string client)
    (clientId endpoint : string) (now : Z)
  : decision * gmap string client :=
  let key := clientKey clientId endpoint in
  match clients !! key with
  | None =>
      (Decision true (maxRequestsPerMinute - 1) None None,
       <[key := Client [now] now 0]> clients)
  | Some c =>
      let oneMinuteAgo := now - 60000 in
      let reqs := newer_than oneMinuteAgo (requests c) in
      let oneSecondAgo := now - 1000 in
      let recentRequests := newer_than oneSecondAgo reqs in
      if bool_decide (maxRequestsPerMinute ≤ Z.of_nat (length reqs)) then
        let c' := Client reqs (lastReset c) (S (violations c)) in
        (Decision false 0 (Some (oneMinuteAgo + 60000)) (Some (violations c')),
         <[key := c']> clients)
      else if bool_decide (maxRequestsPerSecond ≤ Z.of_nat (length recentRequests)) then
        let c' := Client reqs (lastReset c) (S (violations c)) in
        (Decision false (maxRequestsPerMinute - Z.of_nat (length reqs))
                  (Some (oneSecondAgo + 1000)) (Some (violations c')),
         <[key := c']> clients)
      else
        let c' := Client (reqs ++ [now]) (lastReset c) (violations c) in
        (Decision true (maxRequestsPerMinute - Z.of_nat (length (requests c')))
                  None (Some (violations c')),
         <[key := c']> clients)
  end.

(** [cleanup()]: the periodic sweep. *)
Definition cleanup_client (now : Z) (c : client) : option client :=
  let oneHourAgo := now - 3600000 in
  let reqs := newer_than oneHourAgo (requests c) in
  if bool_decide (length reqs = 0%nat) && bool_decide (lastReset c < oneHourAgo)
  then None
  else Some (Client reqs (lastReset c) (violations c)).

Definition cleanup (clients : gmap string client) (now : Z)
  : gmap string client :=
  omap (cleanup_client now) clients.

(** A client issuing requests at the instants [times], in order. *)
Fixpoint run (clients : gmap string client) (clientId endpoint : string)
    (times : list Z) : list decision * gmap string client :=
  match times with
  | [] => ([], clients)
  | now :: rest =>
      let '(d, clients') := isAllowed clients clientId endpoint now in
      let '(ds, clients'') := run clients' clientId endpoint rest in
      (d :: ds, clients'')
  end.



(** [getStats()]: the number of clients, of clients with a non-empty
    window, of recorded instants and of violations. *)
Record limiter_stats := LimiterStats {
  totalClients : nat;
  activeClients : nat;
  totalRequests : nat;
  totalViolations : nat
}.

Definition getStats (clients : gmap string client) : limiter_stats :=
  map_fold
    (λ _ c stats,
       LimiterStats (totalClients stats)
         (if bool_decide (0 < length (requests c))%nat
          then S (activeClients stats) else activeClients stats)
         (totalRequests stats + length (requests c))
         (totalViolations stats + violations c))
    (LimiterStats (size clients) 0 0 0) clients.

(** What happens to the limiter over time: an admission check, or a run
    of the periodic [cleanup]. *)
Inductive activity :=
| check (clientId endpoint : string) (now : Z)
| sweep (now : Z).

Definition perform (a : activity) (clients : gmap string client)
  : gmap string client :=
  match a with
  | check clientId endpoint now => (isAllowed clients clientId endpoint now).2
  | sweep now => cleanup clients now
  end.

(** The limiter after the activities of [history], the earliest first. *)
Definition after (history : list activity) (clients : gmap string client)
  : gmap string client :=
  fold_left (λ clients a, perform a clients) history clients.

(** No window holds more instants than the minute cap. *)
Definition windows_bounded (clients : gmap string client) : Prop :=
  ∀ key c, clients !! key = Some c →
           Z.of_nat (length (requests c)) ≤ maxRequestsPerMinute.

(** The instants of [l] are at least one second apart, in order, the
    first not before [lo]. *)
Fixpoint spaced_from (lo : Z) (l : list Z) : Prop :=
  match l with
  | [] => True
  | x :: rest => lo ≤ x ∧ spaced_from (x + 1000) rest
  end.

(** The window of a client whose last request was at [T] and whose
    requests were at least a second apart. *)
Definition steady_window (T : Z) (c : client) : Prop :=
  (∃ lo, spaced_from lo (requests c)) ∧ Forall (λ x, x ≤ T) (requests c).

End RateLimiter.

(** ** WebSocket registry and broadcast (server.js, WebSocketManager, broadcast) *)

Module WebSocketManager.

(** A transport handle: the identity of a [ws] object. *)
Definition socket := nat.

Inductive ReadyState := CONNECTING | OPEN | CLOSING | CLOSED.

#[global] Instance ReadyState_eq_dec : EqDecision ReadyState.
Proof. solve_decision. Defined.

(** What the server observes of the transport: [ws.readyState], and
    whether [ws.send] raises on that socket. *)
Record transport := Transport {
  readyState : socket → ReadyState;
  send_throws : socket → bool
}.

(** The value stored in [clients] for a socket. *)
Record clientInfo := ClientInfo {
  deviceId : option string;
  connectedAt : Z;
  lastPing : Z;
  isAlive : bool
}.

(** The [clients] Map, in insertion order. *)
Definition registry := list (socket * clientInfo).

Fixpoint map_get (ws : socket) (clients : registry) : option clientInfo :=
  match clients with
  | [] => None
  | (k, v) :: rest => if bool_decide (k = ws) then Some v else map_get ws rest
  end.

(** [Map.set]: an existing key keeps its position. *)
Fixpoint map_set (ws : socket) (info : clientInfo) (clients : registry) : registry :=
  match clients with
  | [] => [(ws, info)]
  | (k, v) :: rest =>
      if bool_decide (k = ws) then (k, info) :: rest
      else (k, v) :: map_set ws info rest
  end.

Definition map_delete (ws : socket) (clients : registry) : registry :=
  filter (λ e, e.1 ≠ ws) clients.

Definition addClient (ws : socket) (dev : option string) (now : Z)
    (clients : registry) : registry :=
  map_set ws (ClientInfo dev now now true) clients.

Definition removeClient (ws : socket) (clients : registry) : registry :=
  match map_get ws clients with
  | Some _ => map_delete ws clients
  | None => clients
  end.

Definition updateClientDevice (ws : socket) (dev : string)
    (clients : registry) : registry :=
  match map_get ws clients with
  | Some info =>
      map_set ws (ClientInfo (Some dev) (connectedAt info) (lastPing info) (isAlive info)) clients
  | None => clients
  end.

Definition markClientAlive (ws : socket) (now : Z) (clients : registry) : registry :=
  match map_get ws clients with
  | Some info => map_set ws (ClientInfo (deviceId info) (connectedAt info) now true) clients
  | None => clients
  end.

Section Broadcast.
(** The event handed to [broadcast]; its serialisation
    [JSON.stringify(data)] is what [ws.send] receives. *)
Context {message : Type}.
Variable net : transport.

(** The counters and effects of one fan-out. *)
Record fanout := Fanout {
  successCount : nat;
  failureCount : nat;
  clients_after : registry;
  (** every [ws.send(message)] that returned normally, in order *)
  delivered : list (socket * clientInfo * message);
  (** every [ws.send(message)] that raised *)
  failed : list (socket * clientInfo)
}.

(** The body of the promise created for one entry of a batch. *)
Definition send_one (data : message) (excludeDeviceId : option string)
    (st : fanout) (entry : socket * clientInfo) : fanout :=
  let '(ws, info) := entry in
  if bool_decide (readyState net ws = OPEN)
     && bool_decide (deviceId info ≠ excludeDeviceId)
  then
    if send_throws net ws then
      Fanout (successCount st) (S (failureCount st))
             (removeClient ws (clients_after st))
             (delivered st) (failed st ++ [(ws, info)])
    else
      Fanout (S (successCount st)) (failureCount st)
             (clients_after st)
             (delivered st ++ [(ws, info, data)]) (failed st)
  else st.

Definition sendBatch (data : message) (excludeDeviceId : option string)
    (st : fanout) (batch : registry) : fanout :=
  fold_left (send_one data excludeDeviceId) batch st.

Definition batchSize : nat := 50.

(** [clientArray.slice(i, i + batchSize)] for i = 0, 50, 100, ... *)
Definition batches (clientArray : registry) : list registry :=
  map (λ j, take batchSize (drop (j * batchSize) clientArray))
      (seq 0 ((length clientArray + batchSize - 1) / batchSize)).

(** The outcome of [broadcast]: [returned] is the pair of counters the
    caller receives, read when the first batch has been sent and
    [processBatches] is suspended at its first [await]; [completed]
    is the fan-out once every batch has been sent. *)
Record broadcast_result := BroadcastResult {
  returned : nat * nat;
  completed : fanout
}.

Definition broadcast (clients : registry) (data : message)
    (excludeDeviceId : option string) : broadcast_result :=
  let clientArray := clients in
  let st0 := Fanout 0 0 clients [] [] in
  match batches clientArray with
  | [] => BroadcastResult (0, 0)%nat st0
  | first :: later =>
      let st1 := sendBatch data excludeDeviceId st0 first in
      BroadcastResult (successCount st1, failureCount st1)
        (fold_left (sendBatch data excludeDeviceId) later st1)
  end.

(** The entries [broadcast] sends to: open, and bound to another device
    than the excluded one; those whose [ws.send] returns, and those whose
    [ws.send] raises. *)
Definition eligible (excludeDeviceId : option string)
    (entry : socket * clientInfo) : Prop :=
  readyState net entry.1 = OPEN ∧ deviceId entry.2 ≠ excludeDeviceId.

Definition accepted (excludeDeviceId : option string)
    (entry : socket * clientInfo) : Prop :=
  eligible excludeDeviceId entry ∧ send_throws net entry.1 = false.

Definition refused (excludeDeviceId : option string)
    (entry : socket * clientInfo) : Prop :=
  eligible excludeDeviceId entry ∧ send_throws net entry.1 = true.

#[global] Instance eligible_dec excl entry : Decision (eligible excl entry).
Proof. unfold eligible. apply _. Defined.
#[global] Instance accepted_dec excl entry : Decision (accepted excl entry).
Proof. unfold accepted. apply _. Defined.
#[global] Instance refused_dec excl entry : Decision (refused excl entry).
Proof. unfold refused. apply _. Defined.

(** [broadcastToDevice] *)
Definition send_device (data : message) (dev : string)
    (st : bool * registry * list (socket * message))
    (entry : socket * clientInfo) : bool * registry * list (socket * message) :=
  let '(sent, clients, out) := st in
  let '(ws, info) := entry in
  if bool_decide (readyState net ws = OPEN)
     && bool_decide (deviceId info = Some dev)
  then
    if send_throws net ws then (sent, removeClient ws clients, out)
    else (true, clients, out ++ [(ws, data)])
  else st.

Definition broadcastToDevice (clients : registry) (dev : string) (data : message)
  : bool * registry * list (socket * message) :=
  fold_left (send_device data dev) clients (false, clients, []).
End Broadcast.

(** *** A fan-out with other handlers running between its batches *)

(** What a batch finds when it is sent.  After the first batch
    [processBatches] is suspended, and the event loop runs other
    handlers before the next one: the transport may have changed, and so
    may the fields of the [clientInfo] objects, which the array shares
    with the [clients] Map ([m_view ws info] is the present value of the
    object that held [info] when [broadcast] was called). *)
Record moment := Moment {
  m_net : transport;
  m_view : socket → clientInfo → clientInfo
}.

(** A batch as it is read when it is sent. *)
Definition seen (m : moment) (batch : registry) : registry :=
  (λ e, (e.1, m_view m e.1 e.2)) <$> batch.

(** The batches from the [j]-th on, each sent at its own moment. *)
Fixpoint send_batches {message : Type} (data : message)
    (excludeDeviceId : option string) (moments : nat → moment) (j : nat)
    (bs : list registry) (st : fanout) : fanout :=
  match bs with
  | [] => st
  | b :: rest =>
      send_batches data excludeDeviceId moments (S j) rest
        (sendBatch (m_net (moments j)) data excludeDeviceId st (seen (moments j) b))
  end.

(** [broadcast], the [j]-th batch being sent at [moments j]; the first
    batch is sent within the call. *)
Definition broadcast_interleaved {message : Type} (moments : nat → moment)
    (clients : registry) (data : message) (excludeDeviceId : option string)
  : broadcast_result :=
  let st0 := Fanout 0 0 clients [] [] in
  match batches clients with
  | [] => BroadcastResult (0, 0)%nat st0
  | first :: later =>
      let st1 := sendBatch (m_net (moments 0%nat)) data excludeDeviceId st0
                   (seen (moments 0%nat) first) in
      BroadcastResult (successCount st1, failureCount st1)
        (send_batches data excludeDeviceId moments 1 later st1)
  end.

(** Nothing else runs between the batches. *)
Definition steady (net : transport) : nat → moment :=
  λ _, Moment net (λ _ info, info).

(** What the batch [b], sent at moment [j], hands to the transport: the
    deliveries, and the sends that raised. *)
Definition sent_at {message : Type} (moments : nat → moment) (data : message)
    (excludeDeviceId : option string) (j : nat) (b : registry)
    (x : socket * clientInfo * message) : Prop :=
  ∃ ws info0,
    (ws, info0) ∈ b
    ∧ x = (ws, m_view (moments j) ws info0, data)
    ∧ accepted (m_net (moments j)) excludeDeviceId
        (ws, m_view (moments j) ws info0).

Definition failed_at (moments : nat → moment)
    (excludeDeviceId : option string) (j : nat) (b : registry)
    (x : socket * clientInfo) : Prop :=
  ∃ ws info0,
    (ws, info0) ∈ b
    ∧ x = (ws, m_view (moments j) ws info0)
    ∧ refused (m_net (moments j)) excludeDeviceId
        (ws, m_view (moments j) ws info0).

(** What a fan-out did, the payload put aside. *)
Definition traffic {M : Type} (st : @fanout M)
  : nat * nat * registry * list (socket * clientInfo) * list (socket * clientInfo) :=
  (successCount st, failureCount st, clients_after st, failed st, fst <$> delivered st).

(** *** Heartbeat *)

(** The test of [cleanupDeadConnections] on one entry:
    [timeSinceLastPing > 60000 || !clientInfo.isAlive]. *)
Definition timed_out (now : Z) (info : clientInfo) : bool :=
  bool_decide (60000 < now - lastPing info) || negb (isAlive info).

(** [cleanupDeadConnections()]: the registry it leaves, and the sockets
    on which it called [ws.terminate()], in order. *)
Definition cleanupDeadConnections (net : transport) (now : Z) (clients : registry)
  : registry * list socket :=
  let deadConnections := (filter (λ e, timed_out now e.2) clients).*1 in
  fold_left
    (λ st ws,
       (removeClient ws st.1,
        if bool_decide (readyState net ws = OPEN) then st.2 ++ [ws] else st.2))
    deadConnections (clients, []).

(** The periodic ping: every open connection is marked not alive and
    pinged; the registry it leaves and the sockets pinged. *)
Definition ping_clients (net : transport) (clients : registry)
  : registry * list socket :=
  ((λ e, if bool_decide (readyState net e.1 = OPEN)
         then (e.1, ClientInfo (deviceId e.2) (connectedAt e.2) (lastPing e.2) false)
         else e) <$> clients,
   (filter (λ e, readyState net e.1 = OPEN) clients).*1).

(** The keys of a Map are distinct. *)
Definition is_map (clients : registry) : Prop := NoDup clients.*1.

End WebSocketManager.


(** ** The record store (database/schema.sql) *)

Module Store.

(** [sync_status], constrained by its CHECK to three literals. *)
Inductive SyncStatus := pending | synced | conflict.

#[global] Instance SyncStatus_eq_dec : EqDecision SyncStatus.
Proof. solve_decision. Defined.

(** A row of [sales]; [row_to_json] of a row is the row itself.  The
    server fills [notes], [payment_method], [amount_received] and
    [device_id] on every insert, so they are never NULL here.  The
    generated column [outstanding_balance] is [outstanding_balance]
    below. *)
Record sale := Sale {
  id : string;
  product : string;
  quantity : Z;
  price : Z;
  total : Z;
  customer : string;
  notes : string;
  payment_status : string;
  payment_method : string;
  amount_received : Z;
  created_at : Z;
  updated_at : Z;
  version : Z;
  device_id : string;
  user_id : string;
  deleted_at : option Z;
  is_deleted : bool;
  last_sync_at : option Z;
  sync_status : SyncStatus
}.

Definition outstanding_balance (r : sale) : Z := total r - amount_received r.

(** A row of [conflicts].  The snapshots are JSON: the text of a
    [timestamptz] in them is a local time followed by the UTC offset
    the session that wrote it had at that instant.  [data_1] and
    [data_2] hold the rows (their instants); [zone_1] and [zone_2] are
    the offsets, in milliseconds, written behind [updated_at] in the
    two snapshots. *)
Record conflict_row := ConflictRow {
  c_id : string;
  c_table_name : string;
  c_record_id : string;
  device_id_1 : string;
  device_id_2 : string;
  data_1 : sale;
  data_2 : sale;
  resolution_data : option sale;
  resolution_strategy : option string;
  resolved_at : option Z;
  is_resolved : bool;
  c_created_at : Z;
  zone_1 : Z;
  zone_2 : Z
}.

(** A row of [sync_log]. *)
Record sync_log_row := SyncLogRow {
  l_id : string;
  l_device_id : string;
  operation_type : string;
  l_table_name : string;
  l_record_id : option string;
  old_data : option sale;
  new_data : option sale;
  l_created_at : Z
}.

(** A row of [devices], keyed by [device_id]. *)
Record device_row := DeviceRow {
  device_name : option string;
  device_type : string;
  last_seen_at : Z;
  is_active : bool
}.

Record database := Database {
  sales : gmap string sale;
  conflicts : gmap string conflict_row;
  sync_log : list sync_log_row;
  devices : gmap string device_row
}.

(** What a statement reads from its surroundings: the transaction time
    ([NOW()], [CURRENT_TIMESTAMP]), the value [uuid_generate_v4()] would
    return, whether [pool.connect()] succeeds, a failure of the
    server itself given by its SQLSTATE (connection lost, shutdown),
    and the [TimeZone] of the session: the UTC offset, in
    milliseconds, it shows for each instant. *)
Record env := Session {
  now : Z;
  fresh_uuid : string;
  connects : bool;
  fault : option string;
  utc_offset : Z → Z
}.

(** A session whose [TimeZone] is UTC. *)
Definition Env (now : Z) (fresh_uuid : string) (connects : bool)
    (fault : option string) : env :=
  Session now fresh_uuid connects fault (λ _, 0).

(** A statement either raises an SQLSTATE and leaves the store as it
    was, or returns a value and the store it produced. *)
Definition query (A : Type) := env → database → string + (A * database).

(** *** CHECK constraints *)

Definition sales_checks (r : sale) : bool :=
  bool_decide (0 < quantity r)
  && bool_decide (0 ≤ price r)
  && bool_decide (0 ≤ total r)
  && bool_decide (0 ≤ amount_received r)
  && bool_decide (payment_status r ∈ ["pending"; "partial"; "paid"]).

Definition sync_log_checks (l : sync_log_row) : bool :=
  bool_decide (operation_type l ∈ ["create"; "update"; "delete"; "sync"]).

(** *** Triggers on [sales], BEFORE UPDATE FOR EACH ROW *)

(** [update_updated_at_column()] *)
Definition update_updated_at_column (e : env) (OLD NEW : sale) : sale :=
  {| id := id NEW; product := product NEW; quantity := quantity NEW;
     price := price NEW; total := total NEW; customer := customer NEW;
     notes := notes NEW; payment_status := payment_status NEW;
     payment_method := payment_method NEW;
     amount_received := amount_received NEW;
     created_at := created_at NEW;
     updated_at := now e;
     version := version OLD + 1;
     device_id := device_id NEW; user_id := user_id NEW;
     deleted_at := deleted_at NEW; is_deleted := is_deleted NEW;
     last_sync_at := last_sync_at NEW; sync_status := sync_status NEW |}.

Definition set_sync_status (s : SyncStatus) (r : sale) : sale :=
  {| id := id r; product := product r; quantity := quantity r;
     price := price r; total := total r; customer := customer r;
     notes := notes r; payment_status := payment_status r;
     payment_method := payment_method r;
     amount_received := amount_received r;
     created_at := created_at r; updated_at := updated_at r;
     version := version r;
     device_id := device_id r; user_id := user_id r;
     deleted_at := deleted_at r; is_deleted := is_deleted r;
     last_sync_at := last_sync_at r; sync_status := s |}.

(** The condition of [detect_conflicts()]:
    [OLD.version != NEW.version - 1 AND OLD.device_id != NEW.device_id]. *)
Definition conflict_condition (OLD NEW : sale) : bool :=
  bool_decide (version OLD ≠ version NEW - 1)
  && bool_decide (device_id OLD ≠ device_id NEW).

(** [INSERT INTO conflicts (...)], the primary key defaulting to
    [uuid_generate_v4()]; [row_to_json] writes each [updated_at] with
    the offset the session has at that instant. *)
Definition insert_conflict (e : env) (OLD NEW : sale)
    (cs : gmap string conflict_row) : string + gmap string conflict_row :=
  match cs !! fresh_uuid e with
  | Some _ => inl "23505"
  | None =>
      inr (<[fresh_uuid e :=
              {| c_id := fresh_uuid e; c_table_name := "sales";
                 c_record_id := id NEW;
                 device_id_1 := device_id OLD; device_id_2 := device_id NEW;
                 data_1 := OLD; data_2 := NEW;
                 resolution_data := None; resolution_strategy := None;
                 resolved_at := None; is_resolved := false;
                 c_created_at := now e;
                 zone_1 := utc_offset e (updated_at OLD);
                 zone_2 := utc_offset e (updated_at NEW) |}]> cs)
  end.

(** [detect_conflicts()]: the row it returns and the [conflicts] table. *)
Definition detect_conflicts (e : env) (OLD NEW : sale)
    (cs : gmap string conflict_row)
  : string + (sale * gmap string conflict_row) :=
  if conflict_condition OLD NEW then
    match insert_conflict e OLD NEW cs with
    | inl err => inl err
    | inr cs' => inr (set_sync_status conflict NEW, cs')
    end
  else inr (NEW, cs).

(** PostgreSQL fires the triggers of one event in the alphabetical order
    of their names, each receiving the row the one before returned:
    [detect_sales_conflicts], then [update_sales_updated_at]. *)
Definition before_update_triggers (e : env) (OLD NEW : sale)
    (cs : gmap string conflict_row)
  : string + (sale * gmap string conflict_row) :=
  match detect_conflicts e OLD NEW cs with
  | inl err => inl err
  | inr (NEW1, cs') => inr (update_updated_at_column e OLD NEW1, cs')
  end.

(** One row of an [UPDATE sales], the row stored under the key [sid]:
    [NEW] is [OLD] with the SET clause applied; triggers run, the CHECK
    constraints are tested on the row they return, and the row replaces
    [OLD]. *)
Definition update_row (e : env) (sid : string) (OLD NEW : sale) (db : database)
  : string + (sale * database) :=
  match before_update_triggers e OLD NEW (conflicts db) with
  | inl err => inl err
  | inr (NEW', cs') =>
      if sales_checks NEW' then
        inr (NEW', {| sales := <[sid := NEW']> (sales db);
                      conflicts := cs';
                      sync_log := sync_log db;
                      devices := devices db |})
      else inl "23514"
  end.

(** *** Statements issued by the server *)

(** [SELECT * FROM sales WHERE id = $1 AND is_deleted = FALSE] *)
Definition select_active_sale (sid : string) : query (list sale) :=
  λ e db,
    inr (match sales db !! sid with
         | Some r => if is_deleted r then [] else [r]
         | None => []
         end, db).

(** The optional columns of the body of a PUT; [None] is [undefined],
    which reaches the statement as NULL. *)
Record patch := Patch {
  p_product : option string;
  p_quantity : option Z;
  p_price : option Z;
  p_total : option Z;
  p_customer : option string;
  p_notes : option string;
  p_payment_status : option string;
  p_payment_method : option string;
  p_amount_received : option Z
}.

(** [COALESCE($n, column)] *)
Definition COALESCE {A} (x : option A) (col : A) : A := default col x.

(** The SET clause of the UPDATE of [PUT /api/sales/:id]. *)
Definition put_set_clause (p : patch) (dev : string) (e : env) (r : sale) : sale :=
  {| id := id r;
     product := COALESCE (p_product p) (product r);
     quantity := COALESCE (p_quantity p) (quantity r);
     price := COALESCE (p_price p) (price r);
     total := COALESCE (p_total p) (total r);
     customer := COALESCE (p_customer p) (customer r);
     notes := COALESCE (p_notes p) (notes r);
     payment_status := COALESCE (p_payment_status p) (payment_status r);
     payment_method := COALESCE (p_payment_method p) (payment_method r);
     amount_received := COALESCE (p_amount_received p) (amount_received r);
     created_at := created_at r;
     updated_at := now e;
     version := version r;
     device_id := dev; user_id := user_id r;
     deleted_at := deleted_at r; is_deleted := is_deleted r;
     last_sync_at := last_sync_at r;
     sync_status := pending |}.

(** [UPDATE sales SET ... WHERE id = $1 AND is_deleted = FALSE RETURNING *] *)
Definition update_sale (sid : string) (p : patch) (dev : string) : query (list sale) :=
  λ e db,
    match sales db !! sid with
    | Some OLD =>
        if is_deleted OLD then inr ([], db)
        else match update_row e sid OLD (put_set_clause p dev e OLD) db with
             | inl err => inl err
             | inr (r, db') => inr ([r], db')
             end
    | None => inr ([], db)
    end.

(** The SET clause of [soft_delete_sale]. *)
Definition soft_delete_set_clause (dev : string) (e : env) (r : sale) : sale :=
  {| id := id r; product := product r; quantity := quantity r;
     price := price r; total := total r; customer := customer r;
     notes := notes r; payment_status := payment_status r;
     payment_method := payment_method r;
     amount_received := amount_received r;
     created_at := created_at r; updated_at := updated_at r;
     version := version r;
     device_id := dev; user_id := user_id r;
     deleted_at := Some (now e); is_deleted := true;
     last_sync_at := last_sync_at r;
     sync_status := pending |}.

(** [soft_delete_sale(p_sale_id, p_device_id)], returning FOUND. *)
Definition soft_delete_sale (p_sale_id p_device_id : string) : query bool :=
  λ e db,
    match sales db !! p_sale_id with
    | Some OLD =>
        if is_deleted OLD then inr (false, db)
        else match update_row e p_sale_id OLD (soft_delete_set_clause p_device_id e OLD) db with
             | inl err => inl err
             | inr (_, db') => inr (true, db')
             end
    | None => inr (false, db)
    end.

(** The SET clause of the UPDATE of [resolve_conflict_last_write_wins]:
    nine columns read back from the chosen snapshot. *)
Definition resolve_set_clause (latest_data : sale) (r : sale) : sale :=
  {| id := id r;
     product := product latest_data;
     quantity := quantity latest_data;
     price := price latest_data;
     total := total latest_data;
     customer := customer latest_data;
     notes := notes latest_data;
     payment_status := payment_status latest_data;
     payment_method := payment_method latest_data;
     amount_received := amount_received latest_data;
     created_at := created_at r; updated_at := updated_at r;
     version := version r;
     device_id := device_id r; user_id := user_id r;
     deleted_at := deleted_at r; is_deleted := is_deleted r;
     last_sync_at := last_sync_at r;
     sync_status := synced |}.

(** The columns that UPDATE assigns from the snapshot. *)
Definition mutable_fields (r : sale)
  : string * Z * Z * Z * string * string * string * string * Z :=
  (product r, quantity r, price r, total r, customer r, notes r,
   payment_status r, payment_method r, amount_received r).

(** [(data->>'updated_at')::timestamp]: the cast to [timestamp]
    without time zone reads the local time of the text and drops the
    offset written behind it. *)
Definition local_updated_at (data : sale) (zone : Z) : Z := updated_at data + zone.

(** The snapshot [resolve_conflict_last_write_wins] keeps: [data_1] when
    its local time is the greater, [data_2] otherwise. *)
Definition latest_data (c : conflict_row) : sale :=
  if bool_decide (local_updated_at (data_2 c) (zone_2 c)
                  < local_updated_at (data_1 c) (zone_1 c))
  then data_1 c else data_2 c.

Definition stamp_resolved (e : env) (c : conflict_row) : conflict_row :=
  {| c_id := c_id c; c_table_name := c_table_name c;
     c_record_id := c_record_id c;
     device_id_1 := device_id_1 c; device_id_2 := device_id_2 c;
     data_1 := data_1 c; data_2 := data_2 c;
     resolution_data := Some (latest_data c);
     resolution_strategy := Some "last_write_wins";
     resolved_at := Some (now e);
     is_resolved := true;
     c_created_at := c_created_at c;
     zone_1 := zone_1 c; zone_2 := zone_2 c |}.

(** [resolve_conflict_last_write_wins(p_conflict_id)] *)
Definition resolve_conflict_last_write_wins (p_conflict_id : string) : query bool :=
  λ e db,
    match conflicts db !! p_conflict_id with
    | None => inr (false, db)
    | Some conflict_record =>
        let db1 := {| sales := sales db;
                      conflicts := <[p_conflict_id := stamp_resolved e conflict_record]>
                                     (conflicts db);
                      sync_log := sync_log db;
                      devices := devices db |} in
        match sales db1 !! c_record_id conflict_record with
        | None => inr (true, db1)
        | Some OLD =>
            match update_row e (c_record_id conflict_record) OLD
                    (resolve_set_clause (latest_data conflict_record) OLD) db1 with
            | inl err => inl err
            | inr (_, db2) => inr (true, db2)
            end
        end
    end.

(** The VALUES of the INSERT of [POST /api/sales]. *)
Record new_sale := NewSale {
  n_product : string;
  n_quantity : Z;
  n_price : Z;
  n_total : Z;
  n_customer : string;
  n_notes : string;
  n_payment_status : string;
  n_payment_method : string;
  n_amount_received : Z;
  n_device_id : string
}.

(** [INSERT INTO sales (...) VALUES (...) RETURNING *], the other columns
    taking their defaults. *)
Definition insert_sale (v : new_sale) : query sale :=
  λ e db,
    let r := {| id := fresh_uuid e;
                product := n_product v; quantity := n_quantity v;
                price := n_price v; total := n_total v;
                customer := n_customer v; notes := n_notes v;
                payment_status := n_payment_status v;
                payment_method := n_payment_method v;
                amount_received := n_amount_received v;
                created_at := now e; updated_at := now e;
                version := 1;
                device_id := n_device_id v; user_id := "anonymous";
                deleted_at := None; is_deleted := false;
                last_sync_at := None; sync_status := pending |} in
    if sales_checks r then
      match sales db !! fresh_uuid e with
      | Some _ => inl "23505"
      | None => inr (r, {| sales := <[fresh_uuid e := r]> (sales db);
                           conflicts := conflicts db;
                           sync_log := sync_log db;
                           devices := devices db |})
      end
    else inl "23514".

(** The SET clause of [POST /api/sync/mark-synced]. *)
Definition mark_synced_set_clause (e : env) (r : sale) : sale :=
  {| id := id r; product := product r; quantity := quantity r;
     price := price r; total := total r; customer := customer r;
     notes := notes r; payment_status := payment_status r;
     payment_method := payment_method r;
     amount_received := amount_received r;
     created_at := created_at r; updated_at := updated_at r;
     version := version r;
     device_id := device_id r; user_id := user_id r;
     deleted_at := deleted_at r; is_deleted := is_deleted r;
     last_sync_at := Some (now e);
     sync_status := synced |}.

Fixpoint mark_synced_rows (e : env) (ids : list string) (db : database)
  : string + (list string * database) :=
  match ids with
  | [] => inr ([], db)
  | sid :: rest =>
      match sales db !! sid with
      | None => mark_synced_rows e rest db
      | Some OLD =>
          match update_row e sid OLD (mark_synced_set_clause e OLD) db with
          | inl err => inl err
          | inr (r, db') =>
              match mark_synced_rows e rest db' with
              | inl err => inl err
              | inr (out, db'') => inr (id r :: out, db'')
              end
          end
      end
  end.

(** [UPDATE sales SET sync_status = 'synced', last_sync_at =
    CURRENT_TIMESTAMP WHERE id = ANY($1) RETURNING id] *)
Definition mark_synced (sale_ids : list string) : query (list string) :=
  λ e db, mark_synced_rows e (remove_dups sale_ids) db.

(** [register_device(p_device_id, p_device_name, p_device_type, NULL)] *)
Definition register_device (p_device_id : string) (p_device_name : option string)
    (p_device_type : string) : query unit :=
  λ e db,
    let row :=
      match devices db !! p_device_id with
      | Some d => DeviceRow (device_name d) (device_type d) (now e) true
      | None => DeviceRow p_device_name p_device_type (now e) true
      end in
    inr (tt, {| sales := sales db; conflicts := conflicts db;
                sync_log := sync_log db;
                devices := <[p_device_id := row]> (devices db) |}).

(** [INSERT INTO sync_log (...) VALUES (...) RETURNING id, created_at]:
    the CHECK on [operation_type] is tested with the row, the foreign
    key to [devices] at the end of the statement. *)
Definition insert_sync_log (dev operationType tableName : string)
    (recordId : option string) (oldData newData : option sale)
  : query sync_log_row :=
  λ e db,
    let l := {| l_id := fresh_uuid e; l_device_id := dev;
                operation_type := operationType;
                l_table_name := tableName; l_record_id := recordId;
                old_data := oldData; new_data := newData;
                l_created_at := now e |} in
    if negb (sync_log_checks l) then inl "23514"
    else if bool_decide (fresh_uuid e ∈ map l_id (sync_log db)) then inl "23505"
    else match devices db !! dev with
         | None => inl "23503"
         | Some _ => inr (l, {| sales := sales db; conflicts := conflicts db;
                                sync_log := sync_log db ++ [l];
                                devices := devices db |})
         end.

(** Every row of [db] is still a row of [db']. *)
Definition rows_kept (db db' : database) : Prop :=
  ∀ k, is_Some (sales db !! k) → is_Some (sales db' !! k).

(** *** Every statement that writes *)

(** The statements of the server that write to the store. *)
Inductive statement :=
| stmt_insert_sale (v : new_sale)
| stmt_update_sale (sid : string) (p : patch) (dev : string)
| stmt_soft_delete_sale (sid dev : string)
| stmt_mark_synced (sale_ids : list string)
| stmt_resolve_conflict (cid : string)
| stmt_register_device (dev : string) (name : option string) (type : string)
| stmt_insert_sync_log (dev operationType tableName : string)
    (recordId : option string) (oldData newData : option sale).

(** The store a statement leaves, its result put aside. *)
Definition effect {A} (r : string + (A * database)) : string + database :=
  match r with
  | inl err => inl err
  | inr (_, db) => inr db
  end.

Definition execute (s : statement) (e : env) (db : database) : string + database :=
  match s with
  | stmt_insert_sale v => effect (insert_sale v e db)
  | stmt_update_sale sid p dev => effect (update_sale sid p dev e db)
  | stmt_soft_delete_sale sid dev => effect (soft_delete_sale sid dev e db)
  | stmt_mark_synced sale_ids => effect (mark_synced sale_ids e db)
  | stmt_resolve_conflict cid => effect (resolve_conflict_last_write_wins cid e db)
  | stmt_register_device dev name type => effect (register_device dev name type e db)
  | stmt_insert_sync_log dev operationType tableName recordId oldData newData =>
      effect (insert_sync_log dev operationType tableName recordId oldData newData e db)
  end.

End Store.


(** ** The server (backend/server.js) *)

Module Server.
Import Store WebSocketManager.

(** *** DatabaseManager *)

(** The values the server throws and catches. *)
Inductive exn :=
| pg_error (sqlstate : string)
    (** raised by [client.query]; [error.code] is the SQLSTATE *)
| connect_error
    (** raised by [pool.connect()]; it has no [code] *)
| mapped_error (code message : string) (status : nat)
    (** the object built by [handleDatabaseError] *)
| type_error
    (** reading a property of [undefined] *)
| js_error (message : string).
    (** [new Error(message)] *)

(** [error.code] *)
Definition error_code (error : exn) : option string :=
  match error with
  | pg_error sqlstate => Some sqlstate
  | mapped_error code _ _ => Some code
  | connect_error | type_error | js_error _ => None
  end.

(** [error.status] *)
Definition error_status (error : exn) : option nat :=
  match error with
  | mapped_error _ _ status => Some status
  | _ => None
  end.

(** [error.statusCode]: no value the server throws has this property. *)
Definition error_statusCode (error : exn) : option nat := None.

Definition errorMap : list (string * (string * string * nat)) :=
  [ ("23505", ("DUPLICATE_KEY", "Record already exists", 409%nat));
    ("23503", ("FOREIGN_KEY_VIOLATION", "Referenced record does not exist", 400%nat));
    ("23502", ("NOT_NULL_VIOLATION", "Required field is missing", 400%nat));
    ("23514", ("CHECK_VIOLATION", "Data validation failed", 400%nat));
    ("42P01", ("TABLE_NOT_FOUND", "Database table not found", 500%nat));
    ("42703", ("COLUMN_NOT_FOUND", "Database column not found", 500%nat));
    ("08006", ("CONNECTION_FAILURE", "Database connection failed", 503%nat));
    ("08003", ("CONNECTION_NOT_EXIST", "Database connection does not exist", 503%nat));
    ("57P01", ("ADMIN_SHUTDOWN", "Database is shutting down", 503%nat));
    ("53300", ("TOO_MANY_CONNECTIONS", "Too many database connections", 503%nat)) ].

Fixpoint assoc {A} (k : string) (l : list (string * A)) : option A :=
  match l with
  | [] => None
  | (k', v) :: rest => if bool_decide (k' = k) then Some v else assoc k rest
  end.

Definition handleDatabaseError (error : exn) : exn :=
  match error_code error ≫= λ c, assoc c errorMap with
  | Some (code, message, status) => mapped_error code message status
  | None => mapped_error "UNKNOWN_ERROR" "An unexpected database error occurred" 500
  end.

(** A computation on the store that may throw. *)
Definition db_action (A : Type) := database → (exn + A) * database.

(** [DatabaseManager.executeQuery]: [pool.connect()] is outside the
    [try], the query inside. *)
Definition executeQuery {A} (q : query A) (e : env) : db_action A :=
  λ db,
    if connects e then
      match fault e with
      | Some sqlstate => (inl (handleDatabaseError (pg_error sqlstate)), db)
      | None =>
          match q e db with
          | inl sqlstate => (inl (handleDatabaseError (pg_error sqlstate)), db)
          | inr (a, db') => (inr a, db')
          end
      end
    else (inl connect_error, db).

(** The loop of [executeTransaction] between BEGIN and COMMIT. *)
Fixpoint run_operations {A} (operations : list (query A)) (e : env)
    (db : database) : string + (list A * database) :=
  match operations with
  | [] => inr ([], db)
  | operation :: rest =>
      match operation e db with
      | inl sqlstate => inl sqlstate
      | inr (result, db') =>
          match run_operations rest e db' with
          | inl sqlstate => inl sqlstate
          | inr (results, db'') => inr (result :: results, db'')
          end
      end
  end.

(** [DatabaseManager.executeTransaction]: on an error the ROLLBACK
    restores the store. *)
Definition executeTransaction {A} (operations : list (query A)) (e : env)
  : db_action (list A) :=
  λ db,
    if connects e then
      match fault e with
      | Some sqlstate => (inl (handleDatabaseError (pg_error sqlstate)), db)
      | None =>
          match run_operations operations e db with
          | inl sqlstate => (inl (handleDatabaseError (pg_error sqlstate)), db)
          | inr (results, db') => (inr results, db')
          end
      end
    else (inl connect_error, db).

(** [pool.query]: errors reach the caller as they are. *)
Definition pool_query {A} (q : query A) (e : env) : db_action A :=
  λ db,
    if connects e then
      match fault e with
      | Some sqlstate => (inl (pg_error sqlstate), db)
      | None =>
          match q e db with
          | inl sqlstate => (inl (pg_error sqlstate), db)
          | inr (a, db') => (inr a, db')
          end
      end
    else (inl connect_error, db).

(** [registerDevice]: logs and rethrows. *)
Definition registerDevice (deviceId : string) (deviceName : option string)
    (deviceType : string) (e : env) : db_action unit :=
  executeQuery (register_device deviceId deviceName deviceType) e.

(** [logSyncOperation]: the [catch] returns [null]. *)
Definition logSyncOperation (deviceId operationType tableName : string)
    (recordId : option string) (oldData newData : option sale) (e : env)
  : db_action (option sync_log_row) :=
  λ db,
    match executeQuery
            (insert_sync_log deviceId operationType tableName recordId oldData newData)
            e db with
    | (inr row, db') => (inr (Some row), db')
    | (inl error, db') => (inr None, db')
    end.

(** *** JavaScript helpers *)

Definition is_white_space (c : ascii) : bool :=
  bool_decide (N_of_ascii c ∈ [9; 10; 11; 12; 13; 32]%N).

Fixpoint trim_start (s : string) : string :=
  match s with
  | String c rest => if is_white_space c then trim_start rest else s
  | EmptyString => s
  end.

(** The value of [c] as a digit of the given radix. *)
Definition digit_of (radix : Z) (c : ascii) : option Z :=
  let n := Z.of_N (N_of_ascii c) in
  let d := if bool_decide (48 ≤ n ≤ 57) then Some (n - 48)
           else if bool_decide (97 ≤ n ≤ 122) then Some (n - 87)
           else if bool_decide (65 ≤ n ≤ 90) then Some (n - 55)
           else None in
  d ≫= λ d, if bool_decide (d < radix) then Some d else None.

Fixpoint parse_digits (radix : Z) (acc : option Z) (s : string) : option Z :=
  match s with
  | String c rest =>
      match digit_of radix c with
      | Some d => parse_digits radix (Some (default 0 acc * radix + d)) rest
      | None => acc
      end
  | EmptyString => acc
  end.

(** [parseInt(s)] on an ASCII string; [None] is NaN. *)
Definition parseInt (s : string) : option Z :=
  let s := trim_start s in
  let '(sign, s) :=
    match s with
    | String "-"%char rest => (-1, rest)
    | String "+"%char rest => (1, rest)
    | _ => (1, s)
    end in
  let '(radix, s) :=
    match s with
    | String "0"%char (String "x"%char rest) => (16, rest)
    | String "0"%char (String "X"%char rest) => (16, rest)
    | _ => (10, s)
    end in
  (λ n, sign * n) <$> parse_digits radix None s.

(** [!s] for a string or [undefined]. *)
Definition falsy_string (s : option string) : bool :=
  match s with
  | Some s => bool_decide (s = "")
  | None => true
  end.

(** Truthiness of a number or [undefined]. *)
Definition truthy_number (n : option Z) : bool :=
  match n with
  | Some n => bool_decide (n ≠ 0)
  | None => false
  end.

(** [x !== undefined && (isNaN(x) || x <= 0)] for a number or [undefined]. *)
Definition not_positive (x : option Z) : bool :=
  match x with
  | Some x => bool_decide (x ≤ 0)
  | None => false
  end.

(** [error.message]; the text of a PostgreSQL error is not modelled, its
    SQLSTATE stands for it. *)
Definition error_message (error : exn) : string :=
  match error with
  | pg_error sqlstate => sqlstate
  | connect_error => "timeout exceeded when trying to connect"
  | mapped_error _ message _ => message
  | type_error => "Cannot read properties of undefined"
  | js_error message => message
  end.

(** *** Responses and events *)

Inductive body :=
| error_json (error : string) (code : option string)
| version_conflict_json (current_version provided_version : Z) (current_data : sale)
| sale_json (data : sale) (broadcasted : bool) (clientsNotified : nat)
| deleted_json (id : option Z) (deleted_at : Z) (broadcasted : bool) (clientsNotified : nat)
| resolved_json
| rejected.
    (** no body: the handler raised while answering, and sent nothing *)

(** What a handler answers: [res.status(s).json(b)] is
    [Response (Some s) b]; a handler that raises while answering, and
    so ends with its promise rejected and nothing sent, is
    [Response None rejected]. *)
Record response := Response {
  status : option nat;
  body_of : body
}.

(** [res.status(s).json(b)] where [s] may be [undefined].  The status
    of a response must be an integer: with [undefined] the call raises
    before anything is sent (in [res.status] itself in Express 5, in
    [writeHead] when [json] ends the response in Express 4). *)
Definition res_status_json (s : option nat) (b : body) : response :=
  match s with
  | Some s => Response (Some s) b
  | None => Response None rejected
  end.

(** The error-handling middleware, registered after the routes. *)
Definition error_middleware : response :=
  Response (Some 500%nat) (error_json "Internal server error" None).

(** What the client receives for the answer of a handler.  A handler
    that raised is answered by the error-handling middleware when
    Express passes rejected promises on to it (as version 5 does), and
    is not answered at all when it does not (version 4). *)
Definition received (forwards_rejections : bool) (r : response) : option response :=
  match body_of r with
  | rejected => if forwards_rejections then Some error_middleware else None
  | _ => Some r
  end.

Record metadata := Metadata {
  m_deviceId : string;
  m_timestamp : Z;
  m_syncLogId : option string;
  m_version : option Z;
  m_previousVersion : option Z;
  m_originalData : option sale
}.

Inductive sync_data :=
| row_data (r : sale)
| deleted_data (id : option Z) (device_id : string) (deleted_at : Z).

Inductive event :=
| data_sync (operation table : string) (data : sync_data) (m : metadata)
| device_connected (deviceId : string) (deviceName : option string) (timestamp : Z)
| device_disconnected (deviceId : string) (timestamp : Z).

(** The state a REST handler works on. *)
Record world := World {
  w_db : database;
  w_clients : registry
}.

(** What a handler did: its response, the state it left, and the
    messages its broadcast handed to the transport. *)
Record outcome := Outcome {
  o_response : response;
  o_world : world;
  o_sent : list (socket * clientInfo * event)
}.

(** Two outcomes that differ at most in the audit log and in the
    [syncLogId] of the event that was broadcast. *)
Definition agree_apart_from_log (o o' : outcome) : Prop :=
  o_response o = o_response o'
  ∧ sales (w_db (o_world o)) = sales (w_db (o_world o'))
  ∧ conflicts (w_db (o_world o)) = conflicts (w_db (o_world o'))
  ∧ devices (w_db (o_world o)) = devices (w_db (o_world o'))
  ∧ w_clients (o_world o) = w_clients (o_world o')
  ∧ fst <$> o_sent o = fst <$> o_sent o'.

(** [syncLog?.id] *)
Definition syncLogId (syncLog : option sync_log_row) : option string :=
  l_id <$> syncLog.

(** *** REST handlers *)

Section Handlers.
Variable net : transport.

(** [PUT /api/sales/:id]: [req.params.id] and the fields of [req.body]. *)
Record put_request := PutRequest {
  put_id : string;
  put_patch : patch;
  put_device_id : option string;
  put_version : option Z
}.

(** The [catch] of the PUT and DELETE handlers: the object returned by
    [handleDatabaseError] has a [status] but no [statusCode], which is
    what the answer reads. *)
Definition mutation_catch (error : exn) : response :=
  let errorInfo := handleDatabaseError error in
  res_status_json (error_statusCode errorInfo)
    (error_json (error_message errorInfo) (error_code errorInfo)).

(** Where the PUT handler stands once its SELECT has returned and the
    checks on the row it read are done: it has answered, or it goes on
    to the UPDATE with the row it read. *)
Inductive put_checked :=
| put_answered (r : response)
| put_proceeds (device_id : string) (currentSale : sale).

Definition json (s : nat) (b : body) : response := Response (Some s) b.

(** The PUT handler up to its UPDATE: the checks after the SELECT are
    pure, and run in the same turn of the event loop as its result. *)
Definition put_read (req : put_request) (e_read : env) (db : database)
  : put_checked * database :=
  if falsy_string (put_device_id req) then
    (put_answered (json 400 (error_json "device_id is required" (Some "MISSING_DEVICE_ID"))), db)
  else if bool_decide (put_id req = "") || bool_decide (parseInt (put_id req) = None) then
    (put_answered (json 400 (error_json "Valid sale ID is required" (Some "INVALID_SALE_ID"))), db)
  else
    match executeQuery (select_active_sale (put_id req)) e_read db with
    | (inl error, db') => (put_answered (mutation_catch error), db')
    | (inr [], db') =>
        (put_answered (json 404 (error_json "Sale not found or has been deleted"
                                            (Some "SALE_NOT_FOUND"))), db')
    | (inr (currentSale :: _), db') =>
        if truthy_number (put_version req)
           && bool_decide (Some (version currentSale) ≠ put_version req)
        then
          (put_answered
             (json 409 (version_conflict_json (version currentSale)
                          (default 0 (put_version req)) currentSale)), db')
        else if not_positive (p_quantity (put_patch req)) then
          (put_answered (json 400 (error_json "Quantity must be a positive number"
                                              (Some "INVALID_QUANTITY"))), db')
        else if not_positive (p_price (put_patch req)) then
          (put_answered (json 400 (error_json "Price must be a positive number"
                                              (Some "INVALID_PRICE"))), db')
        else if not_positive (p_total (put_patch req)) then
          (put_answered (json 400 (error_json "Total must be a positive number"
                                              (Some "INVALID_TOTAL"))), db')
        else (put_proceeds (default "" (put_device_id req)) currentSale, db')
    end.

(** The end of the PUT handler, from the value [logSyncOperation]
    returned: the broadcast and the response. *)
Definition put_respond (device_id : string) (currentSale : sale)
    (updatedSale : option sale) (syncLog : option sync_log_row)
    (clock : Z) (w : world) : outcome :=
  match updatedSale with
  | None => Outcome (mutation_catch type_error) w []
  | Some updatedSale =>
      let broadcastResult :=
        broadcast net (w_clients w)
          (data_sync "UPDATE" "sales" (row_data updatedSale)
             {| m_deviceId := device_id; m_timestamp := clock;
                m_syncLogId := syncLogId syncLog;
                m_version := Some (updated_at updatedSale);
                m_previousVersion := Some (updated_at currentSale);
                m_originalData := None |})
          (Some device_id) in
      let successCount := fst (returned broadcastResult) in
      Outcome (json 200 (sale_json updatedSale (bool_decide (0 < successCount)%nat)
                                   successCount))
              (World (w_db w) (clients_after (completed broadcastResult)))
              (delivered (completed broadcastResult))
  end.

(** The UPDATE of the PUT handler: it answers from its [catch], or goes
    on with [results[0].rows[0]]. *)
Definition put_update (req : put_request) (device_id : string) (e_write : env)
    (db : database) : (response + option sale) * database :=
  match executeTransaction [update_sale (put_id req) (put_patch req) device_id]
          e_write db with
  | (inl error, db1) => (inl (mutation_catch error), db1)
  | (inr [], db1) => (inl (mutation_catch type_error), db1)
  | (inr (rows :: _), db1) => (inr (head rows), db1)
  end.

(** The PUT handler from its call of [logSyncOperation] on. *)
Definition put_log (req : put_request) (device_id : string) (currentSale : sale)
    (updatedSale : option sale) (e_log : env) (clock : Z) (w : world) : outcome :=
  match logSyncOperation device_id "UPDATE" "sales" (Some (put_id req))
          (Some currentSale) updatedSale e_log (w_db w) with
  | (inl error, db2) => Outcome (mutation_catch error) (World db2 (w_clients w)) []
  | (inr syncLog, db2) =>
      put_respond device_id currentSale updatedSale syncLog clock
        (World db2 (w_clients w))
  end.

(** The PUT handler from its UPDATE on. *)
Definition put_write (req : put_request) (device_id : string) (currentSale : sale)
    (e_write e_log : env) (clock : Z) (w : world) : outcome :=
  match put_update req device_id e_write (w_db w) with
  | (inl r, db1) => Outcome r (World db1 (w_clients w)) []
  | (inr updatedSale, db1) =>
      put_log req device_id currentSale updatedSale e_log clock
        (World db1 (w_clients w))
  end.

(** [app.put('/api/sales/:id', ...)] *)
Definition put_sale (req : put_request) (e_read e_write e_log : env)
    (clock : Z) (w : world) : outcome :=
  match put_read req e_read (w_db w) with
  | (put_answered r, db') => Outcome r (World db' (w_clients w)) []
  | (put_proceeds device_id currentSale, db') =>
      put_write req device_id currentSale e_write e_log clock
        (World db' (w_clients w))
  end.

(** [DELETE /api/sales/:id] *)
Record delete_request := DeleteRequest {
  del_id : string;
  del_device_id : option string
}.

(** The end of the DELETE handler, from the value [logSyncOperation]
    returned. *)
Definition delete_respond (req : delete_request) (device_id : string)
    (saleToDelete : sale) (syncLog : option sync_log_row)
    (clock : Z) (w : world) : outcome :=
  let broadcastResult :=
    broadcast net (w_clients w)
      (data_sync "DELETE" "sales"
         (deleted_data (parseInt (del_id req)) device_id clock)
         {| m_deviceId := device_id; m_timestamp := clock;
            m_syncLogId := syncLogId syncLog;
            m_version := None; m_previousVersion := None;
            m_originalData := Some saleToDelete |})
      (Some device_id) in
  let successCount := fst (returned broadcastResult) in
  Outcome (json 200 (deleted_json (parseInt (del_id req)) clock
                       (bool_decide (0 < successCount)%nat) successCount))
          (World (w_db w) (clients_after (completed broadcastResult)))
          (delivered (completed broadcastResult)).

(** [app.delete('/api/sales/:id', ...)] *)
Definition delete_sale (req : delete_request) (e_read e_write e_log : env)
    (clock : Z) (w : world) : outcome :=
  let answer r db := Outcome r (World db (w_clients w)) [] in
  if falsy_string (del_device_id req) then
    answer (json 400 (error_json "device_id is required" (Some "MISSING_DEVICE_ID"))) (w_db w)
  else if bool_decide (del_id req = "") || bool_decide (parseInt (del_id req) = None) then
    answer (json 400 (error_json "Valid sale ID is required" (Some "INVALID_SALE_ID"))) (w_db w)
  else
    let device_id := default "" (del_device_id req) in
    match executeQuery (select_active_sale (del_id req)) e_read (w_db w) with
    | (inl error, db1) => answer (mutation_catch error) db1
    | (inr [], db1) =>
        answer (json 404 (error_json "Sale not found or already deleted"
                                     (Some "SALE_NOT_FOUND"))) db1
    | (inr (saleToDelete :: _), db1) =>
        match executeTransaction [soft_delete_sale (del_id req) device_id] e_write db1 with
        | (inl error, db2) => answer (mutation_catch error) db2
        | (inr [], db2) => answer (mutation_catch type_error) db2
        | (inr (deleted :: _), db2) =>
            if negb deleted then
              answer (json 404 (error_json
                        "Sale could not be deleted - may not exist or already deleted"
                        (Some "DELETE_FAILED"))) db2
            else
              match logSyncOperation device_id "DELETE" "sales" (Some (del_id req))
                      (Some saleToDelete) None e_log db2 with
              | (inl error, db3) => answer (mutation_catch error) db3
              | (inr syncLog, db3) =>
                  delete_respond req device_id saleToDelete syncLog clock
                    (World db3 (w_clients w))
              end
        end
    end.

(** [POST /api/sales]: the fields of [req.body]. *)
Record post_request := PostRequest {
  post_product : option string;
  post_quantity : option Z;
  post_price : option Z;
  post_total : option Z;
  post_customer : option string;
  post_notes : option string;
  post_payment_status : option string;
  post_payment_method : option string;
  post_amount_received : option Z;
  post_device_id : option string
}.

(** The [catch] of the POST handler. *)
Definition post_catch (error : exn) : response :=
  Response (Some (default 500%nat (error_status error)))
           (error_json (error_message error)
              (Some (default "CREATE_SALE_ERROR" (error_code error)))).

(** The end of the POST handler, from the value [logSyncOperation]
    returned. *)
Definition post_respond (device_id : string) (newSale : sale)
    (syncLog : option sync_log_row) (clock : Z) (w : world) : outcome :=
  let broadcastResult :=
    broadcast net (w_clients w)
      (data_sync "CREATE" "sales" (row_data newSale)
         {| m_deviceId := device_id; m_timestamp := clock;
            m_syncLogId := syncLogId syncLog;
            m_version := Some (updated_at newSale);
            m_previousVersion := None; m_originalData := None |})
      (Some device_id) in
  let successCount := fst (returned broadcastResult) in
  Outcome (json 201 (sale_json newSale (bool_decide (0 < successCount)%nat) successCount))
          (World (w_db w) (clients_after (completed broadcastResult)))
          (delivered (completed broadcastResult)).

(** [app.post('/api/sales', ...)] *)
Definition post_sale (req : post_request) (e_register e_write e_log : env)
    (clock : Z) (w : world) : outcome :=
  let answer r db := Outcome r (World db (w_clients w)) [] in
  if negb (truthy_number (post_quantity req)) || negb (truthy_number (post_price req))
     || negb (truthy_number (post_total req)) || falsy_string (post_customer req)
     || falsy_string (post_device_id req) then
    answer (json 400 (error_json
              "Missing required fields: quantity, price, total, customer, device_id"
              (Some "VALIDATION_ERROR"))) (w_db w)
  else if not_positive (post_quantity req) then
    answer (json 400 (error_json "Quantity must be a positive number"
                                 (Some "INVALID_QUANTITY"))) (w_db w)
  else if not_positive (post_price req) then
    answer (json 400 (error_json "Price must be a positive number"
                                 (Some "INVALID_PRICE"))) (w_db w)
  else if not_positive (post_total req) then
    answer (json 400 (error_json "Total must be a positive number"
                                 (Some "INVALID_TOTAL"))) (w_db w)
  else
    let device_id := default "" (post_device_id req) in
    match registerDevice device_id None "unknown" e_register (w_db w) with
    | (inl error, db1) => answer (post_catch error) db1
    | (inr _, db1) =>
        let values :=
          {| n_product := default "Bananas" (post_product req);
             n_quantity := default 0 (post_quantity req);
             n_price := default 0 (post_price req);
             n_total := default 0 (post_total req);
             n_customer := default "" (post_customer req);
             n_notes := default "" (post_notes req);
             n_payment_status := default "pending" (post_payment_status req);
             n_payment_method := default "" (post_payment_method req);
             n_amount_received := default 0 (post_amount_received req);
             n_device_id := device_id |} in
        match executeTransaction [insert_sale values] e_write db1 with
        | (inl error, db2) => answer (post_catch error) db2
        | (inr [], db2) => answer (post_catch type_error) db2
        | (inr (newSale :: _), db2) =>
            match logSyncOperation device_id "CREATE" "sales" (Some (id newSale))
                    None (Some newSale) e_log db2 with
            | (inl error, db3) => answer (post_catch error) db3
            | (inr syncLog, db3) =>
                post_respond device_id newSale syncLog clock (World db3 (w_clients w))
            end
        end
    end.

(** [app.post('/api/conflicts/:id/resolve', ...)] *)
Definition resolve_conflict (conflict_id : string) (strategy : option string)
    (e : env) (db : database) : response * database :=
  if bool_decide (default "last_write_wins" strategy = "last_write_wins") then
    match pool_query (resolve_conflict_last_write_wins conflict_id) e db with
    | (inr true, db') => (json 200 resolved_json, db')
    | (inr false, db') => (json 404 (error_json "Conflict not found" None), db')
    | (inl error, db') => (json 500 (error_json (error_message error) None), db')
    end
  else (json 400 (error_json "Unsupported resolution strategy" None), db).

End Handlers.

(** *** The real-time channel *)

Section Channel.
Variable net : transport.

(** A message received on a socket, after [JSON.parse] and the read of
    [data.type]. *)
Inductive ws_message :=
| malformed
| register_device_msg (deviceId deviceName deviceType : option string)
| ping_msg
| get_stats_msg
| unknown_msg (type : option string).

(** What the server sends back on the socket of the message. *)
Inductive reply :=
| rate_limit_exceeded (resetTime : option Z) (violations : option nat)
| device_registered (deviceId : string) (timestamp : Z)
| pong (timestamp : Z)
| stats_response (total withDeviceId : nat) (byDevice : gmap string nat) (timestamp : Z)
| error_reply (code message : string) (timestamp : Z).

Record server := ServerState {
  s_limiter : gmap string RateLimiter.client;
  s_clients : registry;
  s_db : database
}.

(** [a || b] on strings. *)
Definition or_string (a : option string) (b : string) : string :=
  match a with
  | Some s => if bool_decide (s = "") then b else s
  | None => b
  end.

(** [WebSocketManager.getClientStats()] *)
Definition getClientStats (clients : registry) : nat * nat * gmap string nat :=
  fold_left
    (λ stats entry,
       let '(total, withDeviceId, byDevice) := stats in
       if falsy_string (deviceId entry.2) then stats
       else
         let d := default "" (deviceId entry.2) in
         (total, S withDeviceId, <[d := S (default 0%nat (byDevice !! d))]> byDevice))
    clients (length clients, 0%nat, ∅).

(** The [catch] of the message handler. *)
Definition message_catch (ws : socket) (error : exn) (clock : Z) : list reply :=
  if bool_decide (readyState net ws = OPEN)
  then [error_reply "MESSAGE_PROCESSING_ERROR" (error_message error) clock]
  else [].

(** The [switch (data.type)] of the message handler. *)
Definition dispatch (ws : socket) (clock : Z) (e : env) (data : ws_message)
    (st : server) : server * list reply * list (socket * clientInfo * event) :=
  match data with
  | malformed => (st, message_catch ws (js_error "Invalid JSON message") clock, [])
  | register_device_msg dev deviceName deviceType =>
      if falsy_string dev then
        (st, message_catch ws (js_error "Device ID is required for registration") clock, [])
      else
        let dev := default "" dev in
        match registerDevice dev deviceName (default "unknown" deviceType) e (s_db st) with
        | (inl dbError, db') =>
            (ServerState (s_limiter st) (s_clients st) db',
             message_catch ws
               (js_error ("Device registration failed: " +:+ error_message dbError)) clock,
             [])
        | (inr _, db') =>
            let clients1 := updateClientDevice ws dev (s_clients st) in
            let broadcastResult :=
              broadcast net clients1 (device_connected dev deviceName clock) (Some dev) in
            (ServerState (s_limiter st) (clients_after (completed broadcastResult)) db',
             [device_registered dev clock],
             delivered (completed broadcastResult))
        end
  | ping_msg => (st, [pong clock], [])
  | get_stats_msg =>
      let '(total, withDeviceId, byDevice) := getClientStats (s_clients st) in
      (st, [stats_response total withDeviceId byDevice clock], [])
  | unknown_msg type =>
      (st, [error_reply "UNKNOWN_MESSAGE_TYPE"
              ("Unknown message type: " +:+ default "undefined" type) clock], [])
  end.

(** [ws.on('message', ...)]: [ws_deviceId] is the property [ws.deviceId]
    of the socket, [clientId] the identifier computed when the connection
    was accepted. *)
Definition on_message (ws : socket) (ws_deviceId : option string) (clientId : string)
    (clock : Z) (e : env) (data : ws_message) (st : server)
  : server * list reply * list (socket * clientInfo * event) :=
  let clients1 := markClientAlive ws clock (s_clients st) in
  let deviceId := or_string ws_deviceId clientId in
  let '(rateLimitResult, limiter1) :=
    RateLimiter.isAllowed (s_limiter st) deviceId "websocket_message" clock in
  let st1 := ServerState limiter1 clients1 (s_db st) in
  if negb (RateLimiter.allowed rateLimitResult) then
    (st1, [rate_limit_exceeded (RateLimiter.resetTime rateLimitResult)
                               (RateLimiter.violations_reported rateLimitResult)], [])
  else dispatch ws clock e data st1.


End Channel.

(** *** Handlers interleaved by the event loop *)

Section Interleaving.
Variable net : transport.

(** A PUT request in flight: not started; suspended at the [await] of
    its UPDATE, with the row its SELECT returned; suspended at the
    [await] of [logSyncOperation], with the row its UPDATE returned; or
    answered. *)
Inductive put_task :=
| put_pending (req : put_request)
| put_suspended (req : put_request) (device_id : string) (currentSale : sale)
| put_logging (req : put_request) (device_id : string) (currentSale : sale)
    (updatedSale : option sale)
| put_finished (r : response).

(** What one turn of the event loop reads from outside: the surroundings
    of the store call it makes, and the clock. *)
Record turn := Turn {
  t_env : env;
  t_clock : Z
}.

(** One turn of a PUT request: through its next store call, up to the
    [await] after it. *)
Definition put_step (t : put_task) (k : turn) (w : world) : put_task * world :=
  match t with
  | put_pending req =>
      match put_read req (t_env k) (w_db w) with
      | (put_answered r, db') => (put_finished r, World db' (w_clients w))
      | (put_proceeds device_id currentSale, db') =>
          (put_suspended req device_id currentSale, World db' (w_clients w))
      end
  | put_suspended req device_id currentSale =>
      match put_update req device_id (t_env k) (w_db w) with
      | (inl r, db') => (put_finished r, World db' (w_clients w))
      | (inr updatedSale, db') =>
          (put_logging req device_id currentSale updatedSale, World db' (w_clients w))
      end
  | put_logging req device_id currentSale updatedSale =>
      let o := put_log net req device_id currentSale updatedSale (t_env k)
                 (t_clock k) w in
      (put_finished (o_response o), o_world o)
  | put_finished r => (t, w)
  end.

(** Two PUT requests, [true] scheduling the first and [false] the second. *)
Fixpoint interleave (schedule : list (bool * turn)) (a b : put_task) (w : world)
  : put_task * put_task * world :=
  match schedule with
  | [] => (a, b, w)
  | (true, k) :: rest =>
      let '(a', w') := put_step a k w in interleave rest a' b w'
  | (false, k) :: rest =>
      let '(b', w') := put_step b k w in interleave rest a b' w'
  end.

End Interleaving.

(** *** The life of a connection *)

Section Lifecycle.
Variable net : transport.

(** [ws.on('close', ...)]: peers are told when the closing connection
    is still in the registry and bound to a device. *)
Definition on_close (ws : socket) (clock : Z) (clients : registry)
  : registry * list (socket * clientInfo * event) :=
  match map_get ws clients with
  | Some info =>
      if falsy_string (deviceId info) then (removeClient ws clients, [])
      else
        let broadcastResult :=
          broadcast net clients
            (device_disconnected (default "" (deviceId info)) clock)
            (deviceId info) in
        (removeClient ws (clients_after (completed broadcastResult)),
         delivered (completed broadcastResult))
  | None => (removeClient ws clients, [])
  end.

(** [ws.on('error', ...)] *)
Definition on_error (ws : socket) (clients : registry) : registry :=
  removeClient ws clients.

(** [ws.on('pong', ...)] *)
Definition on_pong (ws : socket) (clock : Z) (clients : registry) : registry :=
  markClientAlive ws clock clients.

End Lifecycle.

(** *** The heartbeat of one connection *)

(** What acts on the registry while one connection is watched: the two
    timers of the server, each with the state of the network when it
    fires, and what the connection itself sends.  Both timers have a
    period of 30 s and the sweep is set first, so at each tick the sweep
    runs before the ping. *)
Inductive happening :=
| sweep_timer (net : transport) (now : Z)
| ping_timer (net : transport)
| message_received (net : transport) (clock : Z) (e : env) (data : ws_message)
| pong_received (clock : Z).

Section Heartbeat.
Variables (ws : socket) (ws_deviceId : option string) (clientId : string).

Definition happen (st : server) (h : happening) : server :=
  match h with
  | sweep_timer net now =>
      ServerState (s_limiter st) (cleanupDeadConnections net now (s_clients st)).1 (s_db st)
  | ping_timer net =>
      ServerState (s_limiter st) (ping_clients net (s_clients st)).1 (s_db st)
  | message_received net clock e data =>
      (on_message net ws ws_deviceId clientId clock e data st).1.1
  | pong_received clock =>
      ServerState (s_limiter st) (on_pong ws clock (s_clients st)) (s_db st)
  end.

Definition happened (history : list happening) (st : server) : server :=
  fold_left happen history st.

(** Whether every sweep of the history finds a sign of life of the
    connection: a message or a pong received since the last ping sent to
    it, and no more than 60 s old.  [seen] is the instant of the last
    sign of life, [None] when a ping has been sent since. *)
Fixpoint shows_life (seen : option Z) (history : list happening) : bool :=
  match history with
  | [] => true
  | sweep_timer _ now :: history =>
      match seen with
      | Some clock => bool_decide (now - clock ≤ 60000) && shows_life seen history
      | None => false
      end
  | ping_timer net :: history =>
      shows_life (if bool_decide (readyState net ws = OPEN) then None else seen) history
  | message_received _ clock _ _ :: history | pong_received clock :: history =>
      shows_life (Some clock) history
  end.

End Heartbeat.

(** The last sign of life recorded in an entry of the registry. *)
Definition last_seen (info : clientInfo) : option Z :=
  if isAlive info then Some (lastPing info) else None.

(** *** Marking sales as synced *)

Inductive mark_synced_response :=
| synced_400
| synced_count (n : nat)
| synced_500 (error : string).

Section Sync.
(** Whether PostgreSQL reads the text as a [uuid]; the cast
    [$1::uuid[]] fails with SQLSTATE 22P02 otherwise. *)
Variable uuid_in : string → bool.

(** [app.post('/api/sync/mark-synced', ...)]; [None] is a [sale_ids]
    that is not an array. *)
Definition mark_synced_handler (sale_ids : option (list string)) (e : env)
    (db : database) : mark_synced_response * database :=
  match sale_ids with
  | None | Some [] => (synced_400, db)
  | Some ids =>
      match pool_query
              (λ e db, if forallb uuid_in ids then mark_synced ids e db
                       else inl "22P02") e db with
      | (inr rows, db') => (synced_count (length rows), db')
      | (inl error, db') => (synced_500 (error_message error), db')
      end
  end.

End Sync.

(** [metadata.syncLogId] of an event, for the events that have it. *)
Definition event_syncLogId (ev : event) : option string :=
  match ev with
  | data_sync _ _ _ m => m_syncLogId m
  | device_connected _ _ _ | device_disconnected _ _ => None
  end.

(** *** Polling for pending changes *)

(** The view [pending_sync], the order of its rows put aside. *)
Definition pending_sync (db : database) : gmap string sale :=
  filter (λ kr, sync_status kr.2 = pending) (sales db).

(** [SELECT * FROM pending_sync], or
    [SELECT * FROM pending_sync WHERE device_id != $1] when the request
    names a device. *)
Definition select_pending (device_id : option string) : query (gmap string sale) :=
  λ e db,
    inr (if falsy_string device_id then pending_sync db
         else filter (λ kr, Store.device_id kr.2 ≠ default "" device_id)
                (pending_sync db),
         db).

(** [app.get('/api/sync/pending', ...)]: the rows of the answer, or the
    message of the error answered with status 500. *)
Definition get_pending (device_id : option string) (e : env) (db : database)
  : string + gmap string sale :=
  match pool_query (select_pending device_id) e db with
  | (inr rows, _) => inr rows
  | (inl error, _) => inl (error_message error)
  end.

(** *** Admission of API requests *)

(** The rate-limiting step of the middleware, keyed by the address of
    the client and [req.path]: [None] passes the request on to its
    handler, [Some] is the 429 answer with its [resetTime] and
    [violations]. *)
Definition admission (clientIP path : string) (now : Z)
    (limiter : gmap string RateLimiter.client)
  : option (option Z * option nat) * gmap string RateLimiter.client :=
  let r := RateLimiter.isAllowed limiter clientIP path now in
  (if RateLimiter.allowed r.1 then None
   else Some (RateLimiter.resetTime r.1, RateLimiter.violations_reported r.1),
   r.2).

(** The requests of one client, each with its path and its time. *)
Fixpoint admissions (clientIP : string) (reqs : list (string * Z))
    (limiter : gmap string RateLimiter.client)
  : list (option (option Z * option nat)) :=
  match reqs with
  | [] => []
  | (path, now) :: rest =>
      let r := admission clientIP path now limiter in
      r.1 :: admissions clientIP rest r.2
  end.

End Server.


(** ** Request metrics (server.js, PerformanceMonitor) *)

Module PerformanceMonitor.

Record request_counters := RequestCounters {
  total : nat;
  success : nat;
  errors : nat
}.

(** [metrics.requests] and [metrics.response_times]. *)
Record metrics := Metrics {
  requests : request_counters;
  response_times : list Z
}.

Definition initial : metrics := Metrics (RequestCounters 0 0 0) [].

(** [recordRequest(success, responseTime)] *)
Definition recordRequest (ok : bool) (responseTime : Z) (m : metrics) : metrics :=
  let r := requests m in
  Metrics
    (RequestCounters (S (total r))
       (if ok then S (success r) else success r)
       (if ok then errors r else S (errors r)))
    (if bool_decide (0 < responseTime) then
       let pushed := response_times m ++ [responseTime] in
       if bool_decide (1000 < length pushed)%nat then tail pushed else pushed
     else response_times m).

(** The monitor after the calls of [calls], the earliest first. *)
Definition recorded (calls : list (bool * Z)) : metrics :=
  fold_left (λ m call, recordRequest call.1 call.2 m) calls initial.

End PerformanceMonitor.


(** ** Concrete scenarios *)

Module Scenarios.
Import Store WebSocketManager Server.

(** A client that has just made ten requests. *)
Definition busy_clients : gmap string RateLimiter.client :=
  {[ RateLimiter.clientKey "dev-1" "websocket_message" :=
       RateLimiter.Client (replicate 10 0) 0 0 ]}.

(** A store call with nothing failing: the transaction time and the
    identifier [uuid_generate_v4()] returns. *)
Definition at_time (t : Z) (uuid : string) : env := Env t uuid true None.

(** A sale created by device A and not modified since. *)
Definition fresh_sale : sale :=
  {| id := "1b4e28ba-2fa1-11d2-883f-0016d3cca427";
     product := "Bananas"; quantity := 500; price := 299; total := 1495;
     customer := "Ana"; notes := ""; payment_status := "pending";
     payment_method := ""; amount_received := 0;
     created_at := 1000; updated_at := 1000; version := 1;
     device_id := "device-A"; user_id := "anonymous";
     deleted_at := None; is_deleted := false; last_sync_at := None;
     sync_status := pending |}.

Definition two_devices : gmap string device_row :=
  {[ "device-A" := DeviceRow None "unknown" 1000 true;
     "device-B" := DeviceRow None "unknown" 1000 true ]}.

(** The store holding that sale only. *)
Definition fresh_db : database :=
  {| sales := {[ id fresh_sale := fresh_sale ]};
     conflicts := ∅; sync_log := []; devices := two_devices |}.

Definition no_patch : patch :=
  Patch None None None None None None None None None.

Definition rename_customer (name : string) : patch :=
  Patch None None None None (Some name) None None None None.

(** No socket is open. *)
Definition offline : transport := Transport (λ _, CLOSED) (λ _, false).

(** Device B, having read the sale at version 1, changes its customer. *)
Definition put_by_B : put_request :=
  PutRequest (id fresh_sale) (rename_customer "Bo") (Some "device-B") (Some 1).

(** Device A does the same, from the same version. *)
Definition put_by_A : put_request :=
  PutRequest (id fresh_sale) (rename_customer "Al") (Some "device-A") (Some 1).

(** An update that names version 0, one less than the version of the
    fresh sale. *)
Definition put_version_zero : put_request :=
  PutRequest (id fresh_sale) (rename_customer "Bo") (Some "device-A") (Some 0).

Definition uuid_1 : string := "00000000-0000-4000-8000-000000000001".
Definition uuid_2 : string := "00000000-0000-4000-8000-000000000002".
Definition uuid_3 : string := "00000000-0000-4000-8000-000000000003".
Definition uuid_4 : string := "00000000-0000-4000-8000-000000000004".
Definition uuid_5 : string := "00000000-0000-4000-8000-000000000005".
Definition uuid_6 : string := "00000000-0000-4000-8000-000000000006".

(** Device B's update, handled alone on the fresh store. *)
Definition after_put_by_B : outcome :=
  put_sale offline put_by_B (at_time 2000 uuid_1) (at_time 2001 uuid_2)
    (at_time 2002 uuid_3) 2003 (World fresh_db []).

(** The store it leaves: the sale at version 2 and the conflict the
    trigger recorded under [uuid_2]. *)
Definition conflicted_db : database := w_db (o_world after_put_by_B).

(** Six turns of the event loop, at successive instants. *)
Definition turn_1 : turn := Turn (at_time 2000 uuid_1) 2000.
Definition turn_2 : turn := Turn (at_time 2001 uuid_2) 2001.
Definition turn_3 : turn := Turn (at_time 2002 uuid_3) 2002.
Definition turn_4 : turn := Turn (at_time 2003 uuid_4) 2003.
Definition turn_5 : turn := Turn (at_time 2004 uuid_5) 2004.
Definition turn_6 : turn := Turn (at_time 2005 uuid_6) 2005.

(** Both requests read before either writes. *)
Definition racing : list (bool * turn) :=
  [(true, turn_1); (false, turn_2); (true, turn_3); (false, turn_4);
   (true, turn_5); (false, turn_6)].

(** The first request is answered before the second starts. *)
Definition one_after_the_other : list (bool * turn) :=
  [(true, turn_1); (true, turn_2); (true, turn_3);
   (false, turn_4); (false, turn_5); (false, turn_6)].

(** Every socket is open and accepts what is sent. *)
Definition online : transport := Transport (λ _, OPEN) (λ _, false).

(** Three connections: one bound to device A, one to device B, one not
    yet registered. *)
Definition three_clients : registry :=
  [ (1%nat, ClientInfo (Some "device-A") 0 0 true);
    (2%nat, ClientInfo (Some "device-B") 0 0 true);
    (3%nat, ClientInfo None 0 0 true) ].

(** A sale whose identifier begins with a letter. *)
Definition lettered_sale : sale :=
  {| id := "a3bb189e-8bf9-3888-9912-ace4e6543002";
     product := "Bananas"; quantity := 100; price := 299; total := 299;
     customer := "Cy"; notes := ""; payment_status := "pending";
     payment_method := ""; amount_received := 0;
     created_at := 1000; updated_at := 1500; version := 2;
     device_id := "device-A"; user_id := "anonymous";
     deleted_at := None; is_deleted := false; last_sync_at := None;
     sync_status := pending |}.

Definition lettered_db : database :=
  {| sales := {[ id lettered_sale := lettered_sale ]};
     conflicts := ∅; sync_log := []; devices := two_devices |}.

(** Device A deletes the sale. *)
Definition delete_by_A : delete_request :=
  DeleteRequest (id fresh_sale) (Some "device-A").

(** Eleven pings, 50 ms apart. *)
Definition eleven_pings : list (Z * ws_message) :=
  (λ i, (50 * Z.of_nat i, ping_msg)) <$> seq 0 11.

(** A server nobody has talked to yet. *)
Definition idle_server : server :=
  ServerState ∅ [] fresh_db.

(** The row B's UPDATE proposed, as [detect_conflicts] saw it. *)
Definition proposed_by_B : sale :=
  put_set_clause (rename_customer "Bo") "device-B" (at_time 2001 uuid_2) fresh_sale.

(** The sale as that UPDATE left it. *)
Definition sale_after_B : sale :=
  update_updated_at_column (at_time 2001 uuid_2) fresh_sale
    (set_sync_status conflict proposed_by_B).

(** The conflict the trigger recorded. *)
Definition recorded_conflict : conflict_row :=
  {| c_id := uuid_2; c_table_name := "sales"; c_record_id := id fresh_sale;
     device_id_1 := "device-A"; device_id_2 := "device-B";
     data_1 := fresh_sale; data_2 := proposed_by_B;
     resolution_data := None; resolution_strategy := None;
     resolved_at := None; is_resolved := false; c_created_at := 2001;
     zone_1 := 0; zone_2 := 0 |}.

(** Three connections at the time of a sweep: one heard of 20 seconds
    before, one that has not answered the last ping, one silent for 70
    seconds. *)
Definition heartbeat_clients : registry :=
  [ (1%nat, ClientInfo (Some "device-A") 0 50000 true);
    (2%nat, ClientInfo (Some "device-B") 0 69000 false);
    (3%nat, ClientInfo None 0 0 true) ].

(** Socket 3 is closed, and sending on socket 2 raises. *)
Definition flaky : transport :=
  Transport (λ ws, if bool_decide (ws = 3%nat) then CLOSED else OPEN)
            (λ ws, bool_decide (ws = 2%nat)).

(** A server with the three connections of [three_clients]. *)
Definition busy_server : server := ServerState ∅ three_clients fresh_db.

(** A handler that raised while answering. *)
Definition handler_rejected : response := Response None rejected.

(** The store is shutting down. *)
Definition shutting_down (t : Z) (uuid : string) : env := Env t uuid true (Some "57P01").

(** Device C records a sale of two bunches to Cleo. *)
Definition post_by_C : post_request :=
  PostRequest None (Some 200) (Some 150) (Some 300) (Some "Cleo") None None None None
    (Some "device-C").

(** New York in the autumn of 2024: the clocks go back from UTC-4 to
    UTC-5 on 3 November at 06:00 UTC. *)
Definition new_york : Z → Z :=
  λ t, if bool_decide (t < 1730613600000) then -14400000 else -18000000.

Definition in_new_york (t : Z) (uuid : string) : env :=
  Session t uuid true None new_york.

(** A sale device A wrote at 05:30 UTC that night, 01:30 local time. *)
Definition autumn_sale : sale :=
  {| id := "2c5ea4c0-4067-11e9-8bad-9b1deb4d3b7d";
     product := "Bananas"; quantity := 500; price := 299; total := 1495;
     customer := "Ana"; notes := ""; payment_status := "pending";
     payment_method := ""; amount_received := 0;
     created_at := 1730611800000; updated_at := 1730611800000; version := 1;
     device_id := "device-A"; user_id := "anonymous";
     deleted_at := None; is_deleted := false; last_sync_at := None;
     sync_status := pending |}.

Definition autumn_db : database :=
  {| sales := {[ id autumn_sale := autumn_sale ]};
     conflicts := ∅; sync_log := []; devices := two_devices |}.

(** Device B, having read the sale at version 1, changes its customer. *)
Definition put_in_autumn : put_request :=
  PutRequest (id autumn_sale) (rename_customer "Bo") (Some "device-B") (Some 1).




(** A connection that answers the pings, and one that sent a message and
    then keeps silent: the timers fire every 30 s, the sweep first. *)
Definition answering : list happening :=
  [ message_received online 10000 (at_time 10000 uuid_1) ping_msg;
    sweep_timer online 30000; ping_timer online; pong_received 30020;
    sweep_timer online 60000; ping_timer online; pong_received 60020;
    sweep_timer online 90000; ping_timer online ].

Definition silent_after_a_message : list happening :=
  [ message_received online 10000 (at_time 10000 uuid_1) ping_msg;
    sweep_timer online 30000; ping_timer online;
    sweep_timer online 60000 ].

End Scenarios.


(** * Properties *)

(** ** RateLimiter *)

Module RateLimiterProps.
Import RateLimiter Scenarios.


(** Pruning with a later bound absorbs an earlier pruning. *)
Lemma newer_than_absorb b1 b2 l :
  b1 ≤ b2 → newer_than b2 (newer_than b1 l) = newer_than b2 l.
Proof.
  intros Hb. unfold newer_than. apply list_filter_filter_l.
  intros x Hx. lia.
Qed.


Lemma newer_than_none b l : Forall (λ x, x ≤ b) l → newer_than b l = [].
Proof.
  induction 1 as [|x l Hx _ IH]; [done|].
  unfold newer_than in *. rewrite filter_cons_False by lia. done.
Qed.

Lemma newer_than_nil_Forall b l : newer_than b l = [] → Forall (λ x, x ≤ b) l.
Proof.
  intros Hnil. apply Forall_forall. intros x Hx.
  destruct (decide (b < x)) as [Hlt|]; [|lia].
  exfalso. eapply (filter_nil_not_elem_of (λ time, b < time)); eauto.
Qed.

Lemma newer_than_Forall_le b b' l :
  Forall (λ x, x ≤ b') l → Forall (λ x, x ≤ b') (newer_than b l).
Proof.
  intros H. apply Forall_forall. intros x Hx.
  apply list_elem_of_filter in Hx as [_ Hx].
  rewrite Forall_forall in H. auto.
Qed.


(** The decision of [isAllowed] depends on the window only through its
    pruning at the time of the call. *)
Lemma isAllowed_lookup_Some clients clientId endpoint now c :
  clients !! clientKey clientId endpoint = Some c →
  let reqs := newer_than (now - 60000) (requests c) in
  let recent := newer_than (now - 1000) reqs in
  isAllowed clients clientId endpoint now =
    if bool_decide (maxRequestsPerMinute ≤ Z.of_nat (length reqs)) then
      (Decision false 0 (Some (now - 60000 + 60000)) (Some (S (violations c))),
       <[clientKey clientId endpoint := Client reqs (lastReset c) (S (violations c))]> clients)
    else if bool_decide (maxRequestsPerSecond ≤ Z.of_nat (length recent)) then
      (Decision false (maxRequestsPerMinute - Z.of_nat (length reqs))
                (Some (now - 1000 + 1000)) (Some (S (violations c))),
       <[clientKey clientId endpoint := Client reqs (lastReset c) (S (violations c))]> clients)
    else
      (Decision true (maxRequestsPerMinute - Z.of_nat (length (reqs ++ [now])))
                None (Some (violations c)),
       <[clientKey clientId endpoint := Client (reqs ++ [now]) (lastReset c) (violations c)]> clients).
Proof. intros Hc. unfold isAllowed. rewrite Hc. reflexivity. Qed.

(** C10.  A rejected admission check records no instant: when [isAllowed]
    answers [allowed = false] the client's entry existed, its window
    afterwards is the old window pruned at the time of the call (the
    instant of the rejected call is not added), [lastReset] is kept, the
    violation counter grows by one and no other key changes; and every
    later check is decided as if the rejected call had never been
    made, so rejected calls do not prolong the time the client is
    refused. *)
Theorem rejected_check_consumes_no_quota
    (clients clients' : gmap string client) (clientId endpoint : string)
    (now : Z) (d : decision) :
  isAllowed clients clientId endpoint now = (d, clients') →
  allowed d = false →
  ∃ c,
    clients !! clientKey clientId endpoint = Some c
    ∧ clients' =
        <[clientKey clientId endpoint :=
            Client (newer_than (now - 60000) (requests c)) (lastReset c)
                   (S (violations c))]> clients
    ∧ ∀ later, now ≤ later →
        let after_reject := isAllowed clients' clientId endpoint later in
        let without := isAllowed clients clientId endpoint later in
        allowed after_reject.1 = allowed without.1
        ∧ remaining after_reject.1 = remaining without.1
        ∧ resetTime after_reject.1 = resetTime without.1
        ∧ requests <$> (after_reject.2 !! clientKey clientId endpoint)
          = requests <$> (without.2 !! clientKey clientId endpoint).
Proof.
  intros Hrun Hrej.
  destruct (clients !! clientKey clientId endpoint) as [c|] eqn:Hc.
  2:{ unfold isAllowed in Hrun. rewrite Hc in Hrun.
      inversion Hrun; subst. discriminate. }
  exists c. split; [done|].
  assert (clients' =
    <[clientKey clientId endpoint :=
        Client (newer_than (now - 60000) (requests c)) (lastReset c)
               (S (violations c))]> clients) as ->.
  { rewrite (isAllowed_lookup_Some _ _ _ _ _ Hc) in Hrun. cbv zeta in Hrun.
    repeat case_bool_decide; inversion Hrun; subst; try done. }
  split; [done|].
  intros later Hlater. cbv zeta.
  rewrite (isAllowed_lookup_Some clients _ _ later c Hc).
  erewrite (isAllowed_lookup_Some (<[_ := _]> clients) _ _ later);
    [|apply lookup_insert_eq].
  cbn [requests lastReset violations]. cbv zeta.
  rewrite (newer_than_absorb (now - 60000) (later - 60000)) by lia.
  repeat case_bool_decide; cbn [fst snd allowed remaining resetTime];
    rewrite ?lookup_insert_eq; done.
Qed.

Lemma rejected_check_consumes_no_quota_witness :
  allowed (isAllowed busy_clients "dev-1" "websocket_message" 5).1 = false
  ∧ ∃ c,
      busy_clients !! clientKey "dev-1" "websocket_message" = Some c
      ∧ (isAllowed busy_clients "dev-1" "websocket_message" 5).2 =
          <[clientKey "dev-1" "websocket_message" :=
              Client (newer_than (5 - 60000) (requests c)) (lastReset c)
                     (S (violations c))]> busy_clients.
Proof.
  split; [vm_compute; reflexivity|].
  destruct (rejected_check_consumes_no_quota busy_clients
              (isAllowed busy_clients "dev-1" "websocket_message" 5).2
              "dev-1" "websocket_message" 5
              (isAllowed busy_clients "dev-1" "websocket_message" 5).1)
    as (c & Hc & Hst & _).
  - symmetry. apply surjective_pairing.
  - vm_compute. reflexivity.
  - exists c. split; assumption.
Defined.

(** *** A burst within one second *)





Lemma run_cons clients clientId endpoint t ts :
  run clients clientId endpoint (t :: ts) =
    ((isAllowed clients clientId endpoint t).1
       :: (run (isAllowed clients clientId endpoint t).2 clientId endpoint ts).1,
     (run (isAllowed clients clientId endpoint t).2 clientId endpoint ts).2).
Proof.
  simpl. destruct (isAllowed clients clientId endpoint t) as [d clients'].
  simpl. by destruct (run clients' clientId endpoint ts).
Qed.



End RateLimiterProps.

(** ** Broadcast *)

Module BroadcastProps.
Import WebSocketManager.

Section Fanout.
Context {message : Type}.
Variable net : transport.
Variable data : message.
Variable excludeDeviceId : option string.

(** The batches cover the array, in order. *)
Lemma concat_batches_take (l : registry) (m : nat) :
  concat (map (λ j, take batchSize (drop (j * batchSize) l)) (seq 0 m))
  = take (m * batchSize) l.
Proof.
  induction m as [|m IH]; [done|].
  rewrite seq_S, map_app, concat_app, IH. cbn [map concat Nat.add].
  rewrite app_nil_r, take_take_drop. f_equal. unfold batchSize. lia.
Qed.

Lemma concat_batches (l : registry) : concat (batches l) = l.
Proof.
  unfold batches. rewrite concat_batches_take. apply take_ge.
  unfold batchSize.
  pose proof (Nat.div_mod_eq (length l + 50 - 1) 50).
  pose proof (Nat.mod_upper_bound (length l + 50 - 1) 50).
  lia.
Qed.

Lemma fold_sendBatch_concat (bs : list registry) (st : fanout) :
  fold_left (sendBatch net data excludeDeviceId) bs st
  = fold_left (send_one net data excludeDeviceId) (concat bs) st.
Proof.
  revert st. induction bs as [|b bs IH]; intros st; [done|].
  simpl. rewrite fold_left_app. apply IH.
Qed.

(** Batching does not change what is sent: the completed fan-out is one
    pass over the registry. *)
Lemma broadcast_completed (clients : registry) :
  completed (broadcast net clients data excludeDeviceId)
  = fold_left (send_one net data excludeDeviceId) clients (Fanout 0 0 clients [] []).
Proof.
  rewrite <- (concat_batches clients) at 2.
  rewrite <- fold_sendBatch_concat.
  unfold broadcast. by destruct (batches clients).
Qed.

Lemma send_one_cases (st : fanout) (entry : socket * clientInfo) :
  (accepted net excludeDeviceId entry
   ∧ send_one net data excludeDeviceId st entry
     = Fanout (S (successCount st)) (failureCount st) (clients_after st)
              (delivered st ++ [(entry.1, entry.2, data)]) (failed st))
  ∨ (refused net excludeDeviceId entry
     ∧ send_one net data excludeDeviceId st entry
       = Fanout (successCount st) (S (failureCount st))
                (removeClient entry.1 (clients_after st))
                (delivered st) (failed st ++ [entry]))
  ∨ (¬ eligible net excludeDeviceId entry
     ∧ send_one net data excludeDeviceId st entry = st).
Proof.
  destruct entry as [ws info]. unfold send_one, accepted, refused, eligible.
  cbn [fst snd].
  destruct (decide (readyState net ws = OPEN)) as [Hopen|Hopen].
  2:{ right; right. rewrite (bool_decide_eq_false_2 _ Hopen).
      split; [by intros [? _]|done]. }
  destruct (decide (deviceId info = excludeDeviceId)) as [Hdev|Hdev].
  { right; right. rewrite (bool_decide_eq_true_2 _ Hopen).
    rewrite (bool_decide_eq_false_2 (deviceId info ≠ excludeDeviceId)) by (by intros H).
    split; [by intros [_ ?]|done]. }
  rewrite (bool_decide_eq_true_2 _ Hopen), (bool_decide_eq_true_2 _ Hdev).
  cbn [andb]. destruct (send_throws net ws).
  - right; left. done.
  - left. done.
Qed.

(** What one pass over [l] hands to the transport. *)
Lemma fold_send_one (l : registry) (st : fanout) :
  let st' := fold_left (send_one net data excludeDeviceId) l st in
  delivered st'
  = delivered st
    ++ ((λ e, (e.1, e.2, data)) <$> filter (accepted net excludeDeviceId) l)
  ∧ failed st' = failed st ++ filter (refused net excludeDeviceId) l
  ∧ successCount st'
    = (successCount st + length (filter (accepted net excludeDeviceId) l))%nat
  ∧ failureCount st'
    = (failureCount st + length (filter (refused net excludeDeviceId) l))%nat.
Proof.
  revert st. induction l as [|e l IH]; intros st; cbv zeta.
  { simpl. rewrite !app_nil_r. split_and!; done || lia. }
  simpl fold_left.
  destruct (IH (send_one net data excludeDeviceId st e)) as (Hd & Hf & Hs & Hc).
  rewrite Hd, Hf, Hs, Hc. clear IH Hd Hf Hs Hc.
  destruct (send_one_cases st e) as [[Ha ->]|[[Hr ->]|[Hn ->]]];
    cbn [delivered failed successCount failureCount].
  - assert (¬ refused net excludeDeviceId e)
      by (intros [_ Hr]; destruct Ha as [_ Ha]; congruence).
    rewrite (filter_cons_True (accepted net excludeDeviceId)),
      (filter_cons_False (refused net excludeDeviceId)) by done.
    rewrite fmap_cons, <- !app_assoc. simpl. split_and!; done || lia.
  - assert (¬ accepted net excludeDeviceId e)
      by (intros [_ Ha]; destruct Hr as [_ Hr]; congruence).
    rewrite (filter_cons_False (accepted net excludeDeviceId)),
      (filter_cons_True (refused net excludeDeviceId)) by done.
    rewrite <- !app_assoc. simpl. split_and!; done || lia.
  - rewrite (filter_cons_False (accepted net excludeDeviceId)),
      (filter_cons_False (refused net excludeDeviceId))
      by (by intros [? _]).
    done.
Qed.

End Fanout.

(** *** Batches sent at their own moments *)

Section Interleaved.
Context {message : Type}.
Variable moments : nat → moment.
Variable data : message.
Variable excludeDeviceId : option string.

Lemma elem_of_concat {A} (x : A) (ls : list (list A)) :
  x ∈ concat ls ↔ ∃ i l, ls !! i = Some l ∧ x ∈ l.
Proof.
  induction ls as [|l ls IH]; simpl.
  { split; [by intros ?%elem_of_nil|by intros (i & l & ? & _)]. }
  rewrite elem_of_app, IH. split.
  - intros [Hx|(i & l' & Hi & Hx)]; [by exists 0%nat, l|by exists (S i), l'].
  - intros ([|i] & l' & Hi & Hx); simpl in Hi; [left; congruence|right; eauto].
Qed.

Lemma sendBatch_at j b st :
  let st' := sendBatch (m_net (moments j)) data excludeDeviceId st (seen (moments j) b) in
  (∀ x, x ∈ delivered st' ↔ x ∈ delivered st ∨ sent_at moments data excludeDeviceId j b x)
  ∧ (∀ x, x ∈ failed st' ↔ x ∈ failed st ∨ failed_at moments excludeDeviceId j b x).
Proof.
  cbv zeta. unfold sendBatch.
  destruct (fold_send_one (m_net (moments j)) data excludeDeviceId
              (seen (moments j) b) st) as (Hd & Hf & _ & _).
  rewrite Hd, Hf. unfold sent_at, failed_at, seen. split; intros x.
  - rewrite elem_of_app, list_elem_of_fmap. apply or_iff_compat_l. split.
    + intros ([ws info] & -> & Hin). apply list_elem_of_filter in Hin as [Hacc Hin].
      apply list_elem_of_fmap in Hin as ([ws0 info0] & [= -> ->] & Hin).
      by exists ws0, info0.
    + intros (ws & info0 & Hin & -> & Hacc).
      exists (ws, m_view (moments j) ws info0). split; [done|].
      apply list_elem_of_filter. split; [done|].
      apply list_elem_of_fmap. by exists (ws, info0).
  - rewrite elem_of_app. apply or_iff_compat_l. split.
    + intros Hin. apply list_elem_of_filter in Hin as [Href Hin].
      apply list_elem_of_fmap in Hin as ([ws0 info0] & -> & Hin).
      by exists ws0, info0.
    + intros (ws & info0 & Hin & -> & Href).
      apply list_elem_of_filter. split; [done|].
      apply list_elem_of_fmap. by exists (ws, info0).
Qed.

Lemma send_batches_at bs : ∀ j st,
  let st' := send_batches data excludeDeviceId moments j bs st in
  (∀ x, x ∈ delivered st'
        ↔ x ∈ delivered st
          ∨ ∃ i b, bs !! i = Some b
                   ∧ sent_at moments data excludeDeviceId (j + i) b x)
  ∧ (∀ x, x ∈ failed st'
          ↔ x ∈ failed st
            ∨ ∃ i b, bs !! i = Some b
                     ∧ failed_at moments excludeDeviceId (j + i) b x).
Proof.
  induction bs as [|b bs IH]; intros j st; cbv zeta; simpl.
  { split; intros x; split; [by left| |by left|]; by intros [?|(i & b & ? & _)]. }
  destruct (IH (S j) (sendBatch (m_net (moments j)) data excludeDeviceId st
                        (seen (moments j) b))) as [IHd IHf].
  destruct (sendBatch_at j b st) as [Hd Hf].
  split; intros x.
  - rewrite IHd, Hd. split.
    + intros [[Hx|Hx]|(i & b' & Hi & Hx)]; [by left| |].
      * right. exists 0%nat, b. by rewrite Nat.add_0_r.
      * right. exists (S i), b'. by rewrite Nat.add_succ_r.
    + intros [Hx|([|i] & b' & Hi & Hx)]; [by left; left| |].
      * simpl in Hi. injection Hi as <-. rewrite Nat.add_0_r in Hx. by left; right.
      * right. exists i, b'. by rewrite Nat.add_succ_r in Hx.
  - rewrite IHf, Hf. split.
    + intros [[Hx|Hx]|(i & b' & Hi & Hx)]; [by left| |].
      * right. exists 0%nat, b. by rewrite Nat.add_0_r.
      * right. exists (S i), b'. by rewrite Nat.add_succ_r.
    + intros [Hx|([|i] & b' & Hi & Hx)]; [by left; left| |].
      * simpl in Hi. injection Hi as <-. rewrite Nat.add_0_r in Hx. by left; right.
      * right. exists i, b'. by rewrite Nat.add_succ_r in Hx.
Qed.

Lemma broadcast_interleaved_completed (clients : registry) :
  completed (broadcast_interleaved moments clients data excludeDeviceId)
  = send_batches data excludeDeviceId moments 0 (batches clients)
      (Fanout 0 0 clients [] []).
Proof. unfold broadcast_interleaved. by destruct (batches clients). Qed.

End Interleaved.

(** With nothing running between the batches, the interleaved fan-out is
    [broadcast]. *)
Lemma broadcast_interleaved_steady {message : Type} net (clients : registry)
    (data : message) excludeDeviceId :
  broadcast_interleaved (steady net) clients data excludeDeviceId
  = broadcast net clients data excludeDeviceId.
Proof.
  assert (∀ j b, seen (steady net j) b = b) as Hseen.
  { intros j b. unfold seen, steady. cbn [m_view].
    induction b as [|[ws info] b IH]; [done|].
    rewrite fmap_cons. cbn [fst snd]. f_equal. exact IH. }
  assert (∀ bs j st,
            send_batches data excludeDeviceId (steady net) j bs st
            = fold_left (sendBatch net data excludeDeviceId) bs st) as Hall.
  { induction bs as [|b bs IH]; intros j st; [done|].
    cbn [send_batches fold_left]. by rewrite Hseen, IH. }
  unfold broadcast_interleaved, broadcast.
  destruct (batches clients) as [|first later]; [done|].
  by rewrite Hseen, Hall.
Qed.

(** C7.  [broadcast(data, excludeDeviceId)] hands the event to the
    transport of no connection bound to [excludeDeviceId], and of every
    other open connection of the registry: each of these is sent [data],
    and is counted as delivered when [ws.send] returns, or as failed (and
    evicted) when [ws.send] raises.  Nothing else is sent: every delivery
    is of [data], to an open entry of the registry.  When the registry
    holds more than one batch and other handlers run between the batches,
    the same holds with each connection read as it is when its batch is
    sent. *)
Theorem broadcast_excludes_device_and_reaches_others
    {message : Type} (net : transport) (clients : registry) (data : message)
    (excludeDeviceId : option string) :
  (let result := completed (broadcast net clients data excludeDeviceId) in
   (∀ ws info m,
      (ws, info, m) ∈ delivered result →
      deviceId info ≠ excludeDeviceId
      ∧ m = data ∧ (ws, info) ∈ clients ∧ readyState net ws = OPEN)
   ∧ (∀ ws info,
        (ws, info) ∈ clients → deviceId info = excludeDeviceId →
        ∀ m, (ws, info, m) ∉ delivered result)
   ∧ (∀ ws info,
        (ws, info) ∈ clients →
        readyState net ws = OPEN → deviceId info ≠ excludeDeviceId →
        if send_throws net ws
        then (ws, info) ∈ failed result
        else (ws, info, data) ∈ delivered result))
  ∧ (∀ moments : nat → moment,
       let result :=
         completed (broadcast_interleaved moments clients data excludeDeviceId) in
       (∀ ws info m,
          (ws, info, m) ∈ delivered result →
          deviceId info ≠ excludeDeviceId ∧ m = data
          ∧ ∃ j info0,
              (ws, info0) ∈ clients
              ∧ info = m_view (moments j) ws info0
              ∧ readyState (m_net (moments j)) ws = OPEN)
       ∧ (∀ ws info0,
            (ws, info0) ∈ clients →
            ∃ j b,
              batches clients !! j = Some b ∧ (ws, info0) ∈ b
              ∧ (readyState (m_net (moments j)) ws = OPEN →
                 deviceId (m_view (moments j) ws info0) ≠ excludeDeviceId →
                 if send_throws (m_net (moments j)) ws
                 then (ws, m_view (moments j) ws info0) ∈ failed result
                 else (ws, m_view (moments j) ws info0, data) ∈ delivered result))).
Proof.
  split.
  - cbv zeta. rewrite broadcast_completed.
    destruct (fold_send_one net data excludeDeviceId clients (Fanout 0 0 clients [] []))
      as (Hd & Hf & _ & _).
    cbn [delivered failed] in Hd, Hf. rewrite Hd, Hf. clear Hd Hf.
    assert (∀ ws info m,
              (ws, info, m) ∈ [] ++ ((λ e : socket * clientInfo, (e.1, e.2, data))
                                       <$> filter (accepted net excludeDeviceId) clients) →
              deviceId info ≠ excludeDeviceId
              ∧ m = data ∧ (ws, info) ∈ clients ∧ readyState net ws = OPEN) as Hsound.
    { intros ws info m Hin. simpl in Hin.
      apply list_elem_of_fmap in Hin as ([ws' info'] & Heq & Hin).
      simpl in Heq. injection Heq as -> -> ->.
      apply list_elem_of_filter in Hin as [[[Hopen Hdev] _] Hin].
      simpl in *. done. }
    split_and!.
    + exact Hsound.
    + intros ws info Hin Hdev m Hm. apply Hsound in Hm as [Hne _]. done.
    + intros ws info Hin Hopen Hdev.
      destruct (send_throws net ws) eqn:Hthrow; simpl.
      * apply list_elem_of_filter. split; [|done]. split; [split|]; done.
      * apply (list_elem_of_fmap_2' _ _ (ws, info)); [|done].
        apply list_elem_of_filter. split; [|done]. split; [split|]; done.
  - intros moments. cbv zeta. rewrite broadcast_interleaved_completed.
    destruct (send_batches_at moments data excludeDeviceId (batches clients) 0
                (Fanout 0 0 clients [] [])) as [Hd Hf].
    cbn [delivered failed] in Hd, Hf. split.
    + intros ws info m Hin. apply Hd in Hin as [Hin|(i & b & Hb & Hin)];
        [by apply elem_of_nil in Hin|].
      destruct Hin as (ws0 & info0 & Hin & [= -> -> ->] & [[Hopen Hdev] _]).
      simpl in Hopen, Hdev. split_and!; [done|done|].
      exists i, info0. split_and!; [|done|done].
      rewrite <- (concat_batches clients). apply elem_of_concat. eauto.
    + intros ws info0 Hin.
      rewrite <- (concat_batches clients) in Hin.
      apply elem_of_concat in Hin as (j & b & Hb & Hin).
      exists j, b. split_and!; [done|done|]. intros Hopen Hdev.
      destruct (send_throws (m_net (moments j)) ws) eqn:Hthrow.
      * apply Hf. right. exists j, b. split; [done|].
        exists ws, info0. split_and!; [done|done|]. split; [split|]; done.
      * apply Hd. right. exists j, b. split; [done|].
        exists ws, info0. split_and!; [done|done|]. split; [split|]; done.
Qed.

(** A write by device A, broadcast to three connections: the one bound
    to device A is skipped, the other two are reached. *)
Lemma broadcast_excludes_device_and_reaches_others_witness :
  let result := completed (broadcast Scenarios.online Scenarios.three_clients "event"
                             (Some "device-A")) in
  (∀ m, (1%nat, ClientInfo (Some "device-A") 0 0 true, m) ∉ delivered result)
  ∧ (2%nat, ClientInfo (Some "device-B") 0 0 true, "event") ∈ delivered result
  ∧ (3%nat, ClientInfo None 0 0 true, "event") ∈ delivered result.
Proof.
  destruct (broadcast_excludes_device_and_reaches_others Scenarios.online
              Scenarios.three_clients "event" (Some "device-A"))
    as [(_ & Hskip & Hreach) _].
  split_and!.
  - apply Hskip; [|reflexivity]. apply elem_of_cons. by left.
  - apply (Hreach 2%nat (ClientInfo (Some "device-B") 0 0 true));
      [|reflexivity|discriminate].
    apply elem_of_cons. right. apply elem_of_cons. by left.
  - apply (Hreach 3%nat (ClientInfo None 0 0 true)); [|reflexivity|discriminate].
    do 2 (apply elem_of_cons; right). apply elem_of_cons. by left.
Defined.

(** *** The payload does not steer the fan-out *)

Section Payload.
Context {message message' : Type}.
Variable net : transport.
Variable data : message.
Variable data' : message'.
Variable excludeDeviceId : option string.

Lemma send_one_traffic st st' entry :
  traffic st = traffic st' →
  traffic (send_one net data excludeDeviceId st entry)
  = traffic (send_one net data' excludeDeviceId st' entry).
Proof.
  unfold traffic. intros [= Hs Hf Hc Hfl Hd].
  destruct entry as [ws info]. unfold send_one.
  destruct (_ && _); [|by rewrite Hs, Hf, Hc, Hfl, Hd].
  destruct (send_throws net ws); cbn [successCount failureCount clients_after failed delivered].
  - by rewrite Hs, Hf, Hc, Hfl, Hd.
  - rewrite !fmap_app, Hs, Hf, Hc, Hfl, Hd. done.
Qed.

Lemma sendBatch_traffic batch : ∀ st st',
  traffic st = traffic st' →
  traffic (sendBatch net data excludeDeviceId st batch)
  = traffic (sendBatch net data' excludeDeviceId st' batch).
Proof.
  unfold sendBatch. induction batch as [|e batch IH]; intros st st' H; [done|].
  simpl. apply IH. by apply send_one_traffic.
Qed.

Lemma fold_sendBatch_traffic bs : ∀ st st',
  traffic st = traffic st' →
  traffic (fold_left (sendBatch net data excludeDeviceId) bs st)
  = traffic (fold_left (sendBatch net data' excludeDeviceId) bs st').
Proof.
  induction bs as [|b bs IH]; intros st st' H; [done|].
  simpl. apply IH. by apply sendBatch_traffic.
Qed.

(** Two broadcasts over the same registry that differ in their payload
    only return the same counters, evict the same connections and reach
    the same sockets. *)
Lemma broadcast_payload_irrelevant (clients : registry) :
  returned (broadcast net clients data excludeDeviceId)
  = returned (broadcast net clients data' excludeDeviceId)
  ∧ traffic (completed (broadcast net clients data excludeDeviceId))
    = traffic (completed (broadcast net clients data' excludeDeviceId)).
Proof.
  unfold broadcast. destruct (batches clients) as [|first later]; [done|].
  cbn [returned completed].
  assert (traffic (sendBatch net data excludeDeviceId (Fanout 0 0 clients [] []) first)
          = traffic (sendBatch net data' excludeDeviceId (Fanout 0 0 clients [] []) first))
    as H1 by by apply sendBatch_traffic.
  split.
  - unfold traffic in H1. by injection H1 as -> -> _ _ _.
  - by apply fold_sendBatch_traffic.
Qed.

End Payload.

End BroadcastProps.

(** ** The record store *)

Module StoreProps.
Import Store Scenarios.

(** What a successful [UPDATE] of one row of [sales] does. *)
Lemma update_row_inr e sid OLD NEW db r db' :
  update_row e sid OLD NEW db = inr (r, db') →
  r = update_updated_at_column e OLD
        (if conflict_condition OLD NEW then set_sync_status conflict NEW else NEW)
  ∧ sales_checks r = true
  ∧ sales db' = <[sid := r]> (sales db)
  ∧ sync_log db' = sync_log db
  ∧ devices db' = devices db
  ∧ (if conflict_condition OLD NEW
     then insert_conflict e OLD NEW (conflicts db) = inr (conflicts db')
     else conflicts db' = conflicts db).
Proof.
  unfold update_row, before_update_triggers, detect_conflicts.
  destruct (conflict_condition OLD NEW).
  - destruct (insert_conflict e OLD NEW (conflicts db)) as [err|cs']; [done|].
    destruct (sales_checks _) eqn:Hchk; [|done].
    intros [= <- <-]. simpl. done.
  - destruct (sales_checks _) eqn:Hchk; [|done].
    intros [= <- <-]. simpl. done.
Qed.

(** Every successful UPDATE of a row raises its version by exactly one
    and stamps it with the transaction time. *)
Lemma update_row_version e sid OLD NEW db r db' :
  update_row e sid OLD NEW db = inr (r, db') →
  version r = version OLD + 1 ∧ updated_at r = now e
  ∧ sales db' !! sid = Some r.
Proof.
  intros H. apply update_row_inr in H as (-> & _ & Hs & _).
  rewrite Hs, lookup_insert_eq. done.
Qed.

(** No UPDATE of a row removes a row. *)
Lemma update_row_keeps_rows e sid OLD NEW db r db' k :
  update_row e sid OLD NEW db = inr (r, db') →
  is_Some (sales db !! k) → is_Some (sales db' !! k).
Proof.
  intros H Hk. apply update_row_inr in H as (_ & _ & Hs & _).
  rewrite Hs. destruct (decide (sid = k)) as [->|Hne].
  - rewrite lookup_insert_eq. eauto.
  - by rewrite lookup_insert_ne.
Qed.

(** When [detect_conflicts] runs, [update_updated_at_column] has not run
    yet and no SET clause of the server assigns [version]: the row it
    receives still carries the old version, and the version half of its
    condition holds for every update.  The trigger fires exactly when the
    writing device differs from the last writer. *)
Lemma conflict_condition_same_version OLD NEW :
  version NEW = version OLD →
  conflict_condition OLD NEW = bool_decide (device_id OLD ≠ device_id NEW).
Proof.
  intros Hv. unfold conflict_condition.
  rewrite bool_decide_eq_true_2 by lia. done.
Qed.

Lemma put_set_clause_version p dev e r : version (put_set_clause p dev e r) = version r.
Proof. done. Qed.

Lemma soft_delete_set_clause_version dev e r :
  version (soft_delete_set_clause dev e r) = version r.
Proof. done. Qed.

(** Had the triggers fired in the other order, the version half of the
    condition would never hold, and no conflict would ever be recorded. *)
Lemma conflict_condition_after_bump e OLD NEW :
  conflict_condition OLD (update_updated_at_column e OLD NEW) = false.
Proof.
  unfold conflict_condition. simpl.
  rewrite bool_decide_eq_false_2 by lia. done.
Qed.

(** Every UPDATE the PUT handler issues for a device other than the last
    writer records a conflict, whatever version the writer had read. *)
Lemma update_sale_by_other_device sid p dev e db OLD rows db' :
  sales db !! sid = Some OLD →
  is_deleted OLD = false →
  device_id OLD ≠ dev →
  update_sale sid p dev e db = inr (rows, db') →
  ∃ r c,
    rows = [r] ∧ sync_status r = conflict ∧ version r = version OLD + 1
    ∧ conflicts db' !! fresh_uuid e = Some c
    ∧ data_1 c = OLD ∧ device_id_1 c = device_id OLD ∧ device_id_2 c = dev
    ∧ is_resolved c = false.
Proof.
  intros Hold Hdel Hdev. unfold update_sale. rewrite Hold, Hdel.
  destruct (update_row _ _ _ _ _) as [err|[r db'']] eqn:Hup; [done|].
  intros [= <- <-].
  apply update_row_inr in Hup as (Hr & _ & _ & _ & _ & Hc).
  rewrite conflict_condition_same_version in Hr, Hc by done.
  cbn [put_set_clause device_id] in Hr, Hc.
  rewrite bool_decide_eq_true_2 in Hr, Hc by done.
  unfold insert_conflict in Hc.
  destruct (conflicts db !! fresh_uuid e); [done|].
  injection Hc as <-.
  eexists r, _. rewrite lookup_insert_eq. subst r. simpl. done.
Qed.

(** C2.  Device B reads the sale at version 1 and updates it, supplying
    version 1: an ordinary sequential update by a device other than the
    last writer.  The update succeeds with status 200, and the trigger
    records a Conflict between the two devices and marks the record
    [conflict]. *)
Theorem ordinary_update_by_other_device_records_conflict :
  let o := after_put_by_B in
  Server.put_version put_by_B = Some (version fresh_sale)
  ∧ Server.status (Server.o_response o) = Some 200%nat
  ∧ (sync_status <$> sales (Server.w_db (Server.o_world o)) !! id fresh_sale)
    = Some conflict
  ∧ ((λ c, (device_id_1 c, device_id_2 c, data_1 c, is_resolved c))
       <$> conflicts (Server.w_db (Server.o_world o)) !! uuid_2)
    = Some ("device-A", "device-B", fresh_sale, false).
Proof. vm_compute. done. Qed.

(** *** Conflict resolution *)

Lemma latest_data_cases c :
  (local_updated_at (data_2 c) (zone_2 c) < local_updated_at (data_1 c) (zone_1 c) →
   latest_data c = data_1 c)
  ∧ (local_updated_at (data_1 c) (zone_1 c) ≤ local_updated_at (data_2 c) (zone_2 c) →
     latest_data c = data_2 c).
Proof. unfold latest_data. split; intros; case_bool_decide; done || lia. Qed.

(** With one offset behind both texts the local times are ordered as
    the instants. *)
Lemma latest_data_same_zone c :
  zone_1 c = zone_2 c →
  (updated_at (data_2 c) < updated_at (data_1 c) → latest_data c = data_1 c)
  ∧ (updated_at (data_1 c) ≤ updated_at (data_2 c) → latest_data c = data_2 c).
Proof.
  intros Hzone. destruct (latest_data_cases c) as [H1 H2].
  unfold local_updated_at in *. split; intros; [apply H1|apply H2]; lia.
Qed.

(** The UPDATE of the resolution leaves the writer as it was, so
    [detect_conflicts] passes the row on; the CHECK constraints see the
    columns of the snapshot. *)
Lemma resolve_update_row e sid OLD latest db :
  sales_checks latest = true →
  update_row e sid OLD (resolve_set_clause latest OLD) db
  = inr (update_updated_at_column e OLD (resolve_set_clause latest OLD),
         {| sales := <[sid := update_updated_at_column e OLD (resolve_set_clause latest OLD)]>
                       (sales db);
            conflicts := conflicts db; sync_log := sync_log db;
            devices := devices db |}).
Proof.
  intros Hchk. unfold update_row, before_update_triggers, detect_conflicts.
  replace (conflict_condition OLD (resolve_set_clause latest OLD)) with false.
  2:{ unfold conflict_condition. cbn [resolve_set_clause device_id].
      rewrite (bool_decide_eq_false_2 (device_id OLD ≠ device_id OLD)) by auto.
      by rewrite andb_false_r. }
  replace (sales_checks (update_updated_at_column e OLD (resolve_set_clause latest OLD)))
    with (sales_checks latest) by done.
  by rewrite Hchk.
Qed.

(** What [resolve_conflict_last_write_wins] does to a conflict whose
    record is in the store. *)
Lemma resolve_conflict_last_write_wins_inr cid e db c OLD :
  conflicts db !! cid = Some c →
  sales db !! c_record_id c = Some OLD →
  sales_checks (latest_data c) = true →
  resolve_conflict_last_write_wins cid e db
  = inr (true,
         {| sales := <[c_record_id c :=
                         update_updated_at_column e OLD
                           (resolve_set_clause (latest_data c) OLD)]> (sales db);
            conflicts := <[cid := stamp_resolved e c]> (conflicts db);
            sync_log := sync_log db; devices := devices db |}).
Proof.
  intros Hc Hold Hchk. unfold resolve_conflict_last_write_wins.
  rewrite Hc. cbn [sales]. rewrite Hold.
  by rewrite resolve_update_row.
Qed.

Lemma sales_checks_latest_data c :
  sales_checks (data_1 c) = true → sales_checks (data_2 c) = true →
  sales_checks (latest_data c) = true.
Proof. unfold latest_data. by case_bool_decide. Qed.

(** What the handler does with a Conflict whose record is in the
    store: with [last_write_wins] (the default strategy) it answers
    200; the snapshot kept is [data_1] when the local time its text
    shows is strictly later than that of [data_2], and [data_2]
    otherwise (so a tie goes to the second snapshot); the Conflict is
    stamped resolved with that snapshot, the tag [last_write_wins] and
    the time of the call; and the live Record takes its nine mutable
    columns from the snapshot, with [sync_status = synced].  When both
    texts carry the same offset, the snapshot kept is the one with the
    later instant. *)
Lemma resolve_conflict_keeps_later_local_time
    (cid : string) (strategy : option string) (e : env) (db : database)
    (c : conflict_row) (OLD : sale) :
  strategy = None ∨ strategy = Some "last_write_wins" →
  connects e = true → fault e = None →
  conflicts db !! cid = Some c →
  sales db !! c_record_id c = Some OLD →
  sales_checks (data_1 c) = true → sales_checks (data_2 c) = true →
  ∃ db' chosen c' r,
    Server.resolve_conflict cid strategy e db
      = (Server.json 200 Server.resolved_json, db')
    ∧ (local_updated_at (data_2 c) (zone_2 c) < local_updated_at (data_1 c) (zone_1 c) →
       chosen = data_1 c)
    ∧ (local_updated_at (data_1 c) (zone_1 c) ≤ local_updated_at (data_2 c) (zone_2 c) →
       chosen = data_2 c)
    ∧ (zone_1 c = zone_2 c →
       (updated_at (data_2 c) < updated_at (data_1 c) → chosen = data_1 c)
       ∧ (updated_at (data_1 c) ≤ updated_at (data_2 c) → chosen = data_2 c))
    ∧ conflicts db' !! cid = Some c'
    ∧ resolution_data c' = Some chosen
    ∧ resolution_strategy c' = Some "last_write_wins"
    ∧ is_resolved c' = true
    ∧ resolved_at c' = Some (now e)
    ∧ (data_1 c', data_2 c', c_record_id c') = (data_1 c, data_2 c, c_record_id c)
    ∧ sales db' !! c_record_id c = Some r
    ∧ mutable_fields r = mutable_fields chosen
    ∧ sync_status r = synced.
Proof.
  intros Hstrategy Hconn Hfault Hc Hold Hchk1 Hchk2.
  pose proof (sales_checks_latest_data c Hchk1 Hchk2) as Hchk.
  pose proof (resolve_conflict_last_write_wins_inr cid e db c OLD Hc Hold Hchk) as Hres.
  eexists _, (latest_data c), (stamp_resolved e c), _.
  split.
  { unfold Server.resolve_conflict, Server.pool_query.
    rewrite bool_decide_eq_true_2 by (by destruct Hstrategy as [-> | ->]).
    rewrite Hconn, Hfault, Hres. reflexivity. }
  cbn [sales conflicts]. rewrite !lookup_insert_eq.
  destruct (latest_data_cases c) as [H1 H2].
  split_and!; try done. apply latest_data_same_zone.
Qed.

(** In a session in UTC the conflict of the two devices is resolved to
    the later write. *)
Example resolution_in_utc_keeps_the_later_write :
  ∃ db',
    Server.resolve_conflict uuid_2 None (at_time 3000 uuid_4) conflicted_db
      = (Server.json 200 Server.resolved_json, db')
    ∧ (resolution_data <$> conflicts db' !! uuid_2) = Some (Some proposed_by_B).
Proof.
  destruct (resolve_conflict_keeps_later_local_time
              uuid_2 None (at_time 3000 uuid_4) conflicted_db
              recorded_conflict sale_after_B)
    as (db' & chosen & c' & r & Hres & _ & Hlater & _ & Hc' & Hdata & _);
    [by left | reflexivity | reflexivity
    | vm_compute; reflexivity | vm_compute; reflexivity
    | vm_compute; reflexivity | vm_compute; reflexivity |].
  exists db'. split; [exact Hres|].
  rewrite Hc'. simpl. rewrite Hdata. f_equal. f_equal.
  apply Hlater. vm_compute. discriminate.
Qed.

(** C4.  The function means to keep the snapshot with the latest
    timestamp, and compares the texts of [updated_at] cast to
    [timestamp]: the offsets are dropped.  In a session whose time zone
    sets its clocks back (New York, 3 November 2024, 06:00 UTC), device
    A writes the sale at 01:30 local time, before the change, and
    device B updates it forty minutes later, at 01:10 local time.  The
    update is answered 200 and recorded as a conflict whose second
    snapshot has the later [updated_at]; resolving the conflict by
    [last_write_wins] answers 200, keeps the first snapshot, the
    earlier write, stamps the Conflict with it, and writes its columns
    back over those of the later write. *)
Theorem resolution_across_a_clock_change_keeps_the_earlier_write :
  let o := Server.put_sale offline put_in_autumn
             (in_new_york 1730614200000 uuid_1) (in_new_york 1730614200001 uuid_2)
             (in_new_york 1730614200002 uuid_3) 1730614200003
             (Server.World autumn_db []) in
  let recorded := Server.w_db (Server.o_world o) in
  let resolved := Server.resolve_conflict uuid_2 None
                    (in_new_york 1730614260000 uuid_4) recorded in
  Server.status (Server.o_response o) = Some 200%nat
  ∧ ((λ c, (data_1 c, updated_at (data_1 c), updated_at (data_2 c), customer (data_2 c),
            is_resolved c))
       <$> conflicts recorded !! uuid_2)
    = Some (autumn_sale, 1730611800000, 1730614200001, "Bo", false)
  ∧ (customer <$> sales recorded !! id autumn_sale) = Some "Bo"
  ∧ resolved.1 = Server.json 200 Server.resolved_json
  ∧ ((λ c, (resolution_data c, resolution_strategy c, is_resolved c))
       <$> conflicts resolved.2 !! uuid_2)
    = Some (Some autumn_sale, Some "last_write_wins", true)
  ∧ ((λ r, (mutable_fields r, sync_status r)) <$> sales resolved.2 !! id autumn_sale)
    = Some (mutable_fields autumn_sale, synced).
Proof. vm_compute. done. Qed.




(** *** Versions and soft deletion *)

(** A successful UPDATE of the PUT handler: one row, one version up. *)
Lemma update_sale_version sid p dev e db OLD rows db' :
  sales db !! sid = Some OLD →
  update_sale sid p dev e db = inr (rows, db') →
  rows ≠ [] →
  ∃ r, rows = [r] ∧ sales db' !! sid = Some r
       ∧ version r = version OLD + 1 ∧ is_deleted OLD = false.
Proof.
  intros Hold. unfold update_sale. rewrite Hold.
  destruct (is_deleted OLD); [by intros [= <- <-]|].
  destruct (update_row _ _ _ _ _) as [err|[r db'']] eqn:Hup; [done|].
  intros [= <- <-] _.
  apply update_row_version in Hup as (Hv & _ & Hs). eauto.
Qed.

(** A successful [soft_delete_sale] keeps the row, one version up,
    flagged and dated; its business columns are untouched. *)
Lemma soft_delete_sale_found sid dev e db OLD db' :
  sales db !! sid = Some OLD →
  soft_delete_sale sid dev e db = inr (true, db') →
  ∃ r, sales db' !! sid = Some r
       ∧ version r = version OLD + 1
       ∧ is_deleted r = true ∧ deleted_at r = Some (now e)
       ∧ mutable_fields r = mutable_fields OLD
       ∧ id r = id OLD ∧ created_at r = created_at OLD
       ∧ device_id r = dev
       ∧ is_deleted OLD = false.
Proof.
  intros Hold. unfold soft_delete_sale. rewrite Hold.
  destruct (is_deleted OLD); [done|].
  destruct (update_row _ _ _ _ _) as [err|[r db'']] eqn:Hup; [done|].
  intros [= <-].
  pose proof (update_row_version _ _ _ _ _ _ _ Hup) as (Hv & _ & Hs).
  apply update_row_inr in Hup as (Hr & _).
  exists r. split; [done|]. split; [done|].
  subst r. by destruct (conflict_condition _ _).
Qed.

Lemma mark_synced_rows_keeps_rows e ids : ∀ db out db' k,
  mark_synced_rows e ids db = inr (out, db') →
  is_Some (sales db !! k) → is_Some (sales db' !! k).
Proof.
  induction ids as [|sid ids IH]; intros db out db' k; simpl.
  { by intros [= _ <-]. }
  destruct (sales db !! sid) as [OLD|]; [|by apply IH].
  destruct (update_row _ _ _ _ _) as [err|[r db1]] eqn:Hup; [done|].
  destruct (mark_synced_rows e ids db1) as [err|[out' db2]] eqn:Hrest; [done|].
  intros [= _ <-] Hk.
  eapply IH; [done|]. by eapply update_row_keeps_rows.
Qed.

(** No statement of the server removes a row of [sales]. *)
Lemma execute_keeps_rows s e db db' k :
  execute s e db = inr db' →
  is_Some (sales db !! k) → is_Some (sales db' !! k).
Proof.
  destruct s; simpl.
  - unfold insert_sale. destruct (sales_checks _); [|done].
    destruct (sales db !! fresh_uuid e) eqn:Hfresh; [done|].
    intros [= <-] Hk. simpl.
    destruct (decide (fresh_uuid e = k)) as [->|Hne].
    + rewrite lookup_insert_eq. eauto.
    + by rewrite lookup_insert_ne.
  - unfold update_sale. destruct (sales db !! sid) as [OLD|]; [|by intros [= <-]].
    destruct (is_deleted OLD); [by intros [= <-]|].
    destruct (update_row _ _ _ _ _) as [err|[r db'']] eqn:Hup; [done|].
    intros [= <-]. by eapply update_row_keeps_rows.
  - unfold soft_delete_sale. destruct (sales db !! sid) as [OLD|]; [|by intros [= <-]].
    destruct (is_deleted OLD); [by intros [= <-]|].
    destruct (update_row _ _ _ _ _) as [err|[r db'']] eqn:Hup; [done|].
    intros [= <-]. by eapply update_row_keeps_rows.
  - unfold mark_synced.
    destruct (mark_synced_rows _ _ _) as [err|[out db'']] eqn:Hrows; [done|].
    intros [= <-]. by eapply mark_synced_rows_keeps_rows.
  - unfold resolve_conflict_last_write_wins.
    destruct (conflicts db !! cid) as [c|]; [|by intros [= <-]].
    cbn [sales]. destruct (sales db !! c_record_id c) as [OLD|]; [|by intros [= <-]].
    destruct (update_row _ _ _ _ _) as [err|[r db'']] eqn:Hup; [done|].
    intros [= <-] Hk. by eapply (update_row_keeps_rows _ _ _ _ _ _ _ _ Hup).
  - by intros [= <-].
  - unfold insert_sync_log. destruct (negb _); [done|].
    case_bool_decide; [done|]. destruct (devices db !! dev); [|done].
    by intros [= <-].
Qed.

End StoreProps.

(** ** The REST handlers *)

Module ServerProps.
Import Store WebSocketManager Server Scenarios StoreProps.

Lemma rows_kept_refl db : rows_kept db db.
Proof. by intros k. Qed.

Lemma rows_kept_trans db1 db2 db3 :
  rows_kept db1 db2 → rows_kept db2 db3 → rows_kept db1 db3.
Proof. intros H1 H2 k Hk. auto. Qed.

Lemma rows_kept_same_sales db db' : sales db' = sales db → rows_kept db db'.
Proof. intros H k. by rewrite H. Qed.

(** The SELECT of the PUT and DELETE handlers. *)
Lemma executeQuery_select sid e db :
  executeQuery (select_active_sale sid) e db
  = if connects e then
      match fault e with
      | Some sqlstate => (inl (handleDatabaseError (pg_error sqlstate)), db)
      | None => (inr (match sales db !! sid with
                      | Some r => if is_deleted r then [] else [r]
                      | None => []
                      end), db)
      end
    else (inl connect_error, db).
Proof. reflexivity. Qed.

Lemma executeQuery_select_db sid e db :
  (executeQuery (select_active_sale sid) e db).2 = db.
Proof.
  rewrite executeQuery_select.
  destruct (connects e); [|done]. by destruct (fault e).
Qed.

(** The PUT handler does not write before its UPDATE. *)
Lemma put_read_db req e db : (put_read req e db).2 = db.
Proof.
  unfold put_read.
  destruct (falsy_string _); [done|]. destruct (_ || _); [done|].
  pose proof (executeQuery_select_db (put_id req) e db) as Hdb.
  destruct (executeQuery _ e db) as [[error|[|currentSale rows]] db']; simpl in Hdb;
    subst db'; [done|done|].
  repeat (match goal with |- context [if ?b then _ else _] => destruct b end; try done).
Qed.

(** When the PUT handler goes on to its UPDATE, it has read the active
    row stored under the id, and the version it was given, if any, is 0
    or the version of that row. *)
Lemma put_read_proceeds req e db device_id currentSale db' :
  put_read req e db = (put_proceeds device_id currentSale, db') →
  db' = db
  ∧ put_device_id req = Some device_id ∧ device_id ≠ ""
  ∧ sales db !! put_id req = Some currentSale
  ∧ is_deleted currentSale = false
  ∧ (put_version req = None ∨ put_version req = Some 0
     ∨ put_version req = Some (version currentSale)).
Proof.
  intros Hread. pose proof (put_read_db req e db) as Hdb.
  rewrite Hread in Hdb. simpl in Hdb. subst db'. split; [done|].
  revert Hread. unfold put_read.
  destruct (put_device_id req) as [dev|] eqn:Hdev; simpl; [|done].
  case_bool_decide as Hne; [done|].
  destruct (_ || _); [done|].
  rewrite executeQuery_select.
  destruct (connects e); [|done]. destruct (fault e); [done|].
  destruct (sales db !! put_id req) as [r|] eqn:Hr; [|done].
  destruct (is_deleted r) eqn:Hdel; [done|].
  destruct (truthy_number (put_version req) && _) eqn:Hver; [done|].
  repeat (match goal with |- context [if ?b then _ else _] => destruct b end; try done).
  intros [= <- <-]. split_and!; try done.
  destruct (put_version req) as [v|]; [|by left]. right.
  simpl in Hver. apply andb_false_iff in Hver as [Hz|Hv].
  - left. apply bool_decide_eq_false in Hz. f_equal. lia.
  - right. apply bool_decide_eq_false in Hv.
    destruct (decide (Some (version r) = Some v)) as [[= ->]|]; done.
Qed.

(** *** Optimistic locking *)

(** A request that names a device, passes the id check, and supplies a
    version that is neither 0 nor the version of the active row is
    answered 409 with the row as it is, and nothing is written. *)
Lemma stale_version_is_refused net req e_read e_write e_log clock w currentSale v :
  falsy_string (put_device_id req) = false →
  put_id req ≠ "" → parseInt (put_id req) ≠ None →
  connects e_read = true → fault e_read = None →
  sales (w_db w) !! put_id req = Some currentSale →
  is_deleted currentSale = false →
  put_version req = Some v → v ≠ 0 → v ≠ version currentSale →
  put_sale net req e_read e_write e_log clock w
  = Outcome (json 409 (version_conflict_json (version currentSale) v currentSale)) w [].
Proof.
  intros Hdev Hid Hparse Hconn Hfault Hrow Hdel Hver Hv0 Hv.
  unfold put_sale, put_read. rewrite Hdev.
  rewrite (bool_decide_eq_false_2 (put_id req = "")) by done.
  rewrite (bool_decide_eq_false_2 (parseInt (put_id req) = None)) by done.
  cbn [orb]. rewrite executeQuery_select, Hconn, Hfault, Hrow, Hdel, Hver.
  cbn [truthy_number]. rewrite bool_decide_eq_true_2 by done.
  rewrite bool_decide_eq_true_2 by congruence.
  cbn [andb default]. by destruct w.
Qed.

Lemma stale_version_is_refused_witness :
  put_sale offline
    (PutRequest (id sale_after_B) no_patch (Some "device-A") (Some 1))
    (at_time 5000 uuid_3) (at_time 5001 uuid_4) (at_time 5002 uuid_5) 5003
    (World conflicted_db [])
  = Outcome (json 409 (version_conflict_json 2 1 sale_after_B))
            (World conflicted_db []) [].
Proof.
  apply (stale_version_is_refused offline
           (PutRequest (id sale_after_B) no_patch (Some "device-A") (Some 1))
           _ _ _ _ (World conflicted_db []) sale_after_B 1);
    try reflexivity; try (vm_compute; congruence); vm_compute; discriminate.
Defined.

(** C1.  The sale is at version 1; the update supplies version 0, one
    less.  The handler answers 200 and overwrites the customer: the test
    [version && ...] takes the number 0 for a missing version. *)
Theorem update_with_version_zero_overwrites :
  let o := put_sale offline put_version_zero
             (at_time 2000 uuid_1) (at_time 2001 uuid_2) (at_time 2002 uuid_3)
             2003 (World fresh_db []) in
  put_version put_version_zero = Some (version fresh_sale - 1)
  ∧ status (o_response o) = Some 200%nat
  ∧ (customer <$> sales fresh_db !! id fresh_sale) = Some "Ana"
  ∧ ((λ r, (customer r, version r)) <$> sales (w_db (o_world o)) !! id fresh_sale)
    = Some ("Bo", 2).
Proof. vm_compute. done. Qed.

(** The id check reads the identifier with [parseInt]: a record whose
    UUID begins with one of the letters a to f is answered 400 before its
    row is read, whatever version the request supplies. *)
Example update_of_lettered_uuid_is_rejected :
  parseInt (id lettered_sale) = None
  ∧ o_response
      (put_sale offline
         (PutRequest (id lettered_sale) no_patch (Some "device-A") (Some 1))
         (at_time 2000 uuid_1) (at_time 2001 uuid_2) (at_time 2002 uuid_3) 2003
         (World lettered_db []))
    = json 400 (error_json "Valid sale ID is required" (Some "INVALID_SALE_ID")).
Proof. vm_compute. done. Qed.

(** The same handler in one piece and in turns: a request scheduled
    alone goes through [put_sale]. *)
Lemma put_step_thrice net req k1 k2 k3 w :
  let '(t1, w1) := put_step net (put_pending req) k1 w in
  let '(t2, w2) := put_step net t1 k2 w1 in
  let '(t3, w3) := put_step net t2 k3 w2 in
  let o := put_sale net req (t_env k1) (t_env k2) (t_env k3) (t_clock k3) w in
  t3 = put_finished (o_response o) ∧ w3 = o_world o.
Proof.
  unfold put_step, put_sale, put_write.
  destruct (put_read req (t_env k1) (w_db w)) as [[r|device_id currentSale] db'];
    [done|].
  cbn [w_db w_clients].
  destruct (put_update req device_id (t_env k2) db') as [[r|updatedSale] db''];
    done.
Qed.

(** C3.  Two devices read the sale at version 1 and each sends an update
    supplying version 1.  When both SELECTs are served before either
    UPDATE, both requests pass the version check and both UPDATEs are
    applied: both are answered 200, the record ends at version 3 with the
    second writer's value, and the first update is lost without a 409.
    Handled one after the other, the second request is answered 409. *)
Theorem version_check_and_write_are_separate_steps :
  put_version put_by_A = Some (version fresh_sale)
  ∧ put_version put_by_B = Some (version fresh_sale)
  ∧ (let '(a, b, w) := interleave offline racing
                         (put_pending put_by_A) (put_pending put_by_B)
                         (World fresh_db []) in
     (∃ ra rb, a = put_finished ra ∧ b = put_finished rb
               ∧ status ra = Some 200%nat ∧ status rb = Some 200%nat)
     ∧ ((λ r, (customer r, version r)) <$> sales (w_db w) !! id fresh_sale)
       = Some ("Bo", 3))
  ∧ (let '(a, b, w) := interleave offline one_after_the_other
                         (put_pending put_by_A) (put_pending put_by_B)
                         (World fresh_db []) in
     (∃ ra rb, a = put_finished ra ∧ b = put_finished rb
               ∧ status ra = Some 200%nat ∧ status rb = Some 409%nat)
     ∧ ((λ r, (customer r, version r)) <$> sales (w_db w) !! id fresh_sale)
       = Some ("Al", 2)).
Proof.
  split; [reflexivity|]. split; [reflexivity|].
  split; vm_compute; (split; [eexists _, _; split_and!; reflexivity | reflexivity]).
Qed.

(** *** Store calls *)

Lemma executeQuery_cases {A} (q : query A) e db :
  (∃ error, executeQuery q e db = (inl error, db))
  ∨ (∃ a db', executeQuery q e db = (inr a, db') ∧ q e db = inr (a, db')).
Proof.
  unfold executeQuery. destruct (connects e); [|eauto].
  destruct (fault e); [eauto|].
  destruct (q e db) as [err|[a db']]; eauto.
Qed.

Lemma executeTransaction_single {A} (q : query A) e db :
  (∃ error, executeTransaction [q] e db = (inl error, db))
  ∨ (∃ a db', executeTransaction [q] e db = (inr [a], db') ∧ q e db = inr (a, db')).
Proof.
  unfold executeTransaction, run_operations. destruct (connects e); [|eauto].
  destruct (fault e); [eauto|].
  destruct (q e db) as [err|[a db']]; eauto.
Qed.

Lemma pool_query_cases {A} (q : query A) e db :
  (∃ error, pool_query q e db = (inl error, db))
  ∨ (∃ a db', pool_query q e db = (inr a, db') ∧ q e db = inr (a, db')).
Proof.
  unfold pool_query. destruct (connects e); [|eauto].
  destruct (fault e); [eauto|].
  destruct (q e db) as [err|[a db']]; eauto.
Qed.

Lemma insert_sync_log_frame dev op tbl rid old new e db row db' :
  insert_sync_log dev op tbl rid old new e db = inr (row, db') →
  sales db' = sales db ∧ conflicts db' = conflicts db ∧ devices db' = devices db
  ∧ sync_log db' = sync_log db ++ [row].
Proof.
  unfold insert_sync_log. destruct (negb _); [done|].
  case_bool_decide; [done|]. destruct (devices db !! dev); [|done].
  by intros [= <- <-].
Qed.

(** [logSyncOperation] never throws: it returns [null] and leaves the
    store as it was, or returns the row it appended to [sync_log]. *)
Lemma logSyncOperation_cases dev op tbl rid old new e db :
  logSyncOperation dev op tbl rid old new e db = (inr None, db)
  ∨ (∃ row db',
       logSyncOperation dev op tbl rid old new e db = (inr (Some row), db')
       ∧ insert_sync_log dev op tbl rid old new e db = inr (row, db')).
Proof.
  unfold logSyncOperation.
  destruct (executeQuery_cases (insert_sync_log dev op tbl rid old new) e db)
    as [[error ->]|(row & db' & -> & Hq)]; eauto.
Qed.

Lemma logSyncOperation_frame dev op tbl rid old new e db :
  ∃ syncLog db',
    logSyncOperation dev op tbl rid old new e db = (inr syncLog, db')
    ∧ sales db' = sales db ∧ conflicts db' = conflicts db
    ∧ devices db' = devices db.
Proof.
  destruct (logSyncOperation_cases dev op tbl rid old new e db)
    as [->|(row & db' & -> & Hq)]; [by eexists _, _|].
  apply insert_sync_log_frame in Hq as (? & ? & ? & _). by eexists _, _.
Qed.

(** The operation kinds the handlers pass, in capitals, fail the CHECK
    of [sync_log.operation_type]: no mutation of theirs is ever logged. *)
Lemma capital_operation_is_never_logged dev op tbl rid old new e db :
  op ∈ ["CREATE"; "UPDATE"; "DELETE"; "BULK_OPERATION"] →
  logSyncOperation dev op tbl rid old new e db = (inr None, db).
Proof.
  intros Hop. unfold logSyncOperation, executeQuery.
  destruct (connects e); [|done]. destruct (fault e); [done|].
  unfold insert_sync_log, sync_log_checks. cbn [operation_type].
  rewrite bool_decide_eq_false_2; [done|].
  intros Hin.
  repeat (apply elem_of_cons in Hop as [->|Hop];
          [repeat (apply elem_of_cons in Hin as [Hin|Hin]; [discriminate Hin|]);
           by apply elem_of_nil in Hin|]).
  by apply elem_of_nil in Hop.
Qed.

(** With a kind the CHECK admits and a registered device, the entry is
    appended. *)
Lemma lowercase_operation_is_logged :
  ∃ row db',
    logSyncOperation "device-A" "update" "sales" (Some (id fresh_sale))
      (Some fresh_sale) None (at_time 2000 uuid_1) fresh_db
    = (inr (Some row), db')
    ∧ sync_log db' = [row].
Proof. eexists _, _. vm_compute. done. Qed.

(** *** The audit log and the response *)

Section Logging.
Variable net : transport.

Lemma agree_refl o : agree_apart_from_log o o.
Proof. by unfold agree_apart_from_log. Qed.

(** The end of a handler after a broadcast: the payload decides neither
    the response nor the registry. *)
Lemma respond_agree (clients : registry) (data data' : event) excl
    (mk : bool → nat → response) db db' :
  sales db = sales db' → conflicts db = conflicts db' → devices db = devices db' →
  let br := broadcast net clients data excl in
  let br' := broadcast net clients data' excl in
  agree_apart_from_log
    (Outcome (mk (bool_decide (0 < fst (returned br))%nat) (fst (returned br)))
             (World db (clients_after (completed br))) (delivered (completed br)))
    (Outcome (mk (bool_decide (0 < fst (returned br'))%nat) (fst (returned br')))
             (World db' (clients_after (completed br'))) (delivered (completed br'))).
Proof.
  intros Hs Hc Hd. cbv zeta.
  destruct (BroadcastProps.broadcast_payload_irrelevant net data data' excl clients)
    as [Hret Htr].
  unfold traffic in Htr. injection Htr as _ _ Hcl _ Hdel.
  unfold agree_apart_from_log. cbn. rewrite Hret, Hcl, Hdel. done.
Qed.

(** Whatever [logSyncOperation] returned, the PUT handler ends the same. *)
Lemma put_respond_agree device_id currentSale updatedSale syncLog syncLog' clock
    db db' clients :
  sales db = sales db' → conflicts db = conflicts db' → devices db = devices db' →
  agree_apart_from_log
    (put_respond net device_id currentSale updatedSale syncLog clock (World db clients))
    (put_respond net device_id currentSale updatedSale syncLog' clock (World db' clients)).
Proof.
  intros Hs Hc Hd. unfold put_respond. destruct updatedSale as [u|].
  - cbn [w_clients w_db].
    apply (respond_agree clients _ _ _ (λ b n, json 200 (sale_json u b n))); done.
  - by unfold agree_apart_from_log.
Qed.

Lemma delete_respond_agree req device_id saleToDelete syncLog syncLog' clock
    db db' clients :
  sales db = sales db' → conflicts db = conflicts db' → devices db = devices db' →
  agree_apart_from_log
    (delete_respond net req device_id saleToDelete syncLog clock (World db clients))
    (delete_respond net req device_id saleToDelete syncLog' clock (World db' clients)).
Proof.
  intros Hs Hc Hd. unfold delete_respond. cbn [w_clients w_db].
  apply (respond_agree clients _ _ _
           (λ b n, json 200 (deleted_json (parseInt (del_id req)) clock b n))); done.
Qed.

Lemma post_respond_agree device_id newSale syncLog syncLog' clock db db' clients :
  sales db = sales db' → conflicts db = conflicts db' → devices db = devices db' →
  agree_apart_from_log
    (post_respond net device_id newSale syncLog clock (World db clients))
    (post_respond net device_id newSale syncLog' clock (World db' clients)).
Proof.
  intros Hs Hc Hd. unfold post_respond. cbn [w_clients w_db].
  apply (respond_agree clients _ _ _ (λ b n, json 201 (sale_json newSale b n))); done.
Qed.

(** The environment of the audit insert (whether it connects, fails, or
    succeeds) changes nothing but the audit log. *)
Lemma put_sale_log_irrelevant req e_read e_write e_log e_log' clock w :
  agree_apart_from_log
    (put_sale net req e_read e_write e_log clock w)
    (put_sale net req e_read e_write e_log' clock w).
Proof.
  unfold put_sale.
  destruct (put_read req e_read (w_db w)) as [[r|device_id currentSale] db0];
    [apply agree_refl|].
  unfold put_write, put_update, put_log. cbn [w_db w_clients].
  destruct (executeTransaction_single
              (update_sale (put_id req) (put_patch req) device_id) e_write db0)
    as [[error ->]|(rows & db1 & -> & _)]; [apply agree_refl|].
  destruct (logSyncOperation_frame device_id "UPDATE" "sales" (Some (put_id req))
              (Some currentSale) (head rows) e_log db1)
    as (syncLog & db2 & -> & Hs & Hc & Hd).
  destruct (logSyncOperation_frame device_id "UPDATE" "sales" (Some (put_id req))
              (Some currentSale) (head rows) e_log' db1)
    as (syncLog' & db2' & -> & Hs' & Hc' & Hd').
  apply put_respond_agree; congruence.
Qed.

Lemma delete_sale_log_irrelevant req e_read e_write e_log e_log' clock w :
  agree_apart_from_log
    (delete_sale net req e_read e_write e_log clock w)
    (delete_sale net req e_read e_write e_log' clock w).
Proof.
  unfold delete_sale.
  destruct (falsy_string _); [apply agree_refl|].
  destruct (_ || _); [apply agree_refl|].
  destruct (executeQuery (select_active_sale (del_id req)) e_read (w_db w))
    as [[error|[|saleToDelete rows]] db0]; [apply agree_refl|apply agree_refl|].
  destruct (executeTransaction_single
              (soft_delete_sale (del_id req) (default "" (del_device_id req))) e_write db0)
    as [[error ->]|(deleted & db1 & -> & _)]; [apply agree_refl|].
  destruct deleted; cbn [negb]; [|apply agree_refl].
  destruct (logSyncOperation_frame (default "" (del_device_id req)) "DELETE" "sales"
              (Some (del_id req)) (Some saleToDelete) None e_log db1)
    as (syncLog & db2 & -> & Hs & Hc & Hd).
  destruct (logSyncOperation_frame (default "" (del_device_id req)) "DELETE" "sales"
              (Some (del_id req)) (Some saleToDelete) None e_log' db1)
    as (syncLog' & db2' & -> & Hs' & Hc' & Hd').
  apply delete_respond_agree; congruence.
Qed.

Lemma post_sale_log_irrelevant req e_register e_write e_log e_log' clock w :
  agree_apart_from_log
    (post_sale net req e_register e_write e_log clock w)
    (post_sale net req e_register e_write e_log' clock w).
Proof.
  unfold post_sale.
  destruct (_ || _); [apply agree_refl|].
  repeat (destruct (not_positive _); [apply agree_refl|]).
  destruct (registerDevice _ _ _ e_register (w_db w)) as [[error|[]] db0];
    [apply agree_refl|].
  match goal with |- context [executeTransaction [insert_sale ?v] e_write db0] =>
    destruct (executeTransaction_single (insert_sale v) e_write db0)
      as [[error ->]|(newSale & db1 & -> & _)] end; [apply agree_refl|].
  destruct (logSyncOperation_frame (default "" (post_device_id req)) "CREATE" "sales"
              (Some (id newSale)) None (Some newSale) e_log db1)
    as (syncLog & db2 & -> & Hs & Hc & Hd).
  destruct (logSyncOperation_frame (default "" (post_device_id req)) "CREATE" "sales"
              (Some (id newSale)) None (Some newSale) e_log' db1)
    as (syncLog' & db2' & -> & Hs' & Hc' & Hd').
  apply post_respond_agree; congruence.
Qed.

End Logging.

(** C9.  [logSyncOperation] never throws: it always returns, it touches
    no table but [sync_log], and whenever its INSERT fails (no
    connection, a server fault, a constraint) it returns [null] with the
    store as it was.  The mutation is committed before it runs and is not
    undone; and the handlers end the same whatever it returned: for the
    POST, PUT and DELETE handlers the response, the [sales], [conflicts]
    and [devices] tables, the registry and the sockets reached by the
    broadcast do not depend on the value [logSyncOperation] returned, nor
    on whether its INSERT could be carried out. *)
Theorem sync_log_failure_is_swallowed :
  (∀ dev op tbl rid old new e db,
     (∃ syncLog db',
        logSyncOperation dev op tbl rid old new e db = (inr syncLog, db')
        ∧ sales db' = sales db ∧ conflicts db' = conflicts db
        ∧ devices db' = devices db)
     ∧ (∀ error db',
          executeQuery (insert_sync_log dev op tbl rid old new) e db = (inl error, db') →
          logSyncOperation dev op tbl rid old new e db = (inr None, db)))
  ∧ (∀ net device_id currentSale updatedSale syncLog syncLog' clock w,
       agree_apart_from_log
         (put_respond net device_id currentSale updatedSale syncLog clock w)
         (put_respond net device_id currentSale updatedSale syncLog' clock w))
  ∧ (∀ net req device_id saleToDelete syncLog syncLog' clock w,
       agree_apart_from_log
         (delete_respond net req device_id saleToDelete syncLog clock w)
         (delete_respond net req device_id saleToDelete syncLog' clock w))
  ∧ (∀ net device_id newSale syncLog syncLog' clock w,
       agree_apart_from_log
         (post_respond net device_id newSale syncLog clock w)
         (post_respond net device_id newSale syncLog' clock w))
  ∧ (∀ net req e_read e_write e_log e_log' clock w,
       agree_apart_from_log
         (put_sale net req e_read e_write e_log clock w)
         (put_sale net req e_read e_write e_log' clock w))
  ∧ (∀ net req e_read e_write e_log e_log' clock w,
       agree_apart_from_log
         (delete_sale net req e_read e_write e_log clock w)
         (delete_sale net req e_read e_write e_log' clock w))
  ∧ (∀ net req e_register e_write e_log e_log' clock w,
       agree_apart_from_log
         (post_sale net req e_register e_write e_log clock w)
         (post_sale net req e_register e_write e_log' clock w)).
Proof.
  split_and!.
  - intros. split; [apply logSyncOperation_frame|].
    intros error db' Hq. unfold logSyncOperation. rewrite Hq.
    destruct (executeQuery_cases (insert_sync_log dev op tbl rid old new) e db)
      as [[error' Hq']|(row & db'' & Hq' & _)]; congruence.
  - intros. destruct w. by apply put_respond_agree.
  - intros. destruct w. by apply delete_respond_agree.
  - intros. destruct w. by apply post_respond_agree.
  - intros. apply put_sale_log_irrelevant.
  - intros. apply delete_sale_log_irrelevant.
  - intros. apply post_sale_log_irrelevant.
Qed.

(** On the fresh store, A's update with the audit insert unable to
    connect: the response is the 200 of the update, the row is written,
    and nothing is logged. *)
Lemma sync_log_failure_is_swallowed_witness :
  let o := put_sale offline put_by_A (at_time 2000 uuid_1) (at_time 2001 uuid_2)
             (Env 2002 uuid_3 false None) 2003 (World fresh_db []) in
  agree_apart_from_log o
    (put_sale offline put_by_A (at_time 2000 uuid_1) (at_time 2001 uuid_2)
       (at_time 2002 uuid_3) 2003 (World fresh_db []))
  ∧ status (o_response o) = Some 200%nat
  ∧ (customer <$> sales (w_db (o_world o)) !! id fresh_sale) = Some "Al"
  ∧ sync_log (w_db (o_world o)) = [].
Proof.
  split.
  - apply (proj1 (proj2 (proj2 (proj2 (proj2 sync_log_failure_is_swallowed))))).
  - vm_compute. done.
Defined.

(** *** Versions and rows *)

Section Mutations.
Variable net : transport.

Lemma mutation_catch_status error : status (mutation_catch error) = None.
Proof. done. Qed.

Lemma put_read_answered_status req e db r db' :
  put_read req e db = (put_answered r, db') → status r ≠ Some 200%nat.
Proof.
  unfold put_read.
  repeat (match goal with
          | |- context [if ?b then _ else _] => destruct b
          | |- context [match ?x with _ => _ end] => destruct x
          end; try (intros [= <- <-]; done)).
Qed.

(** A PUT answered 200 wrote the row it read, one version up. *)
Lemma put_sale_200 req e_read e_write e_log clock w :
  let o := put_sale net req e_read e_write e_log clock w in
  status (o_response o) = Some 200%nat →
  ∃ OLD r broadcasted clientsNotified,
    sales (w_db w) !! put_id req = Some OLD
    ∧ sales (w_db (o_world o)) !! put_id req = Some r
    ∧ version r = version OLD + 1
    ∧ body_of (o_response o) = sale_json r broadcasted clientsNotified.
Proof.
  cbv zeta. unfold put_sale.
  destruct (put_read req e_read (w_db w)) as [[r|device_id currentSale] db0] eqn:Hread.
  { intros Hst. by apply put_read_answered_status in Hread. }
  apply put_read_proceeds in Hread as (-> & _ & _ & Hrow & _).
  unfold put_write, put_update, put_log. cbn [w_db w_clients].
  destruct (executeTransaction_single
              (update_sale (put_id req) (put_patch req) device_id) e_write (w_db w))
    as [[error ->]|(rows & db1 & -> & Hup)]; [done|].
  destruct (logSyncOperation_frame device_id "UPDATE" "sales" (Some (put_id req))
              (Some currentSale) (head rows) e_log db1)
    as (syncLog & db2 & -> & Hs & _).
  destruct rows as [|r rows]; [done|].
  destruct (update_sale_version _ _ _ _ _ _ _ _ Hrow Hup) as (r' & [= -> ->] & Hr & Hv & _);
    [done|].
  intros _. unfold put_respond. cbn. rewrite Hs. eauto 10.
Qed.

(** A DELETE answered 200 kept the row: one version up, flagged and
    dated, its business columns as they were. *)
Lemma delete_sale_200 req e_read e_write e_log clock w :
  let o := delete_sale net req e_read e_write e_log clock w in
  status (o_response o) = Some 200%nat →
  ∃ OLD r,
    sales (w_db w) !! del_id req = Some OLD
    ∧ sales (w_db (o_world o)) !! del_id req = Some r
    ∧ version r = version OLD + 1
    ∧ is_deleted OLD = false ∧ is_deleted r = true
    ∧ deleted_at r = Some (now e_write)
    ∧ mutable_fields r = mutable_fields OLD.
Proof.
  cbv zeta. unfold delete_sale.
  destruct (falsy_string _); [done|]. destruct (_ || _); [done|].
  pose proof (executeQuery_select_db (del_id req) e_read (w_db w)) as Hdb.
  destruct (executeQuery (select_active_sale (del_id req)) e_read (w_db w))
    as [[error|[|saleToDelete rows]] db0]; [done|done|].
  simpl in Hdb. subst db0.
  destruct (executeTransaction_single
              (soft_delete_sale (del_id req) (default "" (del_device_id req)))
              e_write (w_db w))
    as [[error ->]|(deleted & db1 & -> & Hdel)]; [done|].
  destruct deleted; cbn [negb]; [|done].
  destruct (logSyncOperation_frame (default "" (del_device_id req)) "DELETE" "sales"
              (Some (del_id req)) (Some saleToDelete) None e_log db1)
    as (syncLog & db2 & -> & Hs & _).
  intros _. unfold delete_respond. cbn [o_world w_db]. rewrite Hs.
  destruct (sales (w_db w) !! del_id req) as [OLD|] eqn:Hrow.
  2:{ unfold soft_delete_sale in Hdel. by rewrite Hrow in Hdel. }
  destruct (soft_delete_sale_found _ _ _ _ _ _ Hrow Hdel)
    as (r & Hr & Hv & Hd & Hat & Hm & _ & _ & _ & Hold).
  eauto 10.
Qed.

Lemma statement_keeps_rows {A} (q : query A) (s : statement) e db a db' :
  (∀ e db, execute s e db = effect (q e db)) →
  q e db = inr (a, db') → rows_kept db db'.
Proof.
  intros Hs Hq k. apply (execute_keeps_rows s e). by rewrite Hs, Hq.
Qed.

Lemma logSyncOperation_keeps_rows dev op tbl rid old new e db :
  rows_kept db (logSyncOperation dev op tbl rid old new e db).2.
Proof.
  destruct (logSyncOperation_frame dev op tbl rid old new e db)
    as (syncLog & db' & -> & Hs & _).
  by apply rows_kept_same_sales.
Qed.

Lemma put_sale_keeps_rows req e_read e_write e_log clock w :
  rows_kept (w_db w) (w_db (o_world (put_sale net req e_read e_write e_log clock w))).
Proof.
  unfold put_sale.
  pose proof (put_read_db req e_read (w_db w)) as Hdb.
  destruct (put_read req e_read (w_db w)) as [[r|device_id currentSale] db0];
    simpl in Hdb; subst db0; [apply rows_kept_refl|].
  unfold put_write, put_update, put_log. cbn [w_db w_clients].
  destruct (executeTransaction_single
              (update_sale (put_id req) (put_patch req) device_id) e_write (w_db w))
    as [[error ->]|(rows & db1 & -> & Hup)]; [apply rows_kept_refl|].
  apply (rows_kept_trans _ db1).
  { by eapply (statement_keeps_rows _ (stmt_update_sale _ _ _)). }
  pose proof (logSyncOperation_keeps_rows device_id "UPDATE" "sales" (Some (put_id req))
                (Some currentSale) (head rows) e_log db1) as Hlog.
  destruct (logSyncOperation _ _ _ _ _ _ e_log db1) as [[error|syncLog] db2];
    [exact Hlog|].
  unfold put_respond. by destruct (head rows).
Qed.

Lemma delete_sale_keeps_rows req e_read e_write e_log clock w :
  rows_kept (w_db w) (w_db (o_world (delete_sale net req e_read e_write e_log clock w))).
Proof.
  unfold delete_sale.
  destruct (falsy_string _); [apply rows_kept_refl|].
  destruct (_ || _); [apply rows_kept_refl|].
  pose proof (executeQuery_select_db (del_id req) e_read (w_db w)) as Hdb.
  destruct (executeQuery (select_active_sale (del_id req)) e_read (w_db w))
    as [[error|[|saleToDelete rows]] db0]; simpl in Hdb; subst db0;
    [apply rows_kept_refl|apply rows_kept_refl|].
  destruct (executeTransaction_single
              (soft_delete_sale (del_id req) (default "" (del_device_id req)))
              e_write (w_db w))
    as [[error ->]|(deleted & db1 & -> & Hdel)]; [apply rows_kept_refl|].
  assert (rows_kept (w_db w) db1) as H1
    by by eapply (statement_keeps_rows _ (stmt_soft_delete_sale _ _)).
  destruct deleted; cbn [negb]; [|exact H1].
  apply (rows_kept_trans _ db1); [exact H1|].
  pose proof (logSyncOperation_keeps_rows (default "" (del_device_id req)) "DELETE" "sales"
                (Some (del_id req)) (Some saleToDelete) None e_log db1) as Hlog.
  by destruct (logSyncOperation _ _ _ _ _ _ e_log db1) as [[error|syncLog] db2].
Qed.

Lemma post_sale_keeps_rows req e_register e_write e_log clock w :
  rows_kept (w_db w) (w_db (o_world (post_sale net req e_register e_write e_log clock w))).
Proof.
  unfold post_sale.
  destruct (_ || _); [apply rows_kept_refl|].
  repeat (destruct (not_positive _); [apply rows_kept_refl|]).
  unfold registerDevice.
  destruct (executeQuery_cases
              (register_device (default "" (post_device_id req)) None "unknown")
              e_register (w_db w))
    as [[error ->]|([] & db0 & -> & Hreg)]; [apply rows_kept_refl|].
  assert (rows_kept (w_db w) db0) as H0
    by by eapply (statement_keeps_rows _ (stmt_register_device _ _ _)).
  match goal with |- context [executeTransaction [insert_sale ?v] e_write db0] =>
    destruct (executeTransaction_single (insert_sale v) e_write db0)
      as [[error ->]|(newSale & db1 & -> & Hins)] end; [exact H0|].
  apply (rows_kept_trans _ db0); [exact H0|].
  apply (rows_kept_trans _ db1).
  { by eapply (statement_keeps_rows _ (stmt_insert_sale _)). }
  pose proof (logSyncOperation_keeps_rows (default "" (post_device_id req)) "CREATE" "sales"
                (Some (id newSale)) None (Some newSale) e_log db1) as Hlog.
  by destruct (logSyncOperation _ _ _ _ _ _ e_log db1) as [[error|syncLog] db2].
Qed.

Lemma resolve_conflict_keeps_rows conflict_id strategy e db :
  rows_kept db (resolve_conflict conflict_id strategy e db).2.
Proof.
  unfold resolve_conflict. case_bool_decide; [|apply rows_kept_refl].
  destruct (pool_query_cases (resolve_conflict_last_write_wins conflict_id) e db)
    as [[error ->]|(b & db' & -> & Hq)]; [apply rows_kept_refl|].
  assert (rows_kept db db')
    by by eapply (statement_keeps_rows _ (stmt_resolve_conflict _)).
  by destruct b.
Qed.

End Mutations.

(** C8.  Every successful UPDATE of a row of [sales] raises its version
    by exactly one; in particular a PUT answered 200 and a DELETE
    answered 200 leave the row they addressed one version up.  The DELETE
    keeps the row, flagged [is_deleted] and dated [deleted_at], with its
    business columns untouched.  No statement the server issues, and none
    of its mutation handlers, removes a row of [sales]. *)
Theorem mutations_raise_version_by_one_and_keep_rows :
  (∀ e sid OLD NEW db r db',
     update_row e sid OLD NEW db = inr (r, db') →
     version r = version OLD + 1 ∧ sales db' !! sid = Some r)
  ∧ (∀ net req e_read e_write e_log clock w,
       let o := put_sale net req e_read e_write e_log clock w in
       status (o_response o) = Some 200%nat →
       ∃ OLD r,
         sales (w_db w) !! put_id req = Some OLD
         ∧ sales (w_db (o_world o)) !! put_id req = Some r
         ∧ version r = version OLD + 1)
  ∧ (∀ net req e_read e_write e_log clock w,
       let o := delete_sale net req e_read e_write e_log clock w in
       status (o_response o) = Some 200%nat →
       ∃ OLD r,
         sales (w_db w) !! del_id req = Some OLD
         ∧ sales (w_db (o_world o)) !! del_id req = Some r
         ∧ version r = version OLD + 1
         ∧ is_deleted OLD = false ∧ is_deleted r = true
         ∧ deleted_at r = Some (now e_write)
         ∧ mutable_fields r = mutable_fields OLD)
  ∧ (∀ s e db db', execute s e db = inr db' → rows_kept db db')
  ∧ (∀ net req e_read e_write e_log clock w,
       rows_kept (w_db w) (w_db (o_world (put_sale net req e_read e_write e_log clock w))))
  ∧ (∀ net req e_read e_write e_log clock w,
       rows_kept (w_db w) (w_db (o_world (delete_sale net req e_read e_write e_log clock w))))
  ∧ (∀ net req e_register e_write e_log clock w,
       rows_kept (w_db w)
         (w_db (o_world (post_sale net req e_register e_write e_log clock w))))
  ∧ (∀ conflict_id strategy e db,
       rows_kept db (resolve_conflict conflict_id strategy e db).2).
Proof.
  split_and!.
  - intros * H. apply update_row_version in H as (? & _ & ?). done.
  - intros net req e_read e_write e_log clock w o Hst.
    destruct (put_sale_200 net req e_read e_write e_log clock w Hst)
      as (OLD & r & _ & _ & ? & ? & ? & _). eauto.
  - intros net req e_read e_write e_log clock w. apply delete_sale_200.
  - intros s e db db' H k. by apply (execute_keeps_rows s e).
  - intros. apply put_sale_keeps_rows.
  - intros. apply delete_sale_keeps_rows.
  - intros. apply post_sale_keeps_rows.
  - intros. apply resolve_conflict_keeps_rows.
Qed.

(** Device A deletes the fresh sale: the row stays, at version 2,
    flagged and dated. *)
Lemma mutations_raise_version_by_one_and_keep_rows_witness :
  let o := delete_sale offline delete_by_A (at_time 2000 uuid_1) (at_time 2001 uuid_2)
             (at_time 2002 uuid_3) 2003 (World fresh_db []) in
  status (o_response o) = Some 200%nat
  ∧ ∃ OLD r,
      sales fresh_db !! id fresh_sale = Some OLD
      ∧ sales (w_db (o_world o)) !! id fresh_sale = Some r
      ∧ version r = version OLD + 1
      ∧ is_deleted OLD = false ∧ is_deleted r = true
      ∧ deleted_at r = Some 2001
      ∧ mutable_fields r = mutable_fields OLD.
Proof.
  split; [vm_compute; reflexivity|].
  apply (proj1 (proj2 (proj2 mutations_raise_version_by_one_and_keep_rows))
           offline delete_by_A (at_time 2000 uuid_1) (at_time 2001 uuid_2)
           (at_time 2002 uuid_3) 2003 (World fresh_db [])).
  vm_compute. reflexivity.
Defined.

(** *** Admission on the real-time channel *)

Section ChannelAdmission.
Variable net : transport.





End ChannelAdmission.




(** At exactly one second the window has moved on: the first instant is
    no longer [> now - 1000], and the eleventh request is accepted. *)
Example eleventh_request_after_a_full_second_is_accepted :
  RateLimiter.allowed <$>
    (RateLimiter.run ∅ "dev-1" "websocket_message"
       ((λ i, 100 * Z.of_nat i) <$> seq 0 11)).1 !! 10%nat
  = Some true.
Proof. vm_compute. reflexivity. Qed.

End ServerProps.


(** * Further properties *)

(** ** RateLimiter: windows, isolation, cleanup *)

Module RateLimiterMore.
Import RateLimiter RateLimiterProps Scenarios.

Lemma isAllowed_other_key clients clientId endpoint now key :
  key ≠ clientKey clientId endpoint →
  (isAllowed clients clientId endpoint now).2 !! key = clients !! key.
Proof.
  intros Hne. unfold isAllowed.
  destruct (clients !! clientKey clientId endpoint) as [c|]; cbv zeta;
    repeat case_bool_decide; cbn [snd]; by rewrite lookup_insert_ne.
Qed.

(** The window [isAllowed] leaves for the key it was called for. *)
Lemma isAllowed_window clients clientId endpoint now :
  ∃ c', (isAllowed clients clientId endpoint now).2 !! clientKey clientId endpoint
        = Some c'
        ∧ match clients !! clientKey clientId endpoint with
          | None => requests c' = [now]
          | Some c =>
              let reqs := newer_than (now - 60000) (requests c) in
              (requests c' = reqs
               ∧ (maxRequestsPerMinute ≤ Z.of_nat (length reqs)
                  ∨ allowed (isAllowed clients clientId endpoint now).1 = false))
              ∨ (requests c' = reqs ++ [now]
                 ∧ Z.of_nat (length reqs) < maxRequestsPerMinute
                 ∧ allowed (isAllowed clients clientId endpoint now).1 = true)
          end.
Proof.
  destruct (clients !! clientKey clientId endpoint) as [c|] eqn:Hc.
  - rewrite (isAllowed_lookup_Some _ _ _ _ _ Hc). cbv zeta.
    repeat case_bool_decide; cbn [fst snd];
      rewrite lookup_insert_eq; eexists; (split; [done|]); cbn [requests allowed].
    + left. auto.
    + left. auto.
    + right. split_and!; [done|lia|done].
  - unfold isAllowed. rewrite Hc. cbn [snd]. rewrite lookup_insert_eq. by eexists.
Qed.

Lemma isAllowed_keeps_bound clients clientId endpoint now :
  windows_bounded clients →
  windows_bounded (isAllowed clients clientId endpoint now).2.
Proof.
  intros Hb key c' Hkey.
  destruct (decide (key = clientKey clientId endpoint)) as [->|Hne].
  2:{ rewrite isAllowed_other_key in Hkey by done. by eapply Hb. }
  destruct (isAllowed_window clients clientId endpoint now) as (c'' & Hc'' & Hw).
  rewrite Hkey in Hc''. injection Hc'' as <-.
  destruct (clients !! clientKey clientId endpoint) as [c|] eqn:Hc.
  - specialize (Hb _ _ Hc).
    pose proof (length_filter (λ time, now - 60000 < time) (requests c)) as Hlen.
    fold (newer_than (now - 60000) (requests c)) in Hlen.
    cbv zeta in Hw. destruct Hw as [[-> _]|(-> & Hlt & _)].
    + lia.
    + rewrite length_app. simpl. lia.
  - rewrite Hw. unfold maxRequestsPerMinute. simpl. lia.
Qed.

Lemma cleanup_lookup clients now key :
  cleanup clients now !! key = clients !! key ≫= cleanup_client now.
Proof. unfold cleanup. apply lookup_omap. Qed.

Lemma cleanup_keeps_bound clients now :
  windows_bounded clients → windows_bounded (cleanup clients now).
Proof.
  intros Hb key c' Hkey. rewrite cleanup_lookup in Hkey.
  destruct (clients !! key) as [c|] eqn:Hc; [|done]. simpl in Hkey.
  unfold cleanup_client in Hkey. destruct (_ && _); [done|].
  injection Hkey as <-. cbn [requests]. specialize (Hb _ _ Hc).
  pose proof (length_filter (λ time, now - 3600000 < time) (requests c)) as Hlen.
  fold (newer_than (now - 3600000) (requests c)) in Hlen. lia.
Qed.

Lemma after_keeps_bound_from (history : list activity) : ∀ clients,
  windows_bounded clients → windows_bounded (after history clients).
Proof.
  unfold after. induction history as [|a history IH]; intros clients Hb; [done|].
  simpl. apply IH. destruct a; simpl.
  - by apply isAllowed_keeps_bound.
  - by apply cleanup_keeps_bound.
Qed.

Lemma after_keeps_bound (history : list activity) :
  windows_bounded (after history ∅).
Proof.
  apply after_keeps_bound_from. intros key c Hkey. by rewrite lookup_empty in Hkey.
Qed.

(** Whatever the clients do and whenever the sweep runs, starting from
    an empty limiter no window ever holds more than 60 instants: a
    refused request is not recorded, and an accepted one is recorded
    only while fewer than 60 instants of the last minute are held. *)
Theorem windows_never_exceed_minute_cap (history : list activity) :
  ∀ key c, after history ∅ !! key = Some c → (length (requests c) ≤ 60)%nat.
Proof.
  intros key c Hkey. pose proof (after_keeps_bound history key c Hkey) as Hb.
  unfold maxRequestsPerMinute in Hb. lia.
Qed.

Lemma windows_never_exceed_minute_cap_witness :
  after [check "dev-1" "sync" 5; sweep 7; check "dev-1" "sync" 9] ∅
    !! clientKey "dev-1" "sync" = Some (Client [5; 9] 5 0)
  ∧ (length (requests (Client [5; 9]%Z 5%Z 0)) ≤ 60)%nat.
Proof.
  assert (after [check "dev-1" "sync" 5; sweep 7; check "dev-1" "sync" 9] ∅
            !! clientKey "dev-1" "sync" = Some (Client [5; 9] 5 0)) as Hkey
    by (vm_compute; reflexivity).
  split; [exact Hkey|].
  exact (windows_never_exceed_minute_cap _ _ _ Hkey).
Defined.

(** *** A client that keeps one second between its requests *)

Lemma spaced_from_weaken lo lo' l :
  lo' ≤ lo → spaced_from lo l → spaced_from lo' l.
Proof. destruct l as [|x l]; [done|]. simpl. intros ? [? ?]. split; [lia|done]. Qed.

Lemma spaced_from_newer_than b l : ∀ lo,
  spaced_from lo l → spaced_from (Z.max lo (b + 1)) (newer_than b l).
Proof.
  induction l as [|x l IH]; intros lo; [done|]. simpl. intros [Hlo Hrest].
  unfold newer_than in *. rewrite filter_cons. case_decide as Hx.
  - simpl. split; [lia|].
    apply (spaced_from_weaken (Z.max (x + 1000) (b + 1))); [lia|by apply IH].
  - apply (spaced_from_weaken (Z.max (x + 1000) (b + 1))); [lia|by apply IH].
Qed.

Lemma spaced_from_length hi l : ∀ lo,
  spaced_from lo l → Forall (λ x, x ≤ hi) l → l ≠ [] →
  1000 * (Z.of_nat (length l) - 1) ≤ hi - lo.
Proof.
  induction l as [|x l IH]; intros lo Hsp Hhi Hne; [done|].
  simpl in Hsp. destruct Hsp as [Hlo Hrest].
  apply Forall_cons in Hhi as [Hx Hhi].
  destruct l as [|y l]; [simpl; lia|].
  specialize (IH (x + 1000) Hrest Hhi ltac:(done)).
  cbn [length] in *. lia.
Qed.

Lemma spaced_from_snoc l t : ∀ lo,
  spaced_from lo l → Forall (λ x, x + 1000 ≤ t) l → lo ≤ t →
  spaced_from lo (l ++ [t]).
Proof.
  induction l as [|x l IH]; intros lo Hsp Hall Hlo; simpl; [done|].
  simpl in Hsp. destruct Hsp as [Hx Hrest]. apply Forall_cons in Hall as [Hxt Hall].
  split; [done|]. apply IH; [done|done|lia].
Qed.

Lemma steady_accept clients clientId endpoint T c t :
  clients !! clientKey clientId endpoint = Some c →
  steady_window T c → T + 1000 ≤ t →
  ∃ d clients' c',
    isAllowed clients clientId endpoint t = (d, clients')
    ∧ allowed d = true
    ∧ clients' !! clientKey clientId endpoint = Some c'
    ∧ steady_window t c'.
Proof.
  intros Hc [[lo Hsp] Hall] Ht.
  set (reqs := newer_than (t - 60000) (requests c)).
  assert (spaced_from (Z.max lo (t - 60000 + 1)) reqs) as Hsp'
    by by apply spaced_from_newer_than.
  assert (Forall (λ x, x ≤ T) reqs) as Hall' by by apply newer_than_Forall_le.
  assert (Z.of_nat (length reqs) < 60) as Hlen.
  { destruct (decide (reqs = [])) as [->|Hne]; [simpl; lia|].
    pose proof (spaced_from_length T reqs _ Hsp' Hall' Hne). lia. }
  assert (newer_than (t - 1000) reqs = []) as Hrecent.
  { apply newer_than_none. eapply Forall_impl; [exact Hall'|]. intros; simpl in *; lia. }
  rewrite (isAllowed_lookup_Some _ _ _ _ _ Hc). cbv zeta. fold reqs.
  rewrite Hrecent.
  rewrite bool_decide_eq_false_2 by (unfold maxRequestsPerMinute; lia).
  rewrite bool_decide_eq_false_2 by (unfold maxRequestsPerSecond; simpl; lia).
  eexists _, _, _. split_and!; [done|done|apply lookup_insert_eq|].
  cbn [requests]. split.
  - destruct (decide (reqs = [])) as [->|Hne].
    + exists t. simpl. split; [lia|done].
    + exists (Z.max lo (t - 60000 + 1)). apply spaced_from_snoc; [done| |].
      * eapply Forall_impl; [exact Hall'|]. intros; simpl in *; lia.
      * destruct reqs as [|x reqs']; [done|]. simpl in Hsp'.
        apply Forall_cons in Hall' as [? _]. lia.
  - apply Forall_app. split.
    + eapply Forall_impl; [exact Hall'|]. intros; simpl in *; lia.
    + apply Forall_singleton. lia.
Qed.

Lemma run_steady clientId endpoint times : ∀ clients T c,
  clients !! clientKey clientId endpoint = Some c →
  steady_window T c → spaced_from (T + 1000) times →
  Forall (λ d, allowed d = true) (run clients clientId endpoint times).1.
Proof.
  induction times as [|t times IH]; intros clients T c Hc Hst Hsp.
  { simpl. constructor. }
  simpl in Hsp. destruct Hsp as [Ht Hrest].
  destruct (steady_accept _ _ _ _ _ _ Hc Hst Ht) as (d & clients' & c' & Hrun & Hd & Hc' & Hst').
  rewrite run_cons, Hrun. cbn [fst snd]. constructor; [done|].
  by apply (IH clients' t c').
Qed.

(** A client new to the limiter that leaves at least one second between
    its requests is never refused, however long it goes on: neither cap
    is ever reached. *)
Theorem one_request_per_second_is_never_refused
    (clients : gmap string client) (clientId endpoint : string)
    (lo : Z) (times : list Z) :
  clients !! clientKey clientId endpoint = None →
  spaced_from lo times →
  Forall (λ d, allowed d = true) (run clients clientId endpoint times).1.
Proof.
  intros Hnew Hsp. destruct times as [|t times]; [constructor|].
  simpl in Hsp. destruct Hsp as [_ Hrest].
  rewrite run_cons. cbn [fst].
  assert (isAllowed clients clientId endpoint t
          = (Decision true (maxRequestsPerMinute - 1) None None,
             <[clientKey clientId endpoint := Client [t] t 0]> clients)) as Hfirst
    by (unfold isAllowed; by rewrite Hnew).
  rewrite Hfirst. cbn [fst snd]. constructor; [done|].
  apply (run_steady _ _ _ _ t (Client [t] t 0)); [apply lookup_insert_eq| |done].
  split; [exists t; simpl; split; [lia|done]|]. apply Forall_singleton. simpl. lia.
Qed.

Lemma one_request_per_second_is_never_refused_witness :
  Forall (λ d, allowed d = true)
    (run ∅ "10.0.0.7" "/api/sales" [0; 1000; 2500; 3500]).1.
Proof.
  apply (one_request_per_second_is_never_refused ∅ "10.0.0.7" "/api/sales" 0).
  - apply lookup_empty.
  - simpl. lia.
Defined.

(** *** Clients are limited independently of each other *)

Lemma isAllowed_as_insert (clients : gmap string client) clientId endpoint now :
  ∃ d c', ∀ clients' : gmap string client,
    clients' !! clientKey clientId endpoint = clients !! clientKey clientId endpoint →
    isAllowed clients' clientId endpoint now
    = (d, <[clientKey clientId endpoint := c']> clients').
Proof.
  destruct (clients !! clientKey clientId endpoint) as [c|] eqn:Hc.
  - destruct (isAllowed clients clientId endpoint now) as [d m] eqn:Hrun.
    rewrite (isAllowed_lookup_Some _ _ _ _ _ Hc) in Hrun. cbv zeta in Hrun.
    repeat case_bool_decide; simplify_eq;
      eexists _, _; intros clients' Hc';
      rewrite (isAllowed_lookup_Some _ _ _ _ _ Hc'); cbv zeta;
      repeat case_bool_decide; try lia; reflexivity.
  - eexists _, _. intros clients' Hc'. unfold isAllowed. rewrite Hc'. reflexivity.
Qed.

(** Checks of two clients with different keys do not influence each
    other: each gets the decision it would get alone, and the limiter
    ends in the same state in either order. *)
Theorem checks_of_different_clients_commute
    (clients : gmap string client)
    (idA endpointA idB endpointB : string) (tA tB : Z) :
  clientKey idA endpointA ≠ clientKey idB endpointB →
  let A_first := isAllowed clients idA endpointA tA in
  let B_second := isAllowed A_first.2 idB endpointB tB in
  let B_first := isAllowed clients idB endpointB tB in
  let A_second := isAllowed B_first.2 idA endpointA tA in
  A_first.1 = A_second.1 ∧ B_first.1 = B_second.1 ∧ B_second.2 = A_second.2.
Proof.
  intros Hne.
  destruct (isAllowed_as_insert clients idA endpointA tA) as (dA & cA & HA).
  destruct (isAllowed_as_insert clients idB endpointB tB) as (dB & cB & HB).
  cbv zeta.
  rewrite (HA clients eq_refl), (HB clients eq_refl). cbn [fst snd].
  rewrite (HB (<[clientKey idA endpointA := cA]> clients))
    by by rewrite lookup_insert_ne.
  rewrite (HA (<[clientKey idB endpointB := cB]> clients))
    by (rewrite lookup_insert_ne; [done|by apply not_eq_sym]).
  cbn [fst snd]. split_and!; [done|done|].
  by apply insert_insert_ne, not_eq_sym.
Qed.

Lemma checks_of_different_clients_commute_witness :
  let A_first := isAllowed busy_clients "10.0.0.7" "/api/sales" 61000 in
  let B_second := isAllowed A_first.2 "10.0.0.8" "/api/sales" 61005 in
  let B_first := isAllowed busy_clients "10.0.0.8" "/api/sales" 61005 in
  let A_second := isAllowed B_first.2 "10.0.0.7" "/api/sales" 61000 in
  A_first.1 = A_second.1 ∧ B_first.1 = B_second.1 ∧ B_second.2 = A_second.2.
Proof.
  apply (checks_of_different_clients_commute
           busy_clients "10.0.0.7" "/api/sales" "10.0.0.8" "/api/sales" 61000 61005).
  vm_compute. discriminate.
Defined.

(** *** The sweep is invisible to admission *)

Lemma newer_than_none_iff bound l :
  length (newer_than bound l) = 0%nat → Forall (λ x, x ≤ bound) l.
Proof.
  intros Hlen. apply Forall_forall. intros x Hx.
  destruct (decide (bound < x)) as [Hlt|]; [|lia].
  assert (x ∈ newer_than bound l) as Hin by (apply list_elem_of_filter; done).
  destruct (newer_than bound l); [by apply elem_of_nil in Hin|done].
Qed.

(** Running [cleanup] at any moment changes nothing in what a later
    admission check answers (allowed, remaining, resetTime), nor in the
    window that check leaves: the sweep only drops instants and clients
    that the check would no longer count. *)
Theorem cleanup_never_changes_a_later_decision
    (clients : gmap string client) (swept later : Z)
    (clientId endpoint : string) :
  swept ≤ later →
  let with_sweep := isAllowed (cleanup clients swept) clientId endpoint later in
  let without := isAllowed clients clientId endpoint later in
  allowed with_sweep.1 = allowed without.1
  ∧ remaining with_sweep.1 = remaining without.1
  ∧ resetTime with_sweep.1 = resetTime without.1
  ∧ requests <$> with_sweep.2 !! clientKey clientId endpoint
    = requests <$> without.2 !! clientKey clientId endpoint.
Proof.
  intros Hle. cbv zeta.
  destruct (clients !! clientKey clientId endpoint) as [c|] eqn:Hc.
  - pose proof (cleanup_lookup clients swept (clientKey clientId endpoint)) as Hswept.
    rewrite Hc in Hswept. simpl in Hswept.
    rewrite (isAllowed_lookup_Some _ _ _ _ _ Hc). cbv zeta.
    unfold cleanup_client in Hswept.
    destruct (bool_decide (length (newer_than (swept - 3600000) (requests c)) = 0%nat)
              && bool_decide (lastReset c < swept - 3600000)) eqn:Hdrop.
    + apply andb_true_iff in Hdrop as [Hempty _].
      apply bool_decide_eq_true in Hempty.
      apply newer_than_none_iff in Hempty.
      assert (newer_than (later - 60000) (requests c) = []) as Hnone.
      { apply newer_than_none. eapply Forall_impl; [exact Hempty|].
        intros; simpl in *; lia. }
      rewrite Hnone. simpl.
      unfold isAllowed. rewrite Hswept. cbn [fst snd].
      rewrite !lookup_insert_eq. done.
    + rewrite (isAllowed_lookup_Some _ _ _ _ _ Hswept). cbv zeta. cbn [requests].
      assert (newer_than (later - 60000) (newer_than (swept - 3600000) (requests c))
              = newer_than (later - 60000) (requests c)) as Habsorb.
      { unfold newer_than. apply list_filter_filter_l. intros x ?. lia. }
      rewrite Habsorb.
      repeat case_bool_decide; cbn [fst snd allowed remaining resetTime];
        rewrite !lookup_insert_eq; done.
  - pose proof (cleanup_lookup clients swept (clientKey clientId endpoint)) as Hswept.
    rewrite Hc in Hswept. simpl in Hswept.
    unfold isAllowed. rewrite Hc, Hswept. cbn [fst snd].
    rewrite !lookup_insert_eq. done.
Qed.

Lemma cleanup_never_changes_a_later_decision_witness :
  let with_sweep := isAllowed (cleanup busy_clients 4000000) "10.0.0.7" "/api/sales" 4000001 in
  let without := isAllowed busy_clients "10.0.0.7" "/api/sales" 4000001 in
  allowed with_sweep.1 = allowed without.1
  ∧ remaining with_sweep.1 = remaining without.1
  ∧ resetTime with_sweep.1 = resetTime without.1
  ∧ requests <$> with_sweep.2 !! clientKey "10.0.0.7" "/api/sales"
    = requests <$> without.2 !! clientKey "10.0.0.7" "/api/sales".
Proof.
  apply (cleanup_never_changes_a_later_decision
           busy_clients 4000000 4000001 "10.0.0.7" "/api/sales").
  lia.
Defined.

(** *** The figures of getStats *)

Lemma windows_bounded_insert_None (clients : gmap string client) key c :
  clients !! key = None →
  windows_bounded (<[key := c]> clients) →
  windows_bounded clients ∧ Z.of_nat (length (requests c)) ≤ maxRequestsPerMinute.
Proof.
  intros Hnone Hb. split.
  - intros k c' Hk. apply (Hb k c').
    rewrite lookup_insert_ne; [done|]. intros ->. congruence.
  - apply (Hb key c). apply lookup_insert_eq.
Qed.

Lemma getStats_fold_bounds (clients : gmap string client) (n : nat) :
  let stats :=
    map_fold
      (λ (_ : string) c stats,
         LimiterStats (totalClients stats)
           (if bool_decide (0 < length (requests c))%nat
            then S (activeClients stats) else activeClients stats)
           (totalRequests stats + length (requests c))
           (totalViolations stats + violations c))
      (LimiterStats n 0 0 0) clients in
  totalClients stats = n
  ∧ (activeClients stats ≤ size clients)%nat
  ∧ (windows_bounded clients →
     (totalRequests stats ≤ 60 * activeClients stats)%nat).
Proof.
  cbv zeta.
  apply (map_fold_weak_ind
           (λ (stats : limiter_stats) (m : gmap string client),
              totalClients stats = n
              ∧ (activeClients stats ≤ size m)%nat
              ∧ (windows_bounded m →
                 (totalRequests stats ≤ 60 * activeClients stats)%nat))).
  - split_and!; [done|simpl; lia|simpl; lia].
  - intros key c m stats Hnone (Htotal & Hactive & Hreqs).
    rewrite map_size_insert_None by done. cbn [totalClients activeClients totalRequests].
    split_and!; [done|case_bool_decide; lia|].
    intros Hb. apply windows_bounded_insert_None in Hb as [Hb Hc]; [|done].
    specialize (Hreqs Hb). unfold maxRequestsPerMinute in Hc.
    case_bool_decide; lia.
Qed.

Lemma getStats_bounds (clients : gmap string client) :
  totalClients (getStats clients) = size clients
  ∧ (activeClients (getStats clients) ≤ size clients)%nat
  ∧ (windows_bounded clients →
     (totalRequests (getStats clients) ≤ 60 * activeClients (getStats clients))%nat).
Proof. unfold getStats. exact (getStats_fold_bounds clients (size clients)). Qed.

(** Whatever checks and sweeps the limiter has gone through, the
    figures it reports are coherent: the clients counted active are
    among the clients counted, and the instants counted are at most 60
    for each active client. *)
Theorem getStats_is_coherent (history : list activity) :
  let stats := getStats (after history ∅) in
  (activeClients stats ≤ totalClients stats)%nat
  ∧ (totalRequests stats ≤ 60 * activeClients stats)%nat.
Proof.
  cbv zeta.
  destruct (getStats_bounds (after history ∅)) as (Htotal & Hactive & Hreqs).
  split; [lia|]. apply Hreqs, after_keeps_bound.
Qed.

End RateLimiterMore.

(** ** The registry of connections: heartbeat, eviction, fan-out *)

Module RegistryProps.
Import WebSocketManager BroadcastProps Scenarios.

Lemma filter_ext_in {A} (P Q : A → Prop) `{∀ x, Decision (P x)} `{∀ x, Decision (Q x)}
    (l : list A) :
  (∀ x, x ∈ l → (P x ↔ Q x)) → filter P l = filter Q l.
Proof.
  induction l as [|x l IH]; intros Hext; [done|].
  rewrite !filter_cons.
  assert (filter P l = filter Q l) as ->
    by (apply IH; intros y Hy; apply Hext; by right).
  pose proof (Hext x ltac:(left)) as Hx.
  destruct (decide (P x)), (decide (Q x)); tauto || done.
Qed.

Lemma filter_id_in {A} (P : A → Prop) `{∀ x, Decision (P x)} (l : list A) :
  (∀ x, x ∈ l → P x) → filter P l = l.
Proof.
  induction l as [|x l IH]; intros Hall; [done|].
  rewrite filter_cons_True by (apply Hall; left).
  f_equal. apply IH. intros y Hy. apply Hall. by right.
Qed.

Lemma map_get_None ws (clients : registry) :
  map_get ws clients = None ↔ ws ∉ clients.*1.
Proof.
  induction clients as [|[k v] clients IH]; simpl.
  - split; [intros _; apply not_elem_of_nil|done].
  - case_bool_decide as Hk.
    + subst. split; [done|]. intros Hn. exfalso. apply Hn. left.
    + rewrite IH. rewrite not_elem_of_cons.
      split; [intros ?; split; [congruence|done]|by intros [_ ?]].
Qed.

Lemma map_get_Some ws info (clients : registry) :
  map_get ws clients = Some info → (ws, info) ∈ clients.
Proof.
  induction clients as [|[k v] clients IH]; simpl; [done|].
  case_bool_decide as Hk.
  - intros [= ->]. subst. left.
  - intros Hg. right. by apply IH.
Qed.

Lemma map_get_elem ws info (clients : registry) :
  is_map clients → (ws, info) ∈ clients → map_get ws clients = Some info.
Proof.
  unfold is_map. induction clients as [|[k v] clients IH]; simpl; intros Hnd Hin.
  { by apply elem_of_nil in Hin. }
  apply NoDup_cons in Hnd as [Hk Hnd].
  apply elem_of_cons in Hin as [[= -> ->]|Hin].
  - by rewrite bool_decide_eq_true_2.
  - case_bool_decide as Heq; [|by apply IH].
    subst. exfalso. apply Hk. apply list_elem_of_fmap. by exists (ws, info).
Qed.

Lemma is_map_entry_eq (clients : registry) e e' :
  is_map clients → e ∈ clients → e' ∈ clients → e.1 = e'.1 → e = e'.
Proof.
  intros Hm He He' Heq. destruct e as [ws info], e' as [ws' info']. simpl in Heq. subst.
  pose proof (map_get_elem _ _ _ Hm He). pose proof (map_get_elem _ _ _ Hm He').
  congruence.
Qed.

Lemma removeClient_filter ws (clients : registry) :
  removeClient ws clients = filter (λ e, e.1 ≠ ws) clients.
Proof.
  unfold removeClient, map_delete. destruct (map_get ws clients) eqn:Hg; [done|].
  apply map_get_None in Hg. symmetry. unfold registry in *.
  induction clients as [|[k v] clients IH]; [done|].
  rewrite fmap_cons, not_elem_of_cons in Hg. destruct Hg as [Hk Hg].
  simpl in Hk. rewrite filter_cons_True by (simpl; congruence). f_equal. by apply IH.
Qed.

Lemma is_map_filter (P : socket * clientInfo → Prop) `{∀ x, Decision (P x)}
    (clients : registry) :
  is_map clients → is_map (filter P clients).
Proof.
  unfold is_map, registry in *. induction clients as [|e clients IH]; [done|].
  rewrite fmap_cons, NoDup_cons. intros [Hk Hnd]. rewrite filter_cons.
  destruct (decide (P e)); [|by apply IH].
  rewrite fmap_cons, NoDup_cons. split; [|by apply IH].
  intros Hin. apply Hk. apply list_elem_of_fmap in Hin as (e' & -> & Hin).
  apply list_elem_of_filter in Hin as [_ Hin]. apply list_elem_of_fmap. by exists e'.
Qed.

Lemma is_map_removeClient ws clients : is_map clients → is_map (removeClient ws clients).
Proof. rewrite removeClient_filter. apply is_map_filter. Qed.

Lemma map_set_keys ws info info0 (clients : registry) :
  map_get ws clients = Some info0 → (map_set ws info clients).*1 = clients.*1.
Proof.
  induction clients as [|[k v] clients IH]; simpl; [done|].
  case_bool_decide; [done|]. intros Hg. simpl. f_equal. by apply IH.
Qed.

Lemma map_get_map_set ws ws' info (clients : registry) :
  map_get ws' (map_set ws info clients)
  = if bool_decide (ws' = ws) then Some info else map_get ws' clients.
Proof.
  induction clients as [|[k v] clients IH]; simpl.
  - repeat case_bool_decide; congruence.
  - destruct (decide (k = ws)) as [->|Hk].
    + rewrite bool_decide_eq_true_2 by done. simpl.
      repeat case_bool_decide; congruence.
    + rewrite (bool_decide_eq_false_2 (k = ws)) by done. simpl. rewrite IH.
      repeat case_bool_decide; congruence.
Qed.

(** *** The sweep *)

Lemma sweep_fold net (dead : list socket) : ∀ (clients : registry) (out : list socket),
  fold_left
    (λ st ws,
       (removeClient ws st.1,
        if bool_decide (readyState net ws = OPEN) then st.2 ++ [ws] else st.2))
    dead (clients, out)
  = (filter (λ e, e.1 ∉ dead) clients,
     out ++ filter (λ ws, readyState net ws = OPEN) dead).
Proof.
  unfold registry. induction dead as [|ws dead IH]; intros clients out.
  - simpl. rewrite app_nil_r. f_equal. symmetry.
    apply filter_id_in. intros x _. apply not_elem_of_nil.
  - cbn [fold_left fst snd]. rewrite IH. f_equal.
    + rewrite removeClient_filter. unfold registry.
      rewrite list_filter_filter. apply filter_ext_in.
      intros x _. rewrite not_elem_of_cons. tauto.
    + rewrite filter_cons. case_bool_decide as Hopen.
      * rewrite decide_True by done. by rewrite <- app_assoc.
      * by rewrite decide_False by done.
Qed.

Lemma sweep_keeps_the_live_connections_aux
    (net : transport) (now : Z) (clients : registry) :
  is_map clients →
  cleanupDeadConnections net now clients
  = (filter (λ e, ¬ timed_out now e.2) clients,
     (filter (λ e, timed_out now e.2 ∧ readyState net e.1 = OPEN) clients).*1).
Proof.
  intros Hm. unfold cleanupDeadConnections. rewrite sweep_fold.
  unfold registry in *. f_equal.
  - apply filter_ext_in. intros e He. split.
    + intros Hn Hdead. apply Hn. apply list_elem_of_fmap. exists e. split; [done|].
      by apply list_elem_of_filter.
    + intros Hlive Hin. apply list_elem_of_fmap in Hin as (e' & Heq & Hin).
      apply list_elem_of_filter in Hin as [Hdead Hin].
      by rewrite (is_map_entry_eq clients e e' Hm He Hin Heq) in Hlive.
  - simpl.
    rewrite (list_filter_iff (λ e : socket * clientInfo,
                                timed_out now e.2 ∧ readyState net e.1 = OPEN)
               (λ e, readyState net e.1 = OPEN ∧ timed_out now e.2)) by (intros; tauto).
    rewrite <- list_filter_filter.
    generalize (filter (λ e : socket * clientInfo, timed_out now e.2) clients).
    intros l. induction l as [|e l IH]; [done|].
    rewrite fmap_cons, !filter_cons. simpl.
    destruct (decide (readyState net e.1 = OPEN)); [rewrite fmap_cons|]; by rewrite IH.
Qed.

(** [cleanupDeadConnections] leaves exactly the connections that have
    been heard of in the last 60 seconds and are marked alive, in their
    order, and terminates exactly the open ones among those it removes. *)
Theorem sweep_keeps_the_live_connections
    (net : transport) (now : Z) (clients : registry) :
  is_map clients →
  cleanupDeadConnections net now clients
  = (filter (λ e, ¬ timed_out now e.2) clients,
     (filter (λ e, timed_out now e.2 ∧ readyState net e.1 = OPEN) clients).*1).
Proof. apply sweep_keeps_the_live_connections_aux. Qed.

Lemma map_get_filter (P : socket * clientInfo → Prop) `{∀ x, Decision (P x)}
    ws (clients : registry) :
  is_map clients →
  map_get ws (filter P clients)
  = map_get ws clients ≫= λ info, if decide (P (ws, info)) then Some info else None.
Proof.
  intros Hm. destruct (map_get ws clients) as [info|] eqn:Hg; simpl.
  - apply map_get_Some in Hg. destruct (decide (P (ws, info))) as [HP|HP].
    + apply map_get_elem; [by apply is_map_filter|]. by apply list_elem_of_filter.
    + apply map_get_None. intros Hin.
      apply list_elem_of_fmap in Hin as (e' & Heq & Hin).
      apply list_elem_of_filter in Hin as [HP' Hin].
      apply HP. by rewrite (is_map_entry_eq clients (ws, info) e' Hm Hg Hin Heq).
  - apply map_get_None. apply map_get_None in Hg. intros Hin. apply Hg.
    apply list_elem_of_fmap in Hin as (e' & Heq & Hin).
    apply list_elem_of_filter in Hin as [_ Hin]. apply list_elem_of_fmap. by exists e'.
Qed.

Lemma ping_clients_keys net (clients : registry) :
  (ping_clients net clients).1.*1 = clients.*1.
Proof.
  unfold ping_clients. cbn [fst]. unfold registry in *.
  induction clients as [|e clients IH]; [done|].
  rewrite !fmap_cons. f_equal; [|done]. by case_bool_decide.
Qed.

Lemma map_get_ping_clients net ws (clients : registry) :
  map_get ws (ping_clients net clients).1
  = (λ info, if bool_decide (readyState net ws = OPEN)
             then ClientInfo (deviceId info) (connectedAt info) (lastPing info) false
             else info) <$> map_get ws clients.
Proof.
  unfold ping_clients. cbn [fst]. unfold registry in *.
  induction clients as [|[k v] clients IH]; [done|].
  rewrite fmap_cons. cbn [fst snd].
  destruct (decide (k = ws)) as [->|Hk].
  - destruct (bool_decide (readyState net ws = OPEN)); simpl;
      by rewrite bool_decide_eq_true_2.
  - destruct (bool_decide (readyState net k = OPEN)); simpl;
      rewrite (bool_decide_eq_false_2 (k = ws)) by done; apply IH.
Qed.

Lemma is_map_markClientAlive ws t clients :
  is_map clients → is_map (markClientAlive ws t clients).
Proof.
  unfold is_map, markClientAlive. destruct (map_get ws clients) eqn:Hg; [|done].
  by rewrite (map_set_keys _ _ _ _ Hg).
Qed.

Lemma map_get_markClientAlive ws ws' t clients :
  map_get ws' (markClientAlive ws t clients)
  = if bool_decide (ws' = ws)
    then (λ info, ClientInfo (deviceId info) (connectedAt info) t true) <$> map_get ws clients
    else map_get ws' clients.
Proof.
  unfold markClientAlive. destruct (map_get ws clients) as [info|] eqn:Hg.
  - rewrite map_get_map_set. by case_bool_decide.
  - case_bool_decide; [by subst|done].
Qed.

(** *** One round of the heartbeat *)

(** An open connection that has been pinged and is not heard of until
    the next sweep is removed by that sweep, and terminated if it is
    still open; one that answers the ping, the answer being less than
    60 seconds old at the sweep, stays. *)
Theorem silent_connection_is_evicted_at_the_next_sweep
    (net net' : transport) (now : Z) (ws : socket) (info : clientInfo)
    (clients : registry) :
  is_map clients →
  map_get ws clients = Some info →
  readyState net ws = OPEN →
  let pinged := (ping_clients net clients).1 in
  map_get ws (cleanupDeadConnections net' now pinged).1 = None
  ∧ (readyState net' ws = OPEN → ws ∈ (cleanupDeadConnections net' now pinged).2)
  ∧ (∀ t, now - t ≤ 60000 →
       map_get ws (cleanupDeadConnections net' now (Server.on_pong ws t pinged)).1
       = Some (ClientInfo (deviceId info) (connectedAt info) t true)).
Proof.
  intros Hm Hg Hopen pinged.
  assert (is_map pinged) as Hmp by (unfold is_map, pinged; by rewrite ping_clients_keys).
  assert (map_get ws pinged
          = Some (ClientInfo (deviceId info) (connectedAt info) (lastPing info) false))
    as Hgp.
  { unfold pinged. rewrite map_get_ping_clients, Hg. simpl.
    by rewrite bool_decide_eq_true_2. }
  split_and!.
  - rewrite (sweep_keeps_the_live_connections_aux _ _ _ Hmp). cbn [fst].
    rewrite map_get_filter by done. rewrite Hgp. simpl.
    rewrite decide_False; [done|]. cbn [snd]. unfold timed_out. simpl.
    rewrite orb_true_r. intros Hn. by apply Hn.
  - intros Hopen'. rewrite (sweep_keeps_the_live_connections_aux _ _ _ Hmp). cbn [snd].
    apply list_elem_of_fmap. eexists (ws, _). split; [done|].
    apply list_elem_of_filter. split; [|by apply map_get_Some].
    cbn [fst snd]. split; [|done]. unfold timed_out. simpl. by rewrite orb_true_r.
  - intros t Ht. unfold Server.on_pong.
    rewrite (sweep_keeps_the_live_connections_aux _ _ _ (is_map_markClientAlive _ _ _ Hmp)).
    cbn [fst]. rewrite map_get_filter by by apply is_map_markClientAlive.
    rewrite map_get_markClientAlive, bool_decide_eq_true_2 by done.
    rewrite Hgp. simpl. rewrite decide_True; [done|].
    cbn [snd]. unfold timed_out. simpl.
    rewrite bool_decide_eq_false_2 by lia. simpl. by intros [].
Qed.

(** *** Closing a connection that is no longer registered *)

Lemma removeClient_absent ws clients :
  map_get ws clients = None → removeClient ws clients = clients.
Proof. unfold removeClient. by intros ->. Qed.

Lemma on_close_absent net ws clock clients :
  map_get ws clients = None → Server.on_close net ws clock clients = (clients, []).
Proof. intros Hg. unfold Server.on_close. by rewrite Hg, removeClient_absent. Qed.

Lemma map_get_removeClient ws clients :
  is_map clients → map_get ws (removeClient ws clients) = None.
Proof.
  intros Hm. rewrite removeClient_filter, map_get_filter by done.
  destruct (map_get ws clients); [|done]. simpl. by rewrite decide_False by (by intros ?).
Qed.

(** Peers are not told that a device has gone when its connection was
    removed by the sweep, or by the error handler, before the close
    event is handled: by then the registry no longer knows the
    connection, and [device_disconnected] is sent to nobody. *)
Theorem evicted_connection_closes_silently
    (net net' : transport) (now clock : Z) (ws : socket) (info : clientInfo)
    (clients : registry) :
  is_map clients →
  map_get ws clients = Some info →
  (timed_out now info →
   Server.on_close net' ws clock (cleanupDeadConnections net now clients).1
   = ((cleanupDeadConnections net now clients).1, []))
  ∧ Server.on_close net' ws clock (Server.on_error ws clients)
    = (Server.on_error ws clients, []).
Proof.
  intros Hm Hg. split.
  - intros Hdead. apply on_close_absent.
    rewrite (sweep_keeps_the_live_connections_aux _ _ _ Hm). cbn [fst].
    rewrite map_get_filter, Hg by done. simpl. by rewrite decide_False by (by intros Hn).
  - apply on_close_absent. unfold Server.on_error. by apply map_get_removeClient.
Qed.

(** *** broadcastToDevice *)

Lemma fold_removeClient (ks : list socket) : ∀ clients : registry,
  fold_left (λ c ws, removeClient ws c) ks clients = filter (λ e, e.1 ∉ ks) clients.
Proof.
  unfold registry. induction ks as [|ws ks IH]; intros clients.
  - simpl. symmetry. apply filter_id_in. intros x _. apply not_elem_of_nil.
  - cbn [fold_left]. rewrite IH, removeClient_filter. unfold registry.
    rewrite list_filter_filter. apply filter_ext_in.
    intros x _. rewrite not_elem_of_cons. tauto.
Qed.

Lemma filter_not_in_keys (P : socket * clientInfo → Prop) `{∀ x, Decision (P x)}
    (clients : registry) :
  is_map clients →
  filter (λ e, e.1 ∉ (filter P clients).*1) clients = filter (λ e, ¬ P e) clients.
Proof.
  intros Hm. apply filter_ext_in. intros e He. split.
  - intros Hn HP. apply Hn. apply list_elem_of_fmap. exists e. split; [done|].
    by apply list_elem_of_filter.
  - intros Hlive Hin. apply list_elem_of_fmap in Hin as (e' & Heq & Hin).
    apply list_elem_of_filter in Hin as [HP Hin].
    by rewrite (is_map_entry_eq clients e e' Hm He Hin Heq) in Hlive.
Qed.

Section ToDevice.
Context {message : Type}.
Variable net : transport.
Variable data : message.
Variable dev : string.

Lemma fold_send_device (l : registry) : ∀ sent (clients : registry) out,
  fold_left (send_device net data dev) l (sent, clients, out)
  = (sent || bool_decide
               (filter (λ e, readyState net e.1 = OPEN ∧ deviceId e.2 = Some dev
                             ∧ send_throws net e.1 = false) l ≠ []),
     fold_left (λ c ws, removeClient ws c)
       (filter (λ e, readyState net e.1 = OPEN ∧ deviceId e.2 = Some dev
                     ∧ send_throws net e.1 = true) l).*1 clients,
     out ++ ((λ e, (e.1, data)) <$>
               filter (λ e, readyState net e.1 = OPEN ∧ deviceId e.2 = Some dev
                            ∧ send_throws net e.1 = false) l)).
Proof.
  unfold registry. induction l as [|[ws info] l IH]; intros sent clients out.
  { simpl. by rewrite orb_false_r, app_nil_r. }
  cbn [fold_left]. rewrite !filter_cons. cbn [fst snd].
  unfold send_device at 2.
  destruct (decide (readyState net ws = OPEN)) as [Hopen|Hopen];
    [rewrite (bool_decide_eq_true_2 _ Hopen)|rewrite (bool_decide_eq_false_2 _ Hopen)];
    cbn [andb].
  2:{ rewrite IH. rewrite !decide_False by (by intros [? _]). done. }
  destruct (decide (deviceId info = Some dev)) as [Hdev|Hdev];
    [rewrite (bool_decide_eq_true_2 _ Hdev)|rewrite (bool_decide_eq_false_2 _ Hdev)].
  2:{ rewrite IH. rewrite !decide_False by (by intros (_ & ? & _)). done. }
  destruct (send_throws net ws) eqn:Hthrows; rewrite IH.
  - rewrite decide_False by (by intros (_ & _ & ?)).
    rewrite decide_True by done. done.
  - rewrite decide_True by done.
    rewrite decide_False by (by intros (_ & _ & ?)).
    rewrite fmap_cons, <- app_assoc. cbn [fst app].
    rewrite (bool_decide_eq_true_2 (_ :: _ ≠ [])) by done.
    by rewrite orb_true_r.
Qed.

End ToDevice.

(** [broadcastToDevice] hands the message to the open connections bound
    to that device and to no other; it answers [true] exactly when one
    of these sends returned, and removes the connections whose send
    raised and only those. *)
Theorem device_message_goes_to_its_open_connections_only
    {message : Type} (net : transport) (clients : registry) (dev : string)
    (data : message) :
  is_map clients →
  broadcastToDevice net clients dev data
  = (bool_decide
       (filter (λ e, readyState net e.1 = OPEN ∧ deviceId e.2 = Some dev
                     ∧ send_throws net e.1 = false) clients ≠ []),
     filter (λ e, ¬ (readyState net e.1 = OPEN ∧ deviceId e.2 = Some dev
                     ∧ send_throws net e.1 = true)) clients,
     (λ e, (e.1, data)) <$>
       filter (λ e, readyState net e.1 = OPEN ∧ deviceId e.2 = Some dev
                    ∧ send_throws net e.1 = false) clients).
Proof.
  intros Hm. unfold broadcastToDevice. rewrite fold_send_device.
  rewrite fold_removeClient, filter_not_in_keys by done. done.
Qed.

(** *** What broadcast reports, and whom it removes *)

Section Report.
Context {message : Type}.
Variable net : transport.
Variable data : message.
Variable excludeDeviceId : option string.

Lemma batches_first (clients : registry) :
  batches clients = []
  ∨ ∃ later, batches clients = take batchSize clients :: later.
Proof.
  unfold batches.
  destruct ((length clients + batchSize - 1) / batchSize)%nat as [|n]; [by left|].
  right. rewrite <- cons_seq. cbn [map]. rewrite Nat.mul_0_l, drop_0. by eexists.
Qed.

Lemma batches_nil (clients : registry) : batches clients = [] → clients = [].
Proof.
  intros Hb. pose proof (concat_batches clients) as Hc. by rewrite Hb in Hc.
Qed.

Lemma returned_first_batch (clients : registry) :
  returned (broadcast net clients data excludeDeviceId)
  = (length (filter (accepted net excludeDeviceId) (take batchSize clients)),
     length (filter (refused net excludeDeviceId) (take batchSize clients))).
Proof.
  unfold broadcast. destruct (batches_first clients) as [Hb|[later Hb]]; rewrite Hb.
  - apply batches_nil in Hb. by subst.
  - cbn [returned]. unfold sendBatch.
    destruct (fold_send_one net data excludeDeviceId (take batchSize clients)
                (Fanout 0 0 clients [] [])) as (_ & _ & Hs & Hf).
    cbv zeta in Hs, Hf. by rewrite Hs, Hf.
Qed.

Lemma fold_send_one_clients (l : registry) : ∀ st : fanout,
  clients_after (fold_left (send_one net data excludeDeviceId) l st)
  = fold_left (λ c ws, removeClient ws c)
      (filter (refused net excludeDeviceId) l).*1 (clients_after st).
Proof.
  unfold registry. induction l as [|e l IH]; intros st; [done|].
  cbn [fold_left]. rewrite IH, filter_cons.
  destruct (send_one_cases net data excludeDeviceId st e) as [[Ha ->]|[[Hr ->]|[Hn ->]]];
    cbn [clients_after].
  - rewrite decide_False; [done|]. intros [_ Hr]. destruct Ha as [_ Ha]. congruence.
  - by rewrite decide_True by done.
  - rewrite decide_False; [done|]. by intros [? _].
Qed.

End Report.

Lemma broadcast_clients_after
    {message : Type} (net : transport) (clients : registry) (data : message)
    (excludeDeviceId : option string) :
  is_map clients →
  clients_after (completed (broadcast net clients data excludeDeviceId))
  = filter (λ e, ¬ refused net excludeDeviceId e) clients.
Proof.
  intros Hm. rewrite broadcast_completed, fold_send_one_clients. cbn [clients_after].
  by rewrite fold_removeClient, filter_not_in_keys.
Qed.

Lemma broadcast_delivered
    {message : Type} (net : transport) (clients : registry) (data : message)
    (excludeDeviceId : option string) :
  delivered (completed (broadcast net clients data excludeDeviceId))
  = (λ e, (e.1, e.2, data)) <$> filter (accepted net excludeDeviceId) clients.
Proof.
  rewrite broadcast_completed.
  destruct (fold_send_one net data excludeDeviceId clients (Fanout 0 0 clients [] []))
    as (Hd & _).
  cbv zeta in Hd. by rewrite Hd.
Qed.

(** The counters [broadcast] returns, which the handlers report as
    [clientsNotified] and [broadcasted], cover the first 50 entries of
    the registry only: they are the counts of the whole fan-out when
    there are at most 50 connections, and leave out every later batch
    otherwise. *)
Theorem broadcast_reports_its_first_batch_only
    {message : Type} (net : transport) (clients : registry) (data : message)
    (excludeDeviceId : option string) :
  let r := broadcast net clients data excludeDeviceId in
  returned r
  = (length (filter (accepted net excludeDeviceId) (take 50 clients)),
     length (filter (refused net excludeDeviceId) (take 50 clients)))
  ∧ (successCount (completed r), failureCount (completed r))
    = (length (filter (accepted net excludeDeviceId) clients),
       length (filter (refused net excludeDeviceId) clients))
  ∧ ((length clients ≤ 50)%nat →
     returned r = (successCount (completed r), failureCount (completed r))).
Proof.
  cbv zeta.
  assert (returned (broadcast net clients data excludeDeviceId)
          = (length (filter (accepted net excludeDeviceId) (take 50 clients)),
             length (filter (refused net excludeDeviceId) (take 50 clients)))) as Hret
    by apply returned_first_batch.
  assert ((successCount (completed (broadcast net clients data excludeDeviceId)),
           failureCount (completed (broadcast net clients data excludeDeviceId)))
          = (length (filter (accepted net excludeDeviceId) clients),
             length (filter (refused net excludeDeviceId) clients))) as Hall.
  { rewrite broadcast_completed.
    destruct (fold_send_one net data excludeDeviceId clients (Fanout 0 0 clients [] []))
      as (_ & _ & Hs & Hf).
    cbv zeta in Hs, Hf. by rewrite Hs, Hf. }
  split_and!; [done|done|].
  intros Hlen. rewrite Hret, Hall. by rewrite take_ge by done.
Qed.

(** When the fan-out is over, the registry has lost exactly the
    connections on which [ws.send] raised; every other connection,
    whether it was sent to or not, is still there, in its place. *)
Theorem broadcast_removes_the_connections_that_failed
    {message : Type} (net : transport) (clients : registry) (data : message)
    (excludeDeviceId : option string) :
  is_map clients →
  clients_after (completed (broadcast net clients data excludeDeviceId))
  = filter (λ e, ¬ refused net excludeDeviceId e) clients.
Proof. apply broadcast_clients_after. Qed.

(** *** Messages on the channel *)

Lemma is_map_updateClientDevice ws dev clients :
  is_map clients → is_map (updateClientDevice ws dev clients).
Proof.
  unfold is_map, updateClientDevice. destruct (map_get ws clients) eqn:Hg; [|done].
  by rewrite (map_set_keys _ _ _ _ Hg).
Qed.

Lemma map_get_updateClientDevice ws dev clients info :
  map_get ws clients = Some info →
  map_get ws (updateClientDevice ws dev clients)
  = Some (ClientInfo (Some dev) (connectedAt info) (lastPing info) (isAlive info)).
Proof.
  intros Hg. unfold updateClientDevice. rewrite Hg, map_get_map_set.
  by rewrite bool_decide_eq_true_2.
Qed.

(** The connection of a device survives the fan-out of an event that
    excludes this device: nothing is sent on it, so no send can fail. *)
Lemma excluded_connection_stays {message : Type} net clients (data : message) ws info :
  is_map clients →
  map_get ws clients = Some info →
  map_get ws (clients_after (completed (broadcast net clients data (deviceId info))))
  = Some info.
Proof.
  intros Hm Hg. rewrite broadcast_clients_after, map_get_filter, Hg by done. simpl.
  rewrite decide_True; [done|]. intros [[_ Hdev] _]. by apply Hdev.
Qed.

Section Messages.
Import Store Server.
Variable net : transport.


(** Every message received on a connection counts as a sign of life,
    whatever it holds and whether or not the limiter lets it through:
    a registered connection is marked alive as of the message, and the
    handler neither adds nor loses the connection. *)
Lemma on_message_registry
    (ws : socket) (ws_deviceId : option string) (clientId : string)
    (clock : Z) (e : env) (data : ws_message) (st : server) :
  is_map (s_clients st) →
  let out := on_message net ws ws_deviceId clientId clock e data st in
  is_map (s_clients out.1.1)
  ∧ last_seen <$> map_get ws (s_clients out.1.1)
    = (λ _, Some clock) <$> map_get ws (s_clients st).
Proof.
  intros Hm. cbv zeta.
  pose proof (is_map_markClientAlive ws clock _ Hm) as Hm1.
  pose proof (map_get_markClientAlive ws ws clock (s_clients st)) as Hg1.
  rewrite bool_decide_eq_true_2 in Hg1 by done.
  assert (is_map (markClientAlive ws clock (s_clients st))
          ∧ last_seen <$> map_get ws (markClientAlive ws clock (s_clients st))
            = (λ _, Some clock) <$> map_get ws (s_clients st)) as Hsame.
  { split; [done|]. rewrite Hg1. by destruct (map_get ws (s_clients st)). }
  unfold on_message.
  destruct (RateLimiter.isAllowed _ _ _ _) as [d limiter1]. cbn [fst snd].
  destruct (RateLimiter.allowed d); cbn [negb]; [|exact Hsame].
  unfold dispatch. destruct data as [|devOpt deviceName deviceType| | |type];
    try exact Hsame.
  - destruct (falsy_string devOpt); [exact Hsame|]. cbn [s_db s_clients].
    destruct (registerDevice _ _ _ _ _) as [[error|[]] db']; [exact Hsame|].
    cbn [fst snd s_clients].
    pose proof (is_map_updateClientDevice ws (default "" devOpt) _ Hm1) as Hm2.
    split.
    + rewrite broadcast_clients_after by done. by apply is_map_filter.
    + destruct (map_get ws (s_clients st)) as [info|] eqn:Hg; simpl in Hg1.
      * pose proof (map_get_updateClientDevice ws (default "" devOpt) _ _ Hg1) as Hg2.
        cbn [connectedAt lastPing isAlive] in Hg2.
        pose proof (excluded_connection_stays net _
                      (device_connected (default "" devOpt) deviceName clock) ws _ Hm2 Hg2)
          as Hstay.
        cbn [deviceId] in Hstay. by rewrite Hstay.
      * rewrite broadcast_clients_after, map_get_filter by done.
        unfold updateClientDevice. rewrite Hg1. by rewrite Hg1.
  - cbn [s_clients]. by destruct (getClientStats _) as [[total withDeviceId] byDevice].
Qed.

End Messages.

(** *** The heartbeat *)

Section Heartbeat.
Import Store Server.
Variables (ws : socket) (ws_deviceId : option string) (clientId : string).

(** One happening, seen from the entry of the connection. *)
Lemma happen_registry (h : happening) (st : server) :
  is_map (s_clients st) →
  is_map (s_clients (happen ws ws_deviceId clientId st h))
  ∧ last_seen <$> map_get ws (s_clients (happen ws ws_deviceId clientId st h))
    = (last_seen <$> map_get ws (s_clients st)) ≫= λ seen,
        match h with
        | sweep_timer _ now =>
            match seen with
            | Some clock => if bool_decide (now - clock ≤ 60000) then Some seen else None
            | None => None
            end
        | ping_timer net =>
            Some (if bool_decide (readyState net ws = OPEN) then None else seen)
        | message_received _ clock _ _ | pong_received clock => Some (Some clock)
        end.
Proof.
  intros Hm. destruct h as [net now|net|net clock e data|clock]; cbn [happen s_clients].
  - rewrite (sweep_keeps_the_live_connections_aux _ _ _ Hm). cbn [fst].
    split; [by apply is_map_filter|].
    rewrite map_get_filter by done.
    destruct (map_get ws (s_clients st)) as [info|]; [|done]. simpl.
    unfold timed_out, last_seen. cbn [snd].
    destruct (isAlive info) eqn:Halive; simpl.
    + destruct (decide (now - lastPing info ≤ 60000)) as [Hle|Hgt].
      * rewrite (bool_decide_eq_true_2 _ Hle), decide_True.
        { simpl. by rewrite Halive. }
        rewrite bool_decide_eq_false_2 by lia. by intros [].
      * rewrite (bool_decide_eq_false_2 _ Hgt), decide_False; [done|].
        rewrite bool_decide_eq_true_2 by lia. by intros H; apply H.
    + rewrite decide_False; [done|]. rewrite orb_true_r. by intros H; apply H.
  - split.
    + unfold is_map. rewrite ping_clients_keys. exact Hm.
    + rewrite map_get_ping_clients.
      destruct (map_get ws (s_clients st)) as [info|]; [|done]. simpl.
      by case_bool_decide.
  - destruct (on_message_registry net ws ws_deviceId clientId clock e data st Hm)
      as [Hm' Hg'].
    split; [exact Hm'|]. rewrite Hg'. by destruct (map_get ws (s_clients st)).
  - unfold on_pong. split; [by apply is_map_markClientAlive|].
    rewrite map_get_markClientAlive, bool_decide_eq_true_2 by done.
    by destruct (map_get ws (s_clients st)).
Qed.

Lemma happened_registry (history : list happening) :
  ∀ st, is_map (s_clients st) →
    is_Some (map_get ws (s_clients (happened ws ws_deviceId clientId history st)))
    ↔ ∃ info, map_get ws (s_clients st) = Some info
              ∧ shows_life ws (last_seen info) history = true.
Proof.
  induction history as [|h history IH]; intros st Hm.
  - cbn [happened fold_left]. split.
    + intros [info Hg]. by exists info.
    + intros (info & Hg & _). by exists info.
  - change (happened ws ws_deviceId clientId (h :: history) st)
      with (happened ws ws_deviceId clientId history (happen ws ws_deviceId clientId st h)).
    destruct (happen_registry h st Hm) as [Hm' Hg'].
    rewrite (IH _ Hm'). clear IH.
    destruct (map_get ws (s_clients st)) as [info|];
      destruct (map_get ws (s_clients (happen ws ws_deviceId clientId st h)))
        as [info'|]; simpl in Hg'.
    + assert (shows_life ws (last_seen info) (h :: history)
              = shows_life ws (last_seen info') history) as Heq.
      { destruct h as [net now|net|net clock e data|clock]; cbn [shows_life].
        - destruct (last_seen info) as [seen|]; [|done].
          case_bool_decide; [|done]. by injection Hg' as ->.
        - by injection Hg' as ->.
        - by injection Hg' as ->.
        - by injection Hg' as ->. }
      split.
      * intros (? & [= <-] & Hs). exists info. by rewrite Heq.
      * intros (? & [= <-] & Hs). exists info'. by rewrite <- Heq.
    + split; [by intros (? & ? & _)|]. intros (? & [= <-] & Hs). exfalso.
      destruct h as [net now|net|net clock e data|clock]; cbn [shows_life] in Hs;
        try done.
      destruct (last_seen info) as [seen|]; [|done].
      case_bool_decide; [done|]. by rewrite andb_false_l in Hs.
    + done.
    + split; by intros (? & ? & _).
Qed.

(** As long as nothing but the two timers and the messages and pongs
    of a registered connection acts on the registry (no close, no error,
    no event of another connection or of a request whose sending to it
    fails), the connection is still registered after any history of
    these exactly when every sweep found a sign of life: a message or a
    pong received since the last ping sent to the connection, and no
    more than 60 s before the sweep.  A message keeps the connection
    through the sweeps that come before the next ping, not through
    those after it. *)
Theorem connection_stays_exactly_while_it_shows_life
    (st : server) (info : clientInfo) (history : list happening) :
  is_map (s_clients st) →
  map_get ws (s_clients st) = Some info →
  is_Some (map_get ws (s_clients (happened ws ws_deviceId clientId history st)))
  ↔ shows_life ws (last_seen info) history = true.
Proof.
  intros Hm Hg. rewrite (happened_registry history st Hm). split.
  - by intros (? & [= <-]%(eq_trans (eq_sym Hg)) & Hs).
  - intros Hs. by exists info.
Qed.

End Heartbeat.

(** *** Instances *)

Lemma is_map_three_clients : is_map three_clients.
Proof. unfold is_map. apply (bool_decide_unpack (NoDup _)). vm_compute. exact I. Qed.

Lemma is_map_heartbeat_clients : is_map heartbeat_clients.
Proof. unfold is_map. apply (bool_decide_unpack (NoDup _)). vm_compute. exact I. Qed.

Lemma sweep_keeps_the_live_connections_witness :
  cleanupDeadConnections flaky 70000 heartbeat_clients
  = ([(1%nat, ClientInfo (Some "device-A") 0 50000 true)], [2%nat]).
Proof.
  rewrite (sweep_keeps_the_live_connections flaky 70000 heartbeat_clients
             is_map_heartbeat_clients).
  vm_compute. reflexivity.
Defined.

Lemma silent_connection_is_evicted_at_the_next_sweep_witness :
  map_get 1%nat
    (cleanupDeadConnections online 30000 (ping_clients online three_clients).1).1
  = None.
Proof.
  exact (proj1 (silent_connection_is_evicted_at_the_next_sweep
                  online online 30000 1%nat (ClientInfo (Some "device-A") 0 0 true)
                  three_clients is_map_three_clients eq_refl eq_refl)).
Defined.

Lemma evicted_connection_closes_silently_witness :
  Server.on_close online 2%nat 70001 (cleanupDeadConnections flaky 70000 heartbeat_clients).1
  = ((cleanupDeadConnections flaky 70000 heartbeat_clients).1, []).
Proof.
  apply (proj1 (evicted_connection_closes_silently
                  flaky online 70000 70001 2%nat
                  (ClientInfo (Some "device-B") 0 69000 false)
                  heartbeat_clients is_map_heartbeat_clients eq_refl)).
  vm_compute. exact I.
Defined.

Lemma device_message_goes_to_its_open_connections_only_witness :
  broadcastToDevice flaky heartbeat_clients "device-A" "hello"
  = (true, heartbeat_clients, [(1%nat, "hello")]).
Proof.
  rewrite (device_message_goes_to_its_open_connections_only
             flaky heartbeat_clients "device-A" "hello" is_map_heartbeat_clients).
  vm_compute. reflexivity.
Defined.

Lemma broadcast_removes_the_connections_that_failed_witness :
  clients_after (completed (broadcast flaky heartbeat_clients "hello" (Some "device-A")))
  = [ (1%nat, ClientInfo (Some "device-A") 0 50000 true);
      (3%nat, ClientInfo None 0 0 true) ].
Proof.
  rewrite (broadcast_removes_the_connections_that_failed
             flaky heartbeat_clients "hello" (Some "device-A") is_map_heartbeat_clients).
  vm_compute. reflexivity.
Defined.


Lemma connection_stays_exactly_while_it_shows_life_witness :
  is_Some
    (map_get 1%nat
       (Server.s_clients
          (Server.happened 1%nat None "10.0.0.7_1" answering busy_server))).
Proof.
  apply (proj2 (connection_stays_exactly_while_it_shows_life
                  1%nat None "10.0.0.7_1" busy_server
                  (ClientInfo (Some "device-A") 0 0 true) answering
                  is_map_three_clients eq_refl)).
  vm_compute. reflexivity.
Defined.

(** A message at 10 s, no pong to the ping at 30 s: gone at 60 s. *)
Example message_does_not_outlast_the_next_ping :
  map_get 1%nat
    (Server.s_clients
       (Server.happened 1%nat None "10.0.0.7_1" (take 3 silent_after_a_message)
          busy_server))
  = Some (ClientInfo (Some "device-A") 0 10000 false)
  ∧ map_get 1%nat
      (Server.s_clients
         (Server.happened 1%nat None "10.0.0.7_1" silent_after_a_message busy_server))
    = None.
Proof. vm_compute. done. Qed.

End RegistryProps.

(** ** Request metrics *)

Module PerformanceMonitorProps.
Import PerformanceMonitor.

Lemma recorded_snoc calls call :
  recorded (calls ++ [call]) = recordRequest call.1 call.2 (recorded calls).
Proof. unfold recorded. by rewrite fold_left_app. Qed.

Lemma tail_drop {A} (l : list A) (k : nat) : tail (drop k l) = drop (S k) l.
Proof.
  revert k. induction l as [|x l IH]; intros [|k]; simpl; done.
Qed.

(** Whatever requests have been recorded, the counters add up (every
    call is counted once, as a success or as an error), and
    [response_times] holds the positive response times of the calls in
    their order, the last 1000 of them when there were more. *)
Theorem recorded_requests_add_up_and_keep_the_last_thousand_times
    (calls : list (bool * Z)) :
  let m := recorded calls in
  let positive := filter (λ t, 0 < t) calls.*2 in
  total (requests m) = length calls
  ∧ success (requests m) = length (filter (λ call, call.1 = true) calls)
  ∧ errors (requests m) = length (filter (λ call, call.1 = false) calls)
  ∧ (success (requests m) + errors (requests m))%nat = total (requests m)
  ∧ response_times m = drop (length positive - 1000) positive
  ∧ (length (response_times m) ≤ 1000)%nat.
Proof.
  cbv zeta.
  assert (total (requests (recorded calls)) = length calls
          ∧ success (requests (recorded calls))
            = length (filter (λ call, call.1 = true) calls)
          ∧ errors (requests (recorded calls))
            = length (filter (λ call, call.1 = false) calls)
          ∧ response_times (recorded calls)
            = drop (length (filter (λ t, 0 < t) calls.*2) - 1000)
                (filter (λ t, 0 < t) calls.*2)) as (Ht & Hs & He & Hr).
  { induction calls as [|[ok t] calls IH] using rev_ind; [done|].
    destruct IH as (Ht & Hs & He & Hr).
    rewrite recorded_snoc. unfold recordRequest. cbn [fst snd requests total success errors
      response_times].
    rewrite fmap_app, !filter_app, !length_app, Ht, Hs, He, Hr. simpl.
    split_and!.
    - lia.
    - rewrite filter_cons, filter_nil. destruct ok; simpl; lia.
    - rewrite filter_cons, filter_nil. destruct ok; simpl; lia.
    - rewrite (filter_cons _ t), filter_nil.
      set (positive := filter (λ t, 0 < t) calls.*2).
      case_bool_decide as Hpos.
      + rewrite decide_True by done. cbn [length].
        rewrite length_drop.
        rewrite <- (drop_app_le positive [t]) by lia.
        case_bool_decide as Hfull.
        * rewrite tail_drop. f_equal. lia.
        * f_equal. lia.
      + rewrite decide_False by done. rewrite app_nil_r. cbn [length].
        by rewrite Nat.add_0_r. }
  split_and!; try done.
  - rewrite Hs, He, Ht. clear.
    induction calls as [|[[] t] calls IH]; [done| |];
      rewrite !filter_cons; simpl; lia.
  - rewrite Hr, length_drop. lia.
Qed.

End PerformanceMonitorProps.

(** ** The REST handlers: failures, outcomes, sequences *)

Module HandlersMore.
Import Store WebSocketManager Server StoreProps ServerProps Scenarios.

Lemma handleDatabaseError_twice error :
  handleDatabaseError (handleDatabaseError error)
  = mapped_error "UNKNOWN_ERROR" "An unexpected database error occurred" 500.
Proof.
  unfold handleDatabaseError at 2.
  destruct (error_code error) as [c|]; [|done]. cbn [mbind option_bind].
  unfold errorMap, assoc.
  repeat (case_bool_decide; [done|]). done.
Qed.

(** What the [catch] of the PUT and DELETE handlers would report of an
    error thrown by the store calls: it has been mapped once by
    [executeQuery] or [executeTransaction], and the second mapping no
    longer finds its code. *)
Lemma mutation_catch_reads_unknown_error error :
  error = connect_error ∨ error = type_error
  ∨ (∃ s, error = handleDatabaseError (pg_error s)) →
  handleDatabaseError error
  = mapped_error "UNKNOWN_ERROR" "An unexpected database error occurred" 500.
Proof.
  intros [->|[->|[s ->]]]; [done|done|]. apply handleDatabaseError_twice.
Qed.

Lemma mutation_catch_thrown error : mutation_catch error = handler_rejected.
Proof. done. Qed.

Lemma executeQuery_error {A} (q : query A) e db error db' :
  executeQuery q e db = (inl error, db') →
  db' = db ∧ (error = connect_error ∨ ∃ s, error = handleDatabaseError (pg_error s)).
Proof.
  unfold executeQuery. destruct (connects e); [|intros [= <- <-]; eauto].
  destruct (fault e); [intros [= <- <-]; eauto|].
  destruct (q e db) as [err|[a db1]]; [intros [= <- <-]; eauto|done].
Qed.

Lemma executeTransaction_error {A} (ops : list (query A)) e db error db' :
  executeTransaction ops e db = (inl error, db') →
  db' = db ∧ (error = connect_error ∨ ∃ s, error = handleDatabaseError (pg_error s)).
Proof.
  unfold executeTransaction. destruct (connects e); [|intros [= <- <-]; eauto].
  destruct (fault e); [intros [= <- <-]; eauto|].
  destruct (run_operations ops e db) as [err|[a db1]]; [intros [= <- <-]; eauto|done].
Qed.

Lemma executeQuery_unreachable {A} (q : query A) e db :
  connects e = false ∨ is_Some (fault e) →
  ∃ error, executeQuery q e db = (inl error, db)
           ∧ (error = connect_error ∨ ∃ s, error = handleDatabaseError (pg_error s)).
Proof.
  unfold executeQuery. intros [->|[s Hs]]; [eauto|].
  destruct (connects e); [|eauto]. rewrite Hs. eauto.
Qed.

Section Failures.
Variable net : transport.

Lemma put_read_answered_None req e db r db' :
  put_read req e db = (put_answered r, db') →
  status r = None → r = handler_rejected.
Proof.
  unfold put_read.
  destruct (falsy_string _); [by intros [= <- <-]|].
  destruct (_ || _); [by intros [= <- <-]|].
  destruct (executeQuery _ _ _) as [[error|[|currentSale rows]] db0] eqn:Hq.
  - intros [= <- <-] _. apply executeQuery_error in Hq as [_ Herr].
    apply mutation_catch_thrown.
  - by intros [= <- <-].
  - repeat (match goal with
            | |- context [if ?b then _ else _] => destruct b
            end; try (intros [= <- <-]; done)).
Qed.

Lemma update_sale_active sid p dev e db OLD :
  sales db !! sid = Some OLD → is_deleted OLD = false →
  (∃ err, update_sale sid p dev e db = inl err)
  ∨ (∃ r db', update_sale sid p dev e db = inr ([r], db')).
Proof.
  intros Hrow Hdel. unfold update_sale. rewrite Hrow, Hdel.
  destruct (update_row _ _ _ _ _) as [err|[r db']]; eauto.
Qed.

Lemma put_sale_None req e_read e_write e_log clock w :
  let o := put_sale net req e_read e_write e_log clock w in
  status (o_response o) = None →
  o = Outcome handler_rejected w [].
Proof.
  cbv zeta. unfold put_sale. destruct w as [db clients]. cbn [w_db w_clients].
  destruct (put_read req e_read db) as [[r|device_id currentSale] db0] eqn:Hread.
  { cbn [o_response]. intros Hst.
    rewrite (put_read_answered_None _ _ _ _ _ Hread Hst).
    pose proof (put_read_db req e_read db) as Hdb. rewrite Hread in Hdb.
    simpl in Hdb. by subst. }
  apply put_read_proceeds in Hread as (-> & _ & _ & Hrow & Hdel & _).
  unfold put_write, put_update, put_log. cbn [w_db w_clients].
  destruct (executeTransaction [update_sale (put_id req) (put_patch req) device_id]
              e_write db) as [[error|results] db1] eqn:Htx.
  { apply executeTransaction_error in Htx as [-> Herr]. intros _.
    rewrite mutation_catch_thrown. done. }
  destruct (executeTransaction_single
              (update_sale (put_id req) (put_patch req) device_id) e_write db)
    as [[error Herr]|(rows & db1' & Hok & Hup)]; [congruence|].
  rewrite Hok in Htx. injection Htx as <- <-.
  destruct (update_sale_active (put_id req) (put_patch req) device_id e_write db _
              Hrow Hdel) as [[err Hup']|(r & db2 & Hup')]; [congruence|].
  rewrite Hup' in Hup. injection Hup as <- <-.
  destruct (logSyncOperation_frame device_id "UPDATE" "sales" (Some (put_id req))
              (Some currentSale) (head [r]) e_log db2)
    as (syncLog & db3 & -> & _).
  done.
Qed.

Lemma delete_sale_None req e_read e_write e_log clock w :
  let o := delete_sale net req e_read e_write e_log clock w in
  status (o_response o) = None →
  o = Outcome handler_rejected w [].
Proof.
  cbv zeta. unfold delete_sale. destruct w as [db clients]. cbn [w_db w_clients].
  destruct (falsy_string _); [done|]. destruct (_ || _); [done|].
  destruct (executeQuery (select_active_sale (del_id req)) e_read db)
    as [[error|[|saleToDelete rows]] db0] eqn:Hq.
  - apply executeQuery_error in Hq as [-> Herr]. intros _.
    rewrite mutation_catch_thrown. done.
  - done.
  - pose proof (executeQuery_select_db (del_id req) e_read db) as Hdb.
    rewrite Hq in Hdb. simpl in Hdb. subst db0.
    destruct (executeTransaction
                [soft_delete_sale (del_id req) (default "" (del_device_id req))]
                e_write db) as [[error|results] db1] eqn:Htx.
    { apply executeTransaction_error in Htx as [-> Herr]. intros _.
      rewrite mutation_catch_thrown. done. }
    destruct (executeTransaction_single
                (soft_delete_sale (del_id req) (default "" (del_device_id req)))
                e_write db)
      as [[error Herr]|(deleted & db1' & Hok & Hdel)]; [congruence|].
    rewrite Hok in Htx. injection Htx as <- <-.
    destruct deleted; cbn [negb]; [|done].
    destruct (logSyncOperation_frame (default "" (del_device_id req)) "DELETE" "sales"
                (Some (del_id req)) (Some saleToDelete) None e_log db1')
      as (syncLog & db2 & -> & _).
    done.
Qed.

End Failures.

(** When the store fails under an update or a delete, the handler
    reports nothing of it.  Its [catch] reads the status of the answer
    from a property the mapped error does not have, so whatever the
    error caught the answer itself raises.  A handler that ends so is
    rejected, having written nothing and broadcast nothing, and neither
    the status [handleDatabaseError] maps the cause to (400, 409, 503)
    nor its code reaches the client: the client receives the 500 of
    the error-handling middleware when Express passes the rejection on
    to it, and no answer otherwise.  This is what happens to every
    well-formed request made while the store cannot be reached. *)
Theorem store_failure_under_update_or_delete_is_not_reported :
  (∀ error, mutation_catch error = Response None rejected)
  ∧ (∀ net req e_read e_write e_log clock w,
     let o := put_sale net req e_read e_write e_log clock w in
     (status (o_response o) = None →
      o = Outcome (Response None rejected) w []
      ∧ received true (o_response o)
        = Some (Response (Some 500%nat) (error_json "Internal server error" None))
      ∧ received false (o_response o) = None)
     ∧ (falsy_string (put_device_id req) = false →
        put_id req ≠ "" → parseInt (put_id req) ≠ None →
        connects e_read = false ∨ is_Some (fault e_read) →
        status (o_response o) = None))
  ∧ (∀ net req e_read e_write e_log clock w,
       let o := delete_sale net req e_read e_write e_log clock w in
       (status (o_response o) = None →
        o = Outcome (Response None rejected) w []
        ∧ received true (o_response o)
          = Some (Response (Some 500%nat) (error_json "Internal server error" None))
        ∧ received false (o_response o) = None)
       ∧ (falsy_string (del_device_id req) = false →
          del_id req ≠ "" → parseInt (del_id req) ≠ None →
          connects e_read = false ∨ is_Some (fault e_read) →
          status (o_response o) = None)).
Proof.
  split; [done|].
  split; intros net req e_read e_write e_log clock w; cbv zeta.
  - split.
    + intros Hst. by rewrite (put_sale_None net req e_read e_write e_log clock w Hst).
    + intros Hdev Hid Hint Hdown.
      unfold put_sale, put_read. rewrite Hdev.
      rewrite (bool_decide_eq_false_2 (put_id req = "")) by done.
      rewrite (bool_decide_eq_false_2 (parseInt (put_id req) = None)) by done.
      cbn [orb].
      destruct (executeQuery_unreachable (select_active_sale (put_id req)) e_read (w_db w)
                  Hdown) as (error & -> & _).
      done.
  - split.
    + intros Hst. by rewrite (delete_sale_None net req e_read e_write e_log clock w Hst).
    + intros Hdev Hid Hint Hdown.
      unfold delete_sale. rewrite Hdev.
      rewrite (bool_decide_eq_false_2 (del_id req = "")) by done.
      rewrite (bool_decide_eq_false_2 (parseInt (del_id req) = None)) by done.
      cbn [orb].
      destruct (executeQuery_unreachable (select_active_sale (del_id req)) e_read (w_db w)
                  Hdown) as (error & -> & _).
      done.
Qed.

Lemma store_failure_under_update_or_delete_is_not_reported_witness :
  let o := put_sale offline put_by_A (shutting_down 2000 uuid_1) (at_time 2001 uuid_2)
             (at_time 2002 uuid_3) 2003 (World fresh_db []) in
  o = Outcome (Response None rejected) (World fresh_db []) []
  ∧ received true (o_response o)
    = Some (Response (Some 500%nat) (error_json "Internal server error" None))
  ∧ received false (o_response o) = None.
Proof.
  destruct (proj1 (proj2 store_failure_under_update_or_delete_is_not_reported)
              offline put_by_A (shutting_down 2000 uuid_1) (at_time 2001 uuid_2)
              (at_time 2002 uuid_3) 2003 (World fresh_db [])) as [Hrejected Hdown].
  apply Hrejected. apply Hdown.
  - reflexivity.
  - discriminate.
  - vm_compute. discriminate.
  - right. by eexists.
Defined.

(** *** Creating a sale *)

Lemma insert_sale_inr v e db r db' :
  insert_sale v e db = inr (r, db') →
  r = {| id := fresh_uuid e;
         product := n_product v; quantity := n_quantity v;
         price := n_price v; total := n_total v;
         customer := n_customer v; notes := n_notes v;
         payment_status := n_payment_status v;
         payment_method := n_payment_method v;
         amount_received := n_amount_received v;
         created_at := now e; updated_at := now e;
         version := 1;
         device_id := n_device_id v; user_id := "anonymous";
         deleted_at := None; is_deleted := false;
         last_sync_at := None; sync_status := pending |}
  ∧ sales db !! fresh_uuid e = None
  ∧ sales db' = <[fresh_uuid e := r]> (sales db)
  ∧ conflicts db' = conflicts db ∧ devices db' = devices db
  ∧ sync_log db' = sync_log db
  ∧ sales_checks r = true.
Proof.
  unfold insert_sale. destruct (sales_checks _) eqn:Hchecks; [|done].
  destruct (sales db !! fresh_uuid e) eqn:Hfree; [done|].
  intros [= <- <-]. done.
Qed.

Lemma register_device_inr dev name type e db :
  ∃ d, register_device dev name type e db
       = inr (tt, {| sales := sales db; conflicts := conflicts db;
                     sync_log := sync_log db;
                     devices := <[dev := d]> (devices db) |})
       ∧ is_active d = true ∧ last_seen_at d = now e
       ∧ (device_name d, device_type d)
         = match devices db !! dev with
           | Some d0 => (device_name d0, device_type d0)
           | None => (name, type)
           end.
Proof.
  unfold register_device. eexists. split; [done|].
  by destruct (devices db !! dev).
Qed.

Lemma post_catch_thrown_status error :
  error = connect_error ∨ error = type_error
  ∨ (∃ s, error = handleDatabaseError (pg_error s)) →
  status (post_catch error) ≠ Some 201%nat.
Proof.
  intros [->|[->|[s ->]]]; [done|done|].
  unfold post_catch, handleDatabaseError. cbn [error_code mbind option_bind].
  unfold errorMap, assoc.
  repeat (case_bool_decide; [done|]). done.
Qed.

Ltac default_of_Some :=
  repeat match goal with
         | |- context [default ?a (Some ?b)] => change (default a (Some b)) with b
         end.

Section Creation.
Variable net : transport.

(** A creation answered 201 has stored the sale it returns, under a new
    identifier, with the values of the request and the defaults for the
    fields left out, at version 1, pending and not deleted; no other row
    and no conflict has changed, and the device of the request is
    registered and active. *)
Theorem created_sale_is_stored_as_sent
    (req : post_request) (e_register e_write e_log : env) (clock : Z) (w : world) :
  let o := post_sale net req e_register e_write e_log clock w in
  status (o_response o) = Some 201%nat →
  ∃ r broadcasted clientsNotified,
    body_of (o_response o) = sale_json r broadcasted clientsNotified
    ∧ id r = fresh_uuid e_write
    ∧ sales (w_db w) !! id r = None
    ∧ sales (w_db (o_world o)) = <[id r := r]> (sales (w_db w))
    ∧ conflicts (w_db (o_world o)) = conflicts (w_db w)
    ∧ (version r, sync_status r, is_deleted r, deleted_at r) = (1, pending, false, None)
    ∧ (created_at r, updated_at r) = (now e_write, now e_write)
    ∧ (Some (quantity r), Some (price r), Some (total r), Some (customer r),
       Some (device_id r))
      = (post_quantity req, post_price req, post_total req, post_customer req,
         post_device_id req)
    ∧ (product r, notes r, payment_status r, payment_method r, amount_received r)
      = (default "Bananas" (post_product req), default "" (post_notes req),
         default "pending" (post_payment_status req),
         default "" (post_payment_method req),
         default 0 (post_amount_received req))
    ∧ 0 < quantity r ∧ 0 < price r ∧ 0 < total r ∧ customer r ≠ ""
    ∧ (∃ d, devices (w_db (o_world o)) !! device_id r = Some d ∧ is_active d = true).
Proof.
  cbv zeta. unfold post_sale.
  destruct (post_quantity req) as [q|] eqn:Hq; [|done].
  destruct (post_price req) as [p|] eqn:Hp;
    [|cbn [truthy_number negb orb]; by rewrite orb_true_r].
  destruct (post_total req) as [t|] eqn:Ht;
    [|cbn [truthy_number negb orb]; by rewrite !orb_true_r].
  destruct (post_customer req) as [c|] eqn:Hc;
    [|cbn [falsy_string]; by rewrite !orb_true_r].
  destruct (post_device_id req) as [dev|] eqn:Hd;
    [|cbn [falsy_string]; by rewrite !orb_true_r].
  cbn [truthy_number falsy_string not_positive]. default_of_Some.
  destruct (decide (q = 0)) as [->|Hq0]; [done|].
  destruct (decide (p = 0)) as [->|Hp0]; [by rewrite orb_true_r|].
  destruct (decide (t = 0)) as [->|Ht0]; [by rewrite !orb_true_r|].
  destruct (decide (c = "")) as [->|Hc0]; [by rewrite !orb_true_r|].
  destruct (decide (dev = "")) as [->|Hd0]; [by rewrite !orb_true_r|].
  rewrite !(bool_decide_eq_true_2 (_ ≠ 0)) by done.
  rewrite !(bool_decide_eq_false_2 (_ = "")) by done.
  cbn [negb orb].
  case_bool_decide as Hqpos; [done|].
  case_bool_decide as Hppos; [done|].
  case_bool_decide as Htpos; [done|].
  destruct (register_device_inr dev None "unknown" e_register (w_db w))
    as (d & Hreg & Hactive & _).
  unfold registerDevice.
  destruct (executeQuery (register_device dev None "unknown") e_register (w_db w))
    as [[error|u] db1] eqn:Hrun.
  { apply executeQuery_error in Hrun as [_ Herr]. intros Hst.
    exfalso. revert Hst. apply post_catch_thrown_status. tauto. }
  destruct (executeQuery_cases (register_device dev None "unknown") e_register (w_db w))
    as [[error Herr]|(u' & db1' & Hok & Hreg')]; [congruence|].
  rewrite Hok in Hrun. injection Hrun as <- <-.
  rewrite Hreg in Hreg'. injection Hreg' as <- <-.
  match goal with
  | |- context [executeTransaction [insert_sale ?v] e_write ?db] =>
      destruct (executeTransaction [insert_sale v] e_write db)
        as [[error|results] db2] eqn:Htx;
      [|destruct (executeTransaction_single (insert_sale v) e_write db)
          as [[error Herr]|(r & db2' & Hok2 & Hins)]; [congruence|]]
  end.
  { apply executeTransaction_error in Htx as [_ Herr]. intros Hst.
    exfalso. revert Hst. apply post_catch_thrown_status. tauto. }
  rewrite Hok2 in Htx. injection Htx as <- <-.
  apply insert_sale_inr in Hins.
  destruct Hins as (Hr & Hfree & Hsales & Hconf & Hdevs & _ & _).
  cbn [sales conflicts devices n_product n_quantity n_price n_total n_customer n_notes
       n_payment_status n_payment_method n_amount_received n_device_id] in *.
  destruct (logSyncOperation_frame dev "CREATE" "sales" (Some (id r)) None (Some r)
              e_log db2') as (syncLog & db3 & -> & Hs3 & Hc3 & Hd3).
  intros _. unfold post_respond. cbn [o_response o_world w_db body_of].
  rewrite Hs3, Hc3, Hd3, Hsales, Hconf, Hdevs.
  eexists r, _, _. subst r. cbn.
  split_and!; try done; try lia.
  exists d. split; [apply lookup_insert_eq|done].
Qed.

(** A creation that is not answered 201 has added no sale and sent no
    event; but the device was registered in a statement of its own
    before the INSERT, so for a well-formed request and a store that
    was reachable then, the device stays registered, active and seen at
    that time, whatever becomes of the INSERT. *)
Theorem failed_creation_adds_no_sale_but_keeps_the_device
    (req : post_request) (e_register e_write e_log : env) (clock : Z) (w : world)
    (q p t : Z) (c dev : string) :
  post_quantity req = Some q → 0 < q →
  post_price req = Some p → 0 < p →
  post_total req = Some t → 0 < t →
  post_customer req = Some c → c ≠ "" →
  post_device_id req = Some dev → dev ≠ "" →
  connects e_register = true → fault e_register = None →
  let o := post_sale net req e_register e_write e_log clock w in
  (∃ d, devices (w_db (o_world o)) !! dev = Some d
        ∧ is_active d = true ∧ last_seen_at d = now e_register)
  ∧ (status (o_response o) ≠ Some 201%nat →
     sales (w_db (o_world o)) = sales (w_db w)
     ∧ conflicts (w_db (o_world o)) = conflicts (w_db w)
     ∧ w_clients (o_world o) = w_clients w
     ∧ o_sent o = []).
Proof.
  intros Hq Hq0 Hp Hp0 Ht Ht0 Hc Hc0 Hd Hd0 Hconn Hfault. cbv zeta.
  unfold post_sale. rewrite Hq, Hp, Ht, Hc, Hd.
  cbn [truthy_number falsy_string not_positive]. default_of_Some.
  rewrite !(bool_decide_eq_true_2 (_ ≠ 0)) by lia.
  rewrite !(bool_decide_eq_false_2 (_ = "")) by done.
  rewrite !(bool_decide_eq_false_2 (_ ≤ 0)) by lia.
  cbn [negb orb].
  destruct (register_device_inr dev None "unknown" e_register (w_db w))
    as (d & Hreg & Hactive & Hseen & _).
  unfold registerDevice, executeQuery. rewrite Hconn, Hfault, Hreg.
  match goal with
  | |- context [executeTransaction [insert_sale ?v] e_write ?db] =>
      destruct (executeTransaction_single (insert_sale v) e_write db)
        as [[error ->]|(r & db2 & -> & Hins)]
  end.
  { cbn [o_world w_db devices sales conflicts w_clients o_sent].
    split; [|done]. exists d. split; [apply lookup_insert_eq|done]. }
  apply insert_sale_inr in Hins.
  destruct Hins as (_ & _ & _ & _ & Hdevs & _ & _).
  cbn [devices] in Hdevs.
  destruct (logSyncOperation_frame dev "CREATE" "sales" (Some (id r)) None (Some r)
              e_log db2) as (syncLog & db3 & -> & Hs3 & Hc3 & Hd3).
  unfold post_respond. cbn [o_response o_world w_db status json].
  split; [|done].
  rewrite Hd3, Hdevs. exists d. split; [apply lookup_insert_eq|done].
Qed.

End Creation.

Lemma created_sale_is_stored_as_sent_witness :
  let o := post_sale offline post_by_C (at_time 3000 uuid_1) (at_time 3001 uuid_2)
             (at_time 3002 uuid_3) 3003 (World fresh_db []) in
  ∃ r, sales (w_db (o_world o)) = <[uuid_2 := r]> (sales fresh_db)
       ∧ customer r = "Cleo" ∧ product r = "Bananas" ∧ version r = 1.
Proof.
  destruct (created_sale_is_stored_as_sent offline post_by_C (at_time 3000 uuid_1)
              (at_time 3001 uuid_2) (at_time 3002 uuid_3) 3003 (World fresh_db []))
    as (r & b & n & _ & Hid & _ & Hsales & _ & Hv & _ & Hreq & Hdef & _).
  { vm_compute. reflexivity. }
  exists r. cbn [fresh_uuid at_time] in Hid. rewrite Hid in Hsales.
  unfold post_by_C in Hreq, Hdef. cbn in Hreq, Hdef.
  injection Hreq as _ _ _ Hcustomer _. injection Hdef as Hproduct _ _ _ _.
  injection Hv as Hversion _ _ _.
  split_and!; [exact Hsales|exact Hcustomer|exact Hproduct|exact Hversion].
Defined.

Lemma failed_creation_adds_no_sale_but_keeps_the_device_witness :
  let o := post_sale offline post_by_C (at_time 3000 uuid_1) (shutting_down 3001 uuid_2)
             (at_time 3002 uuid_3) 3003 (World fresh_db []) in
  (∃ d, devices (w_db (o_world o)) !! "device-C" = Some d
        ∧ is_active d = true ∧ last_seen_at d = 3000)
  ∧ devices fresh_db !! "device-C" = None
  ∧ sales (w_db (o_world o)) = sales fresh_db.
Proof.
  destruct (failed_creation_adds_no_sale_but_keeps_the_device offline post_by_C
              (at_time 3000 uuid_1) (shutting_down 3001 uuid_2) (at_time 3002 uuid_3)
              3003 (World fresh_db []) 200 150 300 "Cleo" "device-C")
    as [Hdev Hrest]; try reflexivity; try discriminate.
  split_and!; [exact Hdev|reflexivity|].
  apply Hrest. vm_compute. discriminate.
Defined.

(** *** After a delete *)

Section AfterDelete.
Variable net : transport.




End AfterDelete.



(** *** What an update writes *)

Lemma update_row_same_version e sid OLD NEW db r db' :
  version NEW = version OLD →
  update_row e sid OLD NEW db = inr (r, db') →
  r = update_updated_at_column e OLD
        (if bool_decide (device_id OLD = device_id NEW) then NEW
         else set_sync_status conflict NEW)
  ∧ sales db' = <[sid := r]> (sales db).
Proof.
  intros Hv Hup. apply update_row_inr in Hup as (Hr & _ & Hsales & _).
  rewrite (conflict_condition_same_version _ _ Hv) in Hr.
  split; [|done]. rewrite Hr. by repeat case_bool_decide.
Qed.

Lemma put_sale_200_row
    (net : transport) (req : put_request) (e_read e_write e_log : env)
    (clock : Z) (w : world) :
  let o := put_sale net req e_read e_write e_log clock w in
  status (o_response o) = Some 200%nat →
  ∃ OLD r dev broadcasted clientsNotified,
    sales (w_db w) !! put_id req = Some OLD
    ∧ put_device_id req = Some dev
    ∧ body_of (o_response o) = sale_json r broadcasted clientsNotified
    ∧ sales (w_db (o_world o)) = <[put_id req := r]> (sales (w_db w))
    ∧ mutable_fields r
      = (default (product OLD) (p_product (put_patch req)),
         default (quantity OLD) (p_quantity (put_patch req)),
         default (price OLD) (p_price (put_patch req)),
         default (total OLD) (p_total (put_patch req)),
         default (customer OLD) (p_customer (put_patch req)),
         default (notes OLD) (p_notes (put_patch req)),
         default (payment_status OLD) (p_payment_status (put_patch req)),
         default (payment_method OLD) (p_payment_method (put_patch req)),
         default (amount_received OLD) (p_amount_received (put_patch req)))
    ∧ (id r, created_at r, user_id r, is_deleted r, deleted_at r, last_sync_at r)
      = (id OLD, created_at OLD, user_id OLD, false, deleted_at OLD, last_sync_at OLD)
    ∧ (device_id r, updated_at r, version r) = (dev, now e_write, version OLD + 1)
    ∧ sync_status r = (if bool_decide (device_id OLD = dev) then pending else conflict).
Proof.
  cbv zeta. unfold put_sale.
  destruct (put_read req e_read (w_db w)) as [[r|dev0 currentSale] db0] eqn:Hread.
  { intros Hst. by apply put_read_answered_status in Hread. }
  apply put_read_proceeds in Hread as (-> & Hdev & _ & Hrow & Hdel & _).
  unfold put_write, put_update, put_log. cbn [w_db w_clients].
  destruct (executeTransaction_single
              (update_sale (put_id req) (put_patch req) dev0) e_write (w_db w))
    as [[error ->]|(rows & db1 & -> & Hup)]; [done|].
  destruct (logSyncOperation_frame dev0 "UPDATE" "sales" (Some (put_id req))
              (Some currentSale) (head rows) e_log db1)
    as (syncLog & db2 & -> & Hs & _).
  unfold update_sale in Hup. rewrite Hrow, Hdel in Hup.
  destruct (update_row _ _ _ _ _) as [err|[r db1']] eqn:Hrowup; [done|].
  injection Hup as <- <-.
  apply update_row_same_version in Hrowup as [Hr Hsales]; [|done].
  intros _. unfold put_respond. cbn [head o_response o_world w_db body_of json].
  rewrite Hs, Hsales.
  eexists currentSale, r, dev0, _, _.
  change (device_id (put_set_clause (put_patch req) dev0 e_write currentSale))
    with dev0 in Hr.
  split_and!; [done|done|done|done|..]; rewrite Hr;
    destruct (bool_decide (device_id currentSale = dev0)); cbn; by rewrite ?Hdel.
Qed.

(** An update answered 200 has replaced the row by the row it returns:
    the columns named in the request take the values sent, every other
    business column keeps its value; the row is stamped with the device
    and the time of the write, is one version up, and is pending, or in
    conflict when the row was last written by another device.  No other
    row has changed. *)
Theorem update_changes_the_supplied_fields_only
    (net : transport) (req : put_request) (e_read e_write e_log : env)
    (clock : Z) (w : world) :
  let o := put_sale net req e_read e_write e_log clock w in
  status (o_response o) = Some 200%nat →
  ∃ OLD r dev broadcasted clientsNotified,
    sales (w_db w) !! put_id req = Some OLD
    ∧ put_device_id req = Some dev
    ∧ body_of (o_response o) = sale_json r broadcasted clientsNotified
    ∧ sales (w_db (o_world o)) = <[put_id req := r]> (sales (w_db w))
    ∧ mutable_fields r
      = (default (product OLD) (p_product (put_patch req)),
         default (quantity OLD) (p_quantity (put_patch req)),
         default (price OLD) (p_price (put_patch req)),
         default (total OLD) (p_total (put_patch req)),
         default (customer OLD) (p_customer (put_patch req)),
         default (notes OLD) (p_notes (put_patch req)),
         default (payment_status OLD) (p_payment_status (put_patch req)),
         default (payment_method OLD) (p_payment_method (put_patch req)),
         default (amount_received OLD) (p_amount_received (put_patch req)))
    ∧ (id r, created_at r, user_id r, is_deleted r, deleted_at r, last_sync_at r)
      = (id OLD, created_at OLD, user_id OLD, false, deleted_at OLD, last_sync_at OLD)
    ∧ (device_id r, updated_at r, version r) = (dev, now e_write, version OLD + 1)
    ∧ sync_status r = (if bool_decide (device_id OLD = dev) then pending else conflict).
Proof. apply put_sale_200_row. Qed.

Lemma update_changes_the_supplied_fields_only_witness :
  let o := put_sale offline put_by_A (at_time 2000 uuid_1) (at_time 2001 uuid_2)
             (at_time 2002 uuid_3) 2003 (World fresh_db []) in
  ∃ r, sales (w_db (o_world o)) = <[id fresh_sale := r]> (sales fresh_db)
       ∧ mutable_fields r = ("Bananas", 500, 299, 1495, "Al", "", "pending", "", 0)
       ∧ sync_status r = pending.
Proof.
  destruct (update_changes_the_supplied_fields_only offline put_by_A
              (at_time 2000 uuid_1) (at_time 2001 uuid_2) (at_time 2002 uuid_3) 2003
              (World fresh_db []))
    as (OLD & r & dev & b & n & Hrow & Hdev & _ & Hsales & Hfields & _ & _ & Hsync);
    [vm_compute; reflexivity|].
  exists r.
  assert (fresh_sale = OLD) as <-.
  { assert (sales fresh_db !! id fresh_sale = Some fresh_sale) as Hfresh
      by (vm_compute; reflexivity).
    cbn [w_db put_by_A put_id] in Hrow. congruence. }
  assert ("device-A" = dev) as <- by (cbn [put_by_A put_device_id] in Hdev; congruence).
  split_and!; [exact Hsales|exact Hfields|exact Hsync].
Defined.

(** *** Marking as synced *)

Lemma mark_synced_update_row e sid OLD db r db' :
  update_row e sid OLD (mark_synced_set_clause e OLD) db = inr (r, db') →
  r = update_updated_at_column e OLD (mark_synced_set_clause e OLD)
  ∧ sales db' = <[sid := r]> (sales db).
Proof.
  intros Hup. apply update_row_same_version in Hup as [Hr Hsales]; [|done].
  split; [|done]. rewrite Hr. by rewrite bool_decide_eq_true_2.
Qed.

Lemma mark_synced_rows_lookup e ids : ∀ db out db',
  NoDup ids →
  mark_synced_rows e ids db = inr (out, db') →
  length out = length (filter (λ k, is_Some (sales db !! k)) ids)
  ∧ ∀ k, sales db' !! k
         = if decide (k ∈ ids)
           then (λ r, update_updated_at_column e r (mark_synced_set_clause e r))
                  <$> sales db !! k
           else sales db !! k.
Proof.
  induction ids as [|sid ids IH]; intros db out db' Hnd Hrun.
  { simpl in Hrun. injection Hrun as <- <-. split; [done|]. intros k.
    by rewrite decide_False by apply not_elem_of_nil. }
  apply NoDup_cons in Hnd as [Hfresh Hnd]. simpl in Hrun.
  rewrite filter_cons.
  destruct (sales db !! sid) as [OLD|] eqn:Hrow.
  - destruct (update_row e sid OLD (mark_synced_set_clause e OLD) db)
      as [err|[r db1]] eqn:Hup; [done|].
    destruct (mark_synced_rows e ids db1) as [err|[out1 db2]] eqn:Hrest; [done|].
    injection Hrun as <- <-.
    apply mark_synced_update_row in Hup as [Hr Hsales].
    destruct (IH _ _ _ Hnd Hrest) as [Hlen Hlook].
    rewrite decide_True by done. split.
    + cbn [length]. rewrite Hlen. f_equal. f_equal.
      apply RegistryProps.filter_ext_in. intros k Hk. rewrite Hsales.
      rewrite lookup_insert_ne; [done|]. intros ->. done.
    + intros k. rewrite Hlook. destruct (decide (k = sid)) as [->|Hk].
      * rewrite decide_False by done. rewrite decide_True by left.
        rewrite Hsales, lookup_insert_eq, Hrow. simpl. by rewrite Hr.
      * rewrite Hsales, lookup_insert_ne by done.
        destruct (decide (k ∈ ids)) as [Hin|Hin].
        -- by rewrite decide_True by (by right).
        -- rewrite decide_False; [done|]. rewrite not_elem_of_cons. by split.
  - destruct (IH _ _ _ Hnd Hrun) as [Hlen Hlook].
    rewrite decide_False by (by intros [? ?]). split; [done|].
    intros k. rewrite Hlook. destruct (decide (k = sid)) as [->|Hk].
    + rewrite decide_False by done. rewrite decide_True by left. by rewrite Hrow.
    + destruct (decide (k ∈ ids)) as [Hin|Hin].
      * by rewrite decide_True by (by right).
      * rewrite decide_False; [done|]. rewrite not_elem_of_cons. by split.
Qed.

(** Marking sales as synced is itself a write: every listed row that
    exists, deleted or not, goes one version up (and is counted once,
    however often it is listed), its business columns untouched.  So
    the version a client read before the call is stale after it: an
    update naming that version is answered 409 with the row as the call
    left it. *)
Theorem marking_synced_outdates_the_version_a_client_holds
    (uuid_in : string → bool) (ids : list string) (e : env) (db db' : database)
    (n : nat) :
  mark_synced_handler uuid_in (Some ids) e db = (synced_count n, db') →
  n = length (filter (λ k, is_Some (sales db !! k)) (remove_dups ids))
  ∧ (∀ k, k ∉ ids → sales db' !! k = sales db !! k)
  ∧ ∀ sid r,
      sid ∈ ids → sales db !! sid = Some r →
      ∃ r',
        sales db' !! sid = Some r'
        ∧ version r' = version r + 1
        ∧ (sync_status r', last_sync_at r', updated_at r')
          = (synced, Some (now e), now e)
        ∧ mutable_fields r' = mutable_fields r
        ∧ (is_deleted r', device_id r') = (is_deleted r, device_id r)
        ∧ ∀ net p dev e_read e_write e_log clock clients,
            falsy_string dev = false → parseInt sid ≠ None →
            connects e_read = true → fault e_read = None →
            is_deleted r = false → version r ≠ 0 →
            put_sale net (PutRequest sid p dev (Some (version r)))
              e_read e_write e_log clock (World db' clients)
            = Outcome (json 409 (version_conflict_json (version r + 1) (version r) r'))
                      (World db' clients) [].
Proof.
  unfold mark_synced_handler. destruct ids as [|sid0 ids0]; [done|].
  set (ids := sid0 :: ids0).
  match goal with
  | |- context [pool_query ?q e db] =>
      destruct (pool_query_cases q e db) as [[error ->]|(rows & db1 & -> & Hq)]; [done|]
  end.
  intros [= <- <-]. cbv beta in Hq.
  destruct (forallb uuid_in ids); [|done].
  unfold mark_synced in Hq.
  destruct (mark_synced_rows_lookup e (remove_dups ids) db rows db1
              (NoDup_remove_dups _) Hq) as [Hlen Hlook].
  split_and!; [done| |].
  - intros k Hk. rewrite Hlook. rewrite decide_False; [done|].
    by rewrite elem_of_remove_dups.
  - intros sid r Hin Hrow.
    eexists. split_and!.
    + rewrite Hlook, decide_True by (by apply elem_of_remove_dups).
      rewrite Hrow. done.
    + done.
    + done.
    + done.
    + done.
    + intros net p dev e_read e_write e_log clock clients Hdev Hint Hconn Hfault Hdel Hv.
      apply (stale_version_is_refused net (PutRequest sid p dev (Some (version r)))
               e_read e_write e_log clock (World db1 clients)
               (update_updated_at_column e r (mark_synced_set_clause e r))
               (version r)); try done.
      * cbn [put_id]. intros ->. by apply Hint.
      * cbn [w_db put_id]. rewrite Hlook, decide_True by (by apply elem_of_remove_dups).
        by rewrite Hrow.
      * cbn [version update_updated_at_column]. lia.
Qed.

Lemma marking_synced_outdates_the_version_a_client_holds_witness :
  ∃ db' r',
    mark_synced_handler (λ _, true) (Some [id fresh_sale; id fresh_sale])
      (at_time 2000 uuid_1) fresh_db = (synced_count 1, db')
    ∧ put_sale offline put_by_A (at_time 3000 uuid_2) (at_time 3001 uuid_3)
        (at_time 3002 uuid_4) 3003 (World db' [])
      = Outcome (json 409 (version_conflict_json 2 1 r')) (World db' []) [].
Proof.
  destruct (mark_synced_handler (λ _, true) (Some [id fresh_sale; id fresh_sale])
              (at_time 2000 uuid_1) fresh_db) as [answer db'] eqn:Hrun.
  assert (answer = synced_count 1) as ->
    by (vm_compute in Hrun; by injection Hrun as <- _).
  destruct (marking_synced_outdates_the_version_a_client_holds _ _ _ _ _ _ Hrun)
    as (_ & _ & Hrows).
  destruct (Hrows (id fresh_sale) fresh_sale) as (r' & _ & _ & _ & _ & _ & Hput).
  { left. }
  { vm_compute. reflexivity. }
  exists db', r'. split; [reflexivity|].
  apply (Hput offline (rename_customer "Al") (Some "device-A")); try reflexivity.
  - vm_compute. discriminate.
  - discriminate.
Defined.

(** *** The name of a device *)

Section DeviceNames.
Variable net : transport.

Lemma post_sale_201_devices req e_register e_write e_log clock w :
  let o := post_sale net req e_register e_write e_log clock w in
  status (o_response o) = Some 201%nat →
  ∃ dev d,
    post_device_id req = Some dev ∧ dev ≠ ""
    ∧ devices (w_db (o_world o)) = <[dev := d]> (devices (w_db w))
    ∧ is_active d = true ∧ last_seen_at d = now e_register
    ∧ (device_name d, device_type d)
      = match devices (w_db w) !! dev with
        | Some d0 => (device_name d0, device_type d0)
        | None => (None, "unknown")
        end.
Proof.
  cbv zeta. unfold post_sale.
  destruct (post_quantity req) as [q|] eqn:Hq; [|done].
  destruct (post_price req) as [p|] eqn:Hp;
    [|cbn [truthy_number negb orb]; by rewrite orb_true_r].
  destruct (post_total req) as [t|] eqn:Ht;
    [|cbn [truthy_number negb orb]; by rewrite !orb_true_r].
  destruct (post_customer req) as [c|] eqn:Hc;
    [|cbn [falsy_string]; by rewrite !orb_true_r].
  destruct (post_device_id req) as [dev|] eqn:Hd;
    [|cbn [falsy_string]; by rewrite !orb_true_r].
  cbn [truthy_number falsy_string not_positive]. default_of_Some.
  destruct (decide (q = 0)) as [->|Hq0]; [done|].
  destruct (decide (p = 0)) as [->|Hp0]; [by rewrite orb_true_r|].
  destruct (decide (t = 0)) as [->|Ht0]; [by rewrite !orb_true_r|].
  destruct (decide (c = "")) as [->|Hc0]; [by rewrite !orb_true_r|].
  destruct (decide (dev = "")) as [->|Hd0]; [by rewrite !orb_true_r|].
  rewrite !(bool_decide_eq_true_2 (_ ≠ 0)) by done.
  rewrite !(bool_decide_eq_false_2 (_ = "")) by done.
  cbn [negb orb].
  case_bool_decide as Hqpos; [done|].
  case_bool_decide as Hppos; [done|].
  case_bool_decide as Htpos; [done|].
  destruct (register_device_inr dev None "unknown" e_register (w_db w))
    as (d & Hreg & Hactive & Hseen & Hname).
  unfold registerDevice.
  destruct (executeQuery (register_device dev None "unknown") e_register (w_db w))
    as [[error|u] db1] eqn:Hrun.
  { apply executeQuery_error in Hrun as [_ Herr]. intros Hst.
    exfalso. revert Hst. apply post_catch_thrown_status. tauto. }
  destruct (executeQuery_cases (register_device dev None "unknown") e_register (w_db w))
    as [[error Herr]|(u' & db1' & Hok & Hreg')]; [congruence|].
  rewrite Hok in Hrun. injection Hrun as <- <-.
  rewrite Hreg in Hreg'. injection Hreg' as <- <-.
  match goal with
  | |- context [executeTransaction [insert_sale ?v] e_write ?db] =>
      destruct (executeTransaction [insert_sale v] e_write db)
        as [[error|results] db2] eqn:Htx;
      [|destruct (executeTransaction_single (insert_sale v) e_write db)
          as [[error Herr]|(r & db2' & Hok2 & Hins)]; [congruence|]]
  end.
  { apply executeTransaction_error in Htx as [_ Herr]. intros Hst.
    exfalso. revert Hst. apply post_catch_thrown_status. tauto. }
  rewrite Hok2 in Htx. injection Htx as <- <-.
  apply insert_sale_inr in Hins.
  destruct Hins as (_ & _ & _ & _ & Hdevs & _ & _). cbn [devices] in Hdevs.
  destruct (logSyncOperation_frame dev "CREATE" "sales" (Some (id r)) None (Some r)
              e_log db2') as (syncLog & db3 & -> & _ & _ & Hd3).
  intros _. unfold post_respond. cbn [o_response o_world w_db].
  rewrite Hd3, Hdevs. by exists dev, d.
Qed.

End DeviceNames.

(** A device that the store first hears of through a creation is
    registered without a name and with the type [unknown], and keeps
    them: when it later registers on the channel with a name and a
    type, [register_device] only refreshes [last_seen_at] and
    [is_active] of the row that exists. *)
Theorem device_first_seen_by_a_creation_never_gets_a_name
    (net : transport) (req : post_request) (e_register e_write e_log : env)
    (clock : Z) (w : world) :
  let o := post_sale net req e_register e_write e_log clock w in
  status (o_response o) = Some 201%nat →
  ∃ dev,
    post_device_id req = Some dev
    ∧ (devices (w_db w) !! dev = None →
       devices (w_db (o_world o)) !! dev
       = Some (DeviceRow None "unknown" (now e_register) true)
       ∧ ∀ net' ws clock' e' deviceName deviceType limiter clients,
           connects e' = true → fault e' = None →
           devices
             (s_db (dispatch net' ws clock' e'
                      (register_device_msg (Some dev) deviceName deviceType)
                      (ServerState limiter clients (w_db (o_world o)))).1.1)
             !! dev
           = Some (DeviceRow None "unknown" (now e') true)).
Proof.
  cbv zeta. intros Hst.
  destruct (post_sale_201_devices net req e_register e_write e_log clock w Hst)
    as (dev & d & Hdev & Hne & Hdevs & Hactive & Hseen & Hname).
  exists dev. split; [done|]. intros Hnew. rewrite Hnew in Hname.
  assert (d = DeviceRow None "unknown" (now e_register) true) as ->.
  { destruct d as [n t s a]. cbn in *. congruence. }
  split; [by rewrite Hdevs, lookup_insert_eq|].
  intros net' ws clock' e' deviceName deviceType limiter clients Hconn Hfault.
  unfold dispatch. cbn [falsy_string]. rewrite bool_decide_eq_false_2 by done.
  default_of_Some. unfold registerDevice, executeQuery. rewrite Hconn, Hfault.
  unfold register_device. cbn [s_db fst snd devices].
  rewrite Hdevs, lookup_insert_eq. cbn [device_name device_type].
  by rewrite lookup_insert_eq.
Qed.

Lemma device_first_seen_by_a_creation_never_gets_a_name_witness :
  let o := post_sale offline post_by_C (at_time 3000 uuid_1) (at_time 3001 uuid_2)
             (at_time 3002 uuid_3) 3003 (World fresh_db []) in
  devices
    (s_db (dispatch offline 1%nat 4000 (at_time 4000 uuid_4)
             (register_device_msg (Some "device-C") (Some "Till 3") (Some "tablet"))
             (ServerState ∅ [] (w_db (o_world o)))).1.1)
    !! "device-C"
  = Some (DeviceRow None "unknown" 4000 true).
Proof.
  destruct (device_first_seen_by_a_creation_never_gets_a_name offline post_by_C
              (at_time 3000 uuid_1) (at_time 3001 uuid_2) (at_time 3002 uuid_3) 3003
              (World fresh_db []))
    as (dev & Hdev & Hnew); [vm_compute; reflexivity|].
  assert ("device-C" = dev) as <- by (cbn [post_by_C post_device_id] in Hdev; congruence).
  destruct Hnew as [_ Hlater]; [vm_compute; reflexivity|].
  apply (Hlater offline 1%nat 4000 (at_time 4000 uuid_4)); reflexivity.
Defined.

(** *** Identifiers that begin with a letter *)

(** The identifiers of sales are UUIDs, and the two routes
    [PUT /api/sales/:id] and [DELETE /api/sales/:id] test them with
    [parseInt]: through these two routes a sale whose identifier begins
    with one of the hexadecimal letters can be neither updated nor
    deleted.  Every such request that names a device is answered 400
    [INVALID_SALE_ID], without the store being read.  The other routes
    that write sales make no such test. *)
Theorem update_and_delete_routes_refuse_ids_that_begin_with_a_letter
    (c : ascii) (rest : string) :
  c ∈ ["a"; "b"; "c"; "d"; "e"; "f"]%char →
  parseInt (String c rest) = None
  ∧ (∀ net p dev v e_read e_write e_log clock w,
       falsy_string dev = false →
       put_sale net (PutRequest (String c rest) p dev v) e_read e_write e_log clock w
       = Outcome (json 400 (error_json "Valid sale ID is required"
                                       (Some "INVALID_SALE_ID"))) w [])
  ∧ (∀ net dev e_read e_write e_log clock w,
       falsy_string dev = false →
       delete_sale net (DeleteRequest (String c rest) dev) e_read e_write e_log clock w
       = Outcome (json 400 (error_json "Valid sale ID is required"
                                       (Some "INVALID_SALE_ID"))) w []).
Proof.
  intros Hc.
  assert (parseInt (String c rest) = None) as Hint.
  { repeat (apply elem_of_cons in Hc as [->|Hc]; [vm_compute; reflexivity|]).
    by apply elem_of_nil in Hc. }
  split_and!; [done| |].
  - intros net p dev v e_read e_write e_log clock [db clients] Hdev.
    unfold put_sale, put_read. cbn [put_device_id put_id w_db w_clients].
    rewrite Hdev, (bool_decide_eq_true_2 _ Hint). by rewrite orb_true_r.
  - intros net dev e_read e_write e_log clock [db clients] Hdev.
    unfold delete_sale. cbn [del_device_id del_id w_db w_clients].
    rewrite Hdev, (bool_decide_eq_true_2 _ Hint). by rewrite orb_true_r.
Qed.

Lemma update_and_delete_routes_refuse_ids_that_begin_with_a_letter_witness :
  delete_sale offline (DeleteRequest (id lettered_sale) (Some "device-A"))
    (at_time 2000 uuid_1) (at_time 2001 uuid_2) (at_time 2002 uuid_3) 2003
    (World lettered_db [])
  = Outcome (json 400 (error_json "Valid sale ID is required" (Some "INVALID_SALE_ID")))
            (World lettered_db []) [].
Proof.
  destruct (update_and_delete_routes_refuse_ids_that_begin_with_a_letter
              "a" "3bb189e-8bf9-3888-9912-ace4e6543002") as (_ & _ & Hdel).
  { left. }
  apply (Hdel offline (Some "device-A")). reflexivity.
Defined.

(** The route that marks sales as synced does write such a sale. *)
Example lettered_sale_is_marked_synced :
  let out := mark_synced_handler (λ _, true) (Some [id lettered_sale])
               (at_time 2000 uuid_1) lettered_db in
  out.1 = synced_count 1
  ∧ ((λ r, (sync_status r, version r, updated_at r)) <$> sales out.2 !! id lettered_sale)
    = Some (synced, 3, 2000).
Proof. vm_compute. done. Qed.

(** *** What polling devices see of an update *)

Lemma get_pending_inr asking e db rows :
  get_pending asking e db = inr rows →
  rows = if falsy_string asking then pending_sync db
         else filter (λ kr, device_id kr.2 ≠ default "" asking) (pending_sync db).
Proof.
  unfold get_pending.
  destruct (pool_query_cases (select_pending asking) e db)
    as [[error ->]|(a & db' & -> & Hq)]; [done|].
  unfold select_pending in Hq. injection Hq as <- <-. by intros [= <-].
Qed.

Lemma pending_sync_lookup db k :
  pending_sync db !! k
  = sales db !! k ≫= λ r, if bool_decide (sync_status r = pending) then Some r else None.
Proof.
  unfold pending_sync. destruct (sales db !! k) as [r|] eqn:Hrow; simpl.
  - case_bool_decide as Hp.
    + by apply map_lookup_filter_Some.
    + apply map_lookup_filter_None. right. intros r' Hr'. simpl. congruence.
  - apply map_lookup_filter_None. by left.
Qed.

(** Devices that poll [/api/sync/pending] learn of an update only if it
    was made by the device that had written the row before: the row is
    then pending, listed for every other device and not for the writer.
    An update by any other device leaves the row in conflict, and it is
    listed for nobody. *)
Theorem update_by_another_device_is_invisible_to_polling
    (net : transport) (req : put_request) (e_read e_write e_log : env)
    (clock : Z) (w : world) :
  let o := put_sale net req e_read e_write e_log clock w in
  status (o_response o) = Some 200%nat →
  ∃ OLD dev,
    sales (w_db w) !! put_id req = Some OLD
    ∧ put_device_id req = Some dev
    ∧ ∀ asking e rows,
        get_pending asking e (w_db (o_world o)) = inr rows →
        (device_id OLD ≠ dev → rows !! put_id req = None)
        ∧ (device_id OLD = dev →
           (is_Some (rows !! put_id req)
            ↔ falsy_string asking = true ∨ asking ≠ Some dev)).
Proof.
  cbv zeta. intros Hst.
  destruct (put_sale_200_row net req e_read e_write e_log clock w Hst)
    as (OLD & r & dev & b & n & Hrow & Hdev & _ & Hsales & _ & _ & Hstamp & Hsync).
  exists OLD, dev. split_and!; [done|done|].
  intros asking e rows Hrows. apply get_pending_inr in Hrows.
  assert (pending_sync (w_db (o_world (put_sale net req e_read e_write e_log clock w)))
            !! put_id req
          = if bool_decide (device_id OLD = dev) then Some r else None) as Hpending.
  { rewrite pending_sync_lookup, Hsales, lookup_insert_eq. simpl. rewrite Hsync.
    by case_bool_decide. }
  assert (device_id r = dev) as Hwriter by congruence.
  split.
  - intros Hother. rewrite bool_decide_eq_false_2 in Hpending by done.
    rewrite Hrows. destruct (falsy_string asking); [done|].
    apply map_lookup_filter_None. left. done.
  - intros Hsame. rewrite bool_decide_eq_true_2 in Hpending by done.
    rewrite Hrows. destruct asking as [a|]; cbn [falsy_string].
    + destruct (bool_decide (a = "")) eqn:Hempty; cbv iota.
      * rewrite Hpending. split; [by left|by eexists].
      * cbn [default]. split.
        -- intros [r' Hr']. apply map_lookup_filter_Some in Hr' as [Hr' Hne].
           right. cbn [snd] in Hne. rewrite Hpending in Hr'. injection Hr' as <-.
           intros [= ->]. by apply Hne.
        -- intros [?|Hne]; [done|]. exists r. apply map_lookup_filter_Some.
           split; [done|]. cbn [snd]. rewrite Hwriter. intros ->. done.
    + rewrite Hpending. split; [by left|by eexists].
Qed.

Lemma update_by_another_device_is_invisible_to_polling_witness :
  ∃ rows,
    get_pending (Some "device-A") (at_time 3000 uuid_4) conflicted_db = inr rows
    ∧ rows !! id fresh_sale = None.
Proof.
  destruct (get_pending (Some "device-A") (at_time 3000 uuid_4) conflicted_db)
    as [err|rows] eqn:Hrows; [vm_compute in Hrows; discriminate|].
  exists rows. split; [reflexivity|].
  destruct (update_by_another_device_is_invisible_to_polling offline put_by_B
              (at_time 2000 uuid_1) (at_time 2001 uuid_2) (at_time 2002 uuid_3) 2003
              (World fresh_db []))
    as (OLD & dev & Hrow & Hdev & Hpoll); [vm_compute; reflexivity|].
  destruct (Hpoll _ _ _ Hrows) as [Hother _].
  apply Hother.
  assert (fresh_sale = OLD) as <-.
  { assert (sales fresh_db !! id fresh_sale = Some fresh_sale) as Hfresh
      by (vm_compute; reflexivity).
    cbn [w_db put_by_B put_id] in Hrow. congruence. }
  assert ("device-B" = dev) as <- by (cbn [put_by_B put_device_id] in Hdev; congruence).
  vm_compute. discriminate.
Defined.

Lemma polling_after_write db k r dev (same : bool) asking e rows :
  sales db !! k = Some r →
  device_id r = dev →
  sync_status r = (if same then pending else conflict) →
  get_pending asking e db = inr rows →
  (same = false → rows !! k = None)
  ∧ (same = true →
     (is_Some (rows !! k) ↔ falsy_string asking = true ∨ asking ≠ Some dev)).
Proof.
  intros Hrow Hwriter Hsync Hrows. apply get_pending_inr in Hrows.
  assert (pending_sync db !! k = if same then Some r else None) as Hpending.
  { rewrite pending_sync_lookup, Hrow. simpl. rewrite Hsync. by destruct same. }
  split; intros ->.
  - rewrite Hrows. destruct (falsy_string asking); [done|].
    apply map_lookup_filter_None. by left.
  - rewrite Hrows. destruct asking as [a|]; cbn [falsy_string].
    + destruct (bool_decide (a = "")) eqn:Hempty; cbv iota.
      * rewrite Hpending. split; [by left|by eexists].
      * cbn [default]. split.
        -- intros [r' Hr']. apply map_lookup_filter_Some in Hr' as [Hr' Hne].
           right. cbn [snd] in Hne. rewrite Hpending in Hr'. injection Hr' as <-.
           intros [= ->]. by apply Hne.
        -- intros [?|Hne]; [done|]. exists r. apply map_lookup_filter_Some.
           split; [done|]. cbn [snd]. rewrite Hwriter. intros ->. done.
    + rewrite Hpending. split; [by left|by eexists].
Qed.

Lemma delete_sale_200_row net req e_read e_write e_log clock w :
  let o := delete_sale net req e_read e_write e_log clock w in
  status (o_response o) = Some 200%nat →
  ∃ OLD r dev,
    sales (w_db w) !! del_id req = Some OLD
    ∧ del_device_id req = Some dev
    ∧ sales (w_db (o_world o)) !! del_id req = Some r
    ∧ is_deleted r = true
    ∧ device_id r = dev
    ∧ sync_status r = (if bool_decide (device_id OLD = dev) then pending else conflict).
Proof.
  cbv zeta. unfold delete_sale.
  destruct (del_device_id req) as [dev|] eqn:Hdev; [|done].
  destruct (falsy_string _); [done|]. destruct (_ || _); [done|].
  default_of_Some.
  pose proof (executeQuery_select_db (del_id req) e_read (w_db w)) as Hdb.
  destruct (executeQuery (select_active_sale (del_id req)) e_read (w_db w))
    as [[error|[|saleToDelete rows]] db0]; [done|done|].
  simpl in Hdb. subst db0.
  destruct (executeTransaction_single (soft_delete_sale (del_id req) dev) e_write (w_db w))
    as [[error ->]|(deleted & db1 & -> & Hdel)]; [done|].
  destruct deleted; cbn [negb]; [|done].
  destruct (logSyncOperation_frame dev "DELETE" "sales"
              (Some (del_id req)) (Some saleToDelete) None e_log db1)
    as (syncLog & db2 & -> & Hs & _).
  intros _. unfold delete_respond. cbn [o_world w_db]. rewrite Hs.
  unfold soft_delete_sale in Hdel.
  destruct (sales (w_db w) !! del_id req) as [OLD|] eqn:Hrow; [|done].
  destruct (is_deleted OLD); [done|].
  destruct (update_row _ _ _ _ _) as [err|[r db1']] eqn:Hup; [done|].
  injection Hdel as <-.
  apply update_row_same_version in Hup as [Hr Hsales]; [|done].
  change (device_id (soft_delete_set_clause dev e_write OLD)) with dev in Hr.
  exists OLD, r, dev.
  split_and!; [done|done|by rewrite Hsales, lookup_insert_eq|..];
    rewrite Hr; by destruct (bool_decide (device_id OLD = dev)).
Qed.

(** The same holds of deletions: a delete answered 200 is listed, as a
    pending row flagged deleted, for every device but the one that made
    it when that device was also the last to write the row; made by any
    other device it leaves the row in conflict, and no device that
    polls is told that the sale is gone. *)
Theorem deletion_by_another_device_is_invisible_to_polling
    (net : transport) (req : delete_request) (e_read e_write e_log : env)
    (clock : Z) (w : world) :
  let o := delete_sale net req e_read e_write e_log clock w in
  status (o_response o) = Some 200%nat →
  ∃ OLD dev,
    sales (w_db w) !! del_id req = Some OLD
    ∧ del_device_id req = Some dev
    ∧ ∀ asking e rows,
        get_pending asking e (w_db (o_world o)) = inr rows →
        (device_id OLD ≠ dev → rows !! del_id req = None)
        ∧ (device_id OLD = dev →
           ((∃ r, rows !! del_id req = Some r ∧ is_deleted r = true)
            ↔ falsy_string asking = true ∨ asking ≠ Some dev)).
Proof.
  cbv zeta. intros Hst.
  destruct (delete_sale_200_row net req e_read e_write e_log clock w Hst)
    as (OLD & r & dev & Hrow & Hdev & Hnew & Hdel & Hwriter & Hsync).
  exists OLD, dev. split_and!; [done|done|].
  intros asking e rows Hrows.
  destruct (polling_after_write _ _ _ _ _ _ _ _ Hnew Hwriter Hsync Hrows)
    as [Hother Hsame].
  split.
  - intros Hne. apply Hother. by apply bool_decide_eq_false.
  - intros Heq. rewrite <- Hsame by by apply bool_decide_eq_true.
    split; [intros (r' & -> & _); by eexists|].
    intros [r' Hr']. exists r'. split; [done|].
    apply get_pending_inr in Hrows. rewrite Hrows in Hr'.
    assert (sales (w_db (o_world (delete_sale net req e_read e_write e_log clock w)))
              !! del_id req = Some r') as Hr''.
    { destruct (falsy_string asking).
      - by apply map_lookup_filter_Some in Hr' as [Hr' _].
      - apply map_lookup_filter_Some in Hr' as [Hr' _].
        by apply map_lookup_filter_Some in Hr' as [Hr' _]. }
    congruence.
Qed.

Lemma deletion_by_another_device_is_invisible_to_polling_witness :
  ∃ rows,
    get_pending (Some "device-A") (at_time 3000 uuid_4)
      (w_db (o_world (delete_sale offline
                        (DeleteRequest (id fresh_sale) (Some "device-B"))
                        (at_time 2000 uuid_1) (at_time 2001 uuid_2)
                        (at_time 2002 uuid_3) 2003 (World fresh_db []))))
    = inr rows
    ∧ rows !! id fresh_sale = None.
Proof.
  destruct (get_pending (Some "device-A") (at_time 3000 uuid_4)
              (w_db (o_world (delete_sale offline
                                (DeleteRequest (id fresh_sale) (Some "device-B"))
                                (at_time 2000 uuid_1) (at_time 2001 uuid_2)
                                (at_time 2002 uuid_3) 2003 (World fresh_db [])))))
    as [err|rows] eqn:Hrows; [vm_compute in Hrows; discriminate|].
  exists rows. split; [reflexivity|].
  destruct (deletion_by_another_device_is_invisible_to_polling offline
              (DeleteRequest (id fresh_sale) (Some "device-B"))
              (at_time 2000 uuid_1) (at_time 2001 uuid_2) (at_time 2002 uuid_3) 2003
              (World fresh_db []))
    as (OLD & dev & Hrow & Hdev & Hpoll); [vm_compute; reflexivity|].
  destruct (Hpoll _ _ _ Hrows) as [Hother _].
  apply Hother.
  assert (fresh_sale = OLD) as <-.
  { assert (sales fresh_db !! id fresh_sale = Some fresh_sale) as Hfresh
      by (vm_compute; reflexivity).
    cbn [w_db del_id] in Hrow. congruence. }
  assert ("device-B" = dev) as <- by (cbn [del_device_id] in Hdev; congruence).
  vm_compute. discriminate.
Defined.

(** *** The audit log *)

Section AuditLog.
Variable net : transport.

Lemma delivered_event (clients : registry) (ev : event) excl x :
  x ∈ delivered (completed (broadcast net clients ev excl)) → x.2 = ev.
Proof.
  rewrite RegistryProps.broadcast_delivered. intros Hx.
  by apply list_elem_of_fmap in Hx as (entry & -> & _).
Qed.

Lemma update_sale_sync_log sid p dev e db rows db' :
  update_sale sid p dev e db = inr (rows, db') → sync_log db' = sync_log db.
Proof.
  unfold update_sale. destruct (sales db !! sid) as [OLD|]; [|by intros [= <- <-]].
  destruct (is_deleted OLD); [by intros [= <- <-]|].
  destruct (update_row _ _ _ _ _) as [err|[r db1]] eqn:Hup; [done|].
  intros [= <- <-]. by apply update_row_inr in Hup as (_ & _ & _ & Hlog & _).
Qed.

Lemma soft_delete_sale_sync_log sid dev e db found db' :
  soft_delete_sale sid dev e db = inr (found, db') → sync_log db' = sync_log db.
Proof.
  unfold soft_delete_sale. destruct (sales db !! sid) as [OLD|]; [|by intros [= <- <-]].
  destruct (is_deleted OLD); [by intros [= <- <-]|].
  destruct (update_row _ _ _ _ _) as [err|[r db1]] eqn:Hup; [done|].
  intros [= <- <-]. by apply update_row_inr in Hup as (_ & _ & _ & Hlog & _).
Qed.

Lemma put_sale_sync_log req e_read e_write e_log clock w :
  let o := put_sale net req e_read e_write e_log clock w in
  sync_log (w_db (o_world o)) = sync_log (w_db w)
  ∧ ∀ x, x ∈ o_sent o → event_syncLogId x.2 = None.
Proof.
  cbv zeta. unfold put_sale.
  pose proof (put_read_db req e_read (w_db w)) as Hdb.
  destruct (put_read req e_read (w_db w)) as [[r|dev0 currentSale] db0].
  { simpl in Hdb. subst. split; [done|]. intros x Hx. by apply elem_of_nil in Hx. }
  simpl in Hdb. subst db0.
  unfold put_write, put_update, put_log. cbn [w_db w_clients].
  destruct (executeTransaction_single
              (update_sale (put_id req) (put_patch req) dev0) e_write (w_db w))
    as [[error ->]|(rows & db1 & -> & Hup)].
  { split; [done|]. intros x Hx. by apply elem_of_nil in Hx. }
  apply update_sale_sync_log in Hup.
  rewrite (capital_operation_is_never_logged dev0 "UPDATE") by (right; left).
  unfold put_respond. cbn [w_db w_clients].
  destruct (head rows) as [updatedSale|].
  - cbn [o_world o_sent w_db]. split; [done|].
    intros x Hx. by rewrite (delivered_event _ _ _ _ Hx).
  - split; [done|]. intros x Hx. by apply elem_of_nil in Hx.
Qed.

Lemma delete_sale_sync_log req e_read e_write e_log clock w :
  let o := delete_sale net req e_read e_write e_log clock w in
  sync_log (w_db (o_world o)) = sync_log (w_db w)
  ∧ ∀ x, x ∈ o_sent o → event_syncLogId x.2 = None.
Proof.
  cbv zeta. unfold delete_sale.
  assert (∀ r db, sync_log db = sync_log (w_db w) →
            sync_log (w_db (o_world (Outcome r (World db (w_clients w)) [])))
            = sync_log (w_db w)
            ∧ ∀ x, x ∈ o_sent (Outcome r (World db (w_clients w)) []) →
                   event_syncLogId x.2 = None) as Hquiet.
  { intros r db Hlog. split; [done|]. intros x Hx. by apply elem_of_nil in Hx. }
  destruct (falsy_string _); [by apply Hquiet|].
  destruct (_ || _); [by apply Hquiet|].
  pose proof (executeQuery_select_db (del_id req) e_read (w_db w)) as Hdb.
  destruct (executeQuery (select_active_sale (del_id req)) e_read (w_db w))
    as [[error|[|saleToDelete rows]] db0]; simpl in Hdb; subst db0;
    [by apply Hquiet|by apply Hquiet|].
  destruct (executeTransaction_single
              (soft_delete_sale (del_id req) (default "" (del_device_id req)))
              e_write (w_db w))
    as [[error ->]|(deleted & db1 & -> & Hdel)]; [by apply Hquiet|].
  apply soft_delete_sale_sync_log in Hdel.
  destruct deleted; cbn [negb]; [|by apply Hquiet].
  rewrite (capital_operation_is_never_logged _ "DELETE") by (right; right; left).
  unfold delete_respond. cbn [o_world o_sent w_db w_clients]. split; [done|].
  intros x Hx. by rewrite (delivered_event _ _ _ _ Hx).
Qed.

Lemma post_sale_sync_log req e_register e_write e_log clock w :
  let o := post_sale net req e_register e_write e_log clock w in
  sync_log (w_db (o_world o)) = sync_log (w_db w)
  ∧ ∀ x, x ∈ o_sent o → event_syncLogId x.2 = None.
Proof.
  cbv zeta. unfold post_sale.
  assert (∀ r db, sync_log db = sync_log (w_db w) →
            sync_log (w_db (o_world (Outcome r (World db (w_clients w)) [])))
            = sync_log (w_db w)
            ∧ ∀ x, x ∈ o_sent (Outcome r (World db (w_clients w)) []) →
                   event_syncLogId x.2 = None) as Hquiet.
  { intros r db Hlog. split; [done|]. intros x Hx. by apply elem_of_nil in Hx. }
  destruct (_ || _); [by apply Hquiet|].
  destruct (not_positive _); [by apply Hquiet|].
  destruct (not_positive _); [by apply Hquiet|].
  destruct (not_positive _); [by apply Hquiet|].
  unfold registerDevice.
  destruct (executeQuery_cases
              (register_device (default "" (post_device_id req)) None "unknown")
              e_register (w_db w))
    as [[error ->]|(u & db1 & -> & Hreg)]; [by apply Hquiet|].
  assert (sync_log db1 = sync_log (w_db w)) as Hlog1.
  { unfold register_device in Hreg. by injection Hreg as _ <-. }
  match goal with
  | |- context [executeTransaction [insert_sale ?v] e_write db1] =>
      destruct (executeTransaction_single (insert_sale v) e_write db1)
        as [[error ->]|(r & db2 & -> & Hins)]; [by apply Hquiet|]
  end.
  apply insert_sale_inr in Hins as (_ & _ & _ & _ & _ & Hlog2 & _).
  rewrite (capital_operation_is_never_logged _ "CREATE") by left.
  unfold post_respond. cbn [o_world o_sent w_db w_clients]. split; [congruence|].
  intros x Hx. by rewrite (delivered_event _ _ _ _ Hx).
Qed.

End AuditLog.

(** No handler of the server ever adds a row to the audit log, and no
    event it broadcasts carries the identifier of one: the handlers
    name their operations in capitals, which the CHECK of
    [sync_log.operation_type] rejects, and the failure is swallowed. *)
Theorem audit_log_is_never_written :
  (∀ net req e_read e_write e_log clock w,
     let o := put_sale net req e_read e_write e_log clock w in
     sync_log (w_db (o_world o)) = sync_log (w_db w)
     ∧ ∀ x, x ∈ o_sent o → event_syncLogId x.2 = None)
  ∧ (∀ net req e_read e_write e_log clock w,
       let o := delete_sale net req e_read e_write e_log clock w in
       sync_log (w_db (o_world o)) = sync_log (w_db w)
       ∧ ∀ x, x ∈ o_sent o → event_syncLogId x.2 = None)
  ∧ (∀ net req e_register e_write e_log clock w,
       let o := post_sale net req e_register e_write e_log clock w in
       sync_log (w_db (o_world o)) = sync_log (w_db w)
       ∧ ∀ x, x ∈ o_sent o → event_syncLogId x.2 = None).
Proof.
  split_and!.
  - apply put_sale_sync_log.
  - apply delete_sale_sync_log.
  - apply post_sale_sync_log.
Qed.

Lemma audit_log_is_never_written_witness :
  let o := put_sale online put_by_A (at_time 2000 uuid_1) (at_time 2001 uuid_2)
             (at_time 2002 uuid_3) 2003 (World fresh_db three_clients) in
  sync_log (w_db (o_world o)) = []
  ∧ ∃ x, x ∈ o_sent o ∧ event_syncLogId x.2 = None.
Proof.
  intros o.
  destruct (proj1 audit_log_is_never_written online put_by_A (at_time 2000 uuid_1)
              (at_time 2001 uuid_2) (at_time 2002 uuid_3) 2003
              (World fresh_db three_clients)) as [Hlog Hsent].
  split; [exact Hlog|].
  destruct (o_sent o) as [|x rest] eqn:Hs; [vm_compute in Hs; discriminate|].
  exists x. split; [left|]. apply Hsent. fold o. rewrite Hs. left.
Defined.

(** *** From a recorded conflict to its resolution *)

Lemma put_sale_200_conflict net req e_read e_write e_log clock w :
  let o := put_sale net req e_read e_write e_log clock w in
  status (o_response o) = Some 200%nat →
  ∃ OLD r dev db1,
    sales (w_db w) !! put_id req = Some OLD
    ∧ put_device_id req = Some dev
    ∧ update_row e_write (put_id req) OLD
        (put_set_clause (put_patch req) dev e_write OLD) (w_db w) = inr (r, db1)
    ∧ sales (w_db (o_world o)) = sales db1
    ∧ conflicts (w_db (o_world o)) = conflicts db1.
Proof.
  cbv zeta. unfold put_sale.
  destruct (put_read req e_read (w_db w)) as [[r|dev0 currentSale] db0] eqn:Hread.
  { intros Hst. by apply put_read_answered_status in Hread. }
  apply put_read_proceeds in Hread as (-> & Hdev & _ & Hrow & Hdel & _).
  unfold put_write, put_update, put_log. cbn [w_db w_clients].
  destruct (executeTransaction_single
              (update_sale (put_id req) (put_patch req) dev0) e_write (w_db w))
    as [[error ->]|(rows & db1 & -> & Hup)]; [done|].
  destruct (logSyncOperation_frame dev0 "UPDATE" "sales" (Some (put_id req))
              (Some currentSale) (head rows) e_log db1)
    as (syncLog & db2 & -> & Hs & Hc & _).
  unfold update_sale in Hup. rewrite Hrow, Hdel in Hup.
  destruct (update_row _ _ _ _ _) as [err|[r db1']] eqn:Hrowup; [done|].
  injection Hup as <- <-.
  intros _. unfold put_respond. cbn [head o_response o_world w_db].
  by exists currentSale, r, dev0, db1'.
Qed.

(** The whole course of a conflict.  An update by a device other than
    the last writer is applied and recorded as a conflict between the
    row as it was and the row as proposed, each snapshot written with
    the offset the session has at its [updated_at].  When the local
    time the session shows for the write is not before the local time
    it shows for the row's last write (the instants do not decide
    this when the offset of the session changes in between),
    resolving that conflict by last write wins picks the proposed row,
    which is what the record already holds: no business column
    changes, the record goes one more version up and becomes synced. *)
Theorem resolving_a_recorded_conflict_changes_no_business_column
    (net : transport) (req : put_request) (e_read e_write e_log : env)
    (clock : Z) (w : world) (e_resolve : env) (strategy : option string)
    (OLD : sale) (dev : string) :
  let o := put_sale net req e_read e_write e_log clock w in
  status (o_response o) = Some 200%nat →
  sales (w_db w) !! put_id req = Some OLD →
  put_device_id req = Some dev →
  device_id OLD ≠ dev →
  id OLD = put_id req →
  local_updated_at OLD (utc_offset e_write (updated_at OLD))
  ≤ now e_write + utc_offset e_write (now e_write) →
  strategy = None ∨ strategy = Some "last_write_wins" →
  connects e_resolve = true → fault e_resolve = None →
  ∃ r c db2 r2,
    sales (w_db (o_world o)) !! put_id req = Some r
    ∧ conflicts (w_db (o_world o)) !! fresh_uuid e_write = Some c
    ∧ (device_id_1 c, device_id_2 c, data_1 c, is_resolved c)
      = (device_id OLD, dev, OLD, false)
    ∧ (zone_1 c, zone_2 c)
      = (utc_offset e_write (updated_at OLD), utc_offset e_write (now e_write))
    ∧ resolve_conflict (fresh_uuid e_write) strategy e_resolve (w_db (o_world o))
      = (json 200 resolved_json, db2)
    ∧ sales db2 !! put_id req = Some r2
    ∧ mutable_fields r2 = mutable_fields r
    ∧ (version r2, sync_status r2) = (version r + 1, synced).
Proof.
  cbv zeta. intros Hst Hrow Hdev Hother Hid Hclock Hstrategy Hconn Hfault.
  destruct (put_sale_200_conflict net req e_read e_write e_log clock w Hst)
    as (OLD' & r & dev' & db1 & Hrow' & Hdev' & Hup & Hsales & Hconf).
  assert (OLD' = OLD) as -> by congruence.
  assert (dev' = dev) as -> by congruence.
  set (NEW := put_set_clause (put_patch req) dev e_write OLD) in *.
  apply update_row_inr in Hup as (Hr & Hchecks & Hsales1 & _ & _ & Hconf1).
  assert (conflict_condition OLD NEW = true) as Hcond.
  { rewrite conflict_condition_same_version by done.
    by apply bool_decide_eq_true_2. }
  rewrite Hcond in Hr, Hconf1.
  unfold insert_conflict in Hconf1.
  destruct (conflicts (w_db w) !! fresh_uuid e_write); [done|].
  injection Hconf1 as Hconf1.
  set (c := {| c_id := fresh_uuid e_write; c_table_name := "sales";
               c_record_id := id NEW;
               device_id_1 := device_id OLD; device_id_2 := device_id NEW;
               data_1 := OLD; data_2 := NEW;
               resolution_data := None; resolution_strategy := None;
               resolved_at := None; is_resolved := false;
               c_created_at := now e_write;
               zone_1 := utc_offset e_write (updated_at OLD);
               zone_2 := utc_offset e_write (updated_at NEW) |}) in *.
  assert (latest_data c = NEW) as Hlatest.
  { unfold latest_data. cbn [data_1 data_2 zone_1 zone_2 c].
    rewrite bool_decide_eq_false_2; [done|].
    unfold local_updated_at in *. cbn [updated_at NEW put_set_clause]. lia. }
  assert (conflicts (w_db (o_world (put_sale net req e_read e_write e_log clock w)))
            !! fresh_uuid e_write = Some c) as Hc
    by (rewrite Hconf, <- Hconf1; apply lookup_insert_eq).
  assert (sales (w_db (o_world (put_sale net req e_read e_write e_log clock w)))
            !! c_record_id c = Some r) as Hr'.
  { cbn [c_record_id c]. change (id NEW) with (id OLD). rewrite Hid.
    rewrite Hsales, Hsales1. apply lookup_insert_eq. }
  assert (sales_checks (latest_data c) = true) as Hok.
  { rewrite Hlatest. rewrite Hr in Hchecks. exact Hchecks. }
  pose proof (resolve_conflict_last_write_wins_inr (fresh_uuid e_write) e_resolve
                _ c r Hc Hr' Hok) as Hresolve.
  eexists r, c, _, _. split_and!.
  - cbn [c_record_id c] in Hr'. change (id NEW) with (id OLD) in Hr'.
    by rewrite Hid in Hr'.
  - exact Hc.
  - done.
  - done.
  - unfold resolve_conflict, pool_query.
    rewrite bool_decide_eq_true_2 by (by destruct Hstrategy as [->| ->]).
    rewrite Hconn, Hfault, Hresolve. done.
  - cbn [sales c_record_id c]. change (id NEW) with (id OLD). rewrite Hid.
    apply lookup_insert_eq.
  - rewrite Hlatest, Hr. done.
  - rewrite Hr. done.
Qed.

Lemma resolving_a_recorded_conflict_changes_no_business_column_witness :
  ∃ db2 r2,
    resolve_conflict uuid_2 None (at_time 3000 uuid_4) conflicted_db
      = (json 200 resolved_json, db2)
    ∧ sales db2 !! id fresh_sale = Some r2
    ∧ customer r2 = "Bo" ∧ version r2 = 3.
Proof.
  destruct (resolving_a_recorded_conflict_changes_no_business_column offline put_by_B
              (at_time 2000 uuid_1) (at_time 2001 uuid_2) (at_time 2002 uuid_3) 2003
              (World fresh_db []) (at_time 3000 uuid_4) None fresh_sale "device-B")
    as (r & c & db2 & r2 & Hr & _ & _ & _ & Hresolve & Hr2 & Hfields & Hversion);
    try reflexivity; try (vm_compute; done); [by left|].
  exists db2, r2. split_and!; [exact Hresolve|exact Hr2| |].
  - assert (mutable_fields r
            = ("Bananas", 500, 299, 1495, "Bo", "", "pending", "", 0)) as Hm.
    { vm_compute in Hr. injection Hr as <-. reflexivity. }
    rewrite Hm in Hfields. by injection Hfields.
  - assert (version r = 2) as Hv.
    { vm_compute in Hr. injection Hr as <-. reflexivity. }
    injection Hversion as Hversion _. lia.
Defined.

End HandlersMore.

(** ** Admission of API requests: one quota for each path *)

Module AdmissionProps.
Import RateLimiter Server RateLimiterMore.

Lemma clientKey_inj clientId endpoint endpoint' :
  clientKey clientId endpoint = clientKey clientId endpoint' → endpoint = endpoint'.
Proof.
  unfold clientKey. intros Heq.
  apply (inj (String.append clientId)) in Heq.
  by apply (inj (String.append "_")) in Heq.
Qed.

Lemma admission_same_entry clientIP path now (limiter limiter' : gmap string client) :
  limiter !! clientKey clientIP path = limiter' !! clientKey clientIP path →
  (admission clientIP path now limiter).1 = (admission clientIP path now limiter').1
  ∧ (admission clientIP path now limiter).2 !! clientKey clientIP path
    = (admission clientIP path now limiter').2 !! clientKey clientIP path.
Proof.
  intros Hsame. unfold admission. cbn [fst snd].
  destruct (isAllowed_as_insert limiter clientIP path now) as (d & c' & Hd).
  rewrite (Hd limiter eq_refl), (Hd limiter' (eq_sym Hsame)). cbn [fst snd].
  by rewrite !lookup_insert_eq.
Qed.

Lemma admissions_same_entry clientIP path (times : list Z) :
  ∀ limiter limiter' : gmap string client,
    limiter !! clientKey clientIP path = limiter' !! clientKey clientIP path →
    admissions clientIP ((λ t, (path, t)) <$> times) limiter
    = admissions clientIP ((λ t, (path, t)) <$> times) limiter'.
Proof.
  induction times as [|t times IH]; intros limiter limiter' Hsame; [done|].
  rewrite fmap_cons. cbn [admissions].
  destruct (admission_same_entry clientIP path t limiter limiter' Hsame) as [-> Hnext].
  f_equal. by apply IH.
Qed.

Lemma admission_other_path clientIP path path' now (limiter : gmap string client) :
  path' ≠ path →
  (admission clientIP path' now limiter).2 !! clientKey clientIP path
  = limiter !! clientKey clientIP path.
Proof.
  intros Hne. unfold admission. cbn [snd]. apply isAllowed_other_key.
  intros Heq. apply Hne. symmetry. by apply clientKey_inj in Heq.
Qed.

(** The quota of a client is counted for each path apart: what the
    middleware answers to the requests a client makes to one path is
    what it would answer if the client had made no other request.
    The paths of sales carry their identifier, so the limit of 60
    requests a minute never bounds the requests of a client over
    several records. *)
Theorem quota_is_counted_for_each_path_apart
    (clientIP : string) (reqs : list (string * Z))
    (limiter : gmap string client) (path : string) :
  (filter (λ ra, ra.1.1 = path) (zip reqs (admissions clientIP reqs limiter))).*2
  = admissions clientIP
      ((λ t, (path, t)) <$> (filter (λ r, r.1 = path) reqs).*2) limiter.
Proof.
  revert limiter. induction reqs as [|[p t] reqs IH]; intros limiter; [done|].
  cbn [admissions zip zip_with]. rewrite !filter_cons. cbn [fst snd].
  destruct (decide (p = path)) as [->|Hp].
  - rewrite !fmap_cons. cbn [admissions fst snd]. f_equal. apply IH.
  - rewrite IH. apply admissions_same_entry. by apply admission_other_path.
Qed.

End AdmissionProps.
